(** * Jagoan: transaction correlation and confirmation workflow

    A shallow embedding of the two programs of the repository:

    - the Android notification sensor
      ([apps/android/.../JagoanListenerService.kt]): amount extraction from
      the notification text and the 5 second duplicate window;
    - the Node.js server ([apps/server/src/index.js]): the webhook that
      stores a pending transaction and announces it on Telegram, and the
      Telegram text handler that writes the first cached transaction to
      Notion.

    Numbers are IEEE 754 binary64 values on both sides (Kotlin [Double],
    JavaScript [number]); they are modelled by [spec_float] of the standard
    library, instantiated at precision 53 and maximal exponent 1024.

    The definitions come first: numbers, the matcher, the sensor, the
    JavaScript values, node-cache, the two handlers of the server and the
    chain from the sensor to the server.  The properties follow, the sensor
    first, then the server, then both together. *)

From Stdlib Require Import ZArith List String Ascii Bool Lia.
From Stdlib Require Import SpecFloat DecimalString.
From Stdlib Require DecimalZ DecimalPos.
Import ListNotations.

Local Open Scope Z_scope.
Local Open Scope string_scope.
Local Open Scope list_scope.

(** ** Binary64 numbers *)

Definition double : Type := spec_float.

(** The binary64 value nearest to an integer (ties to even, overflow to
    infinity), as [java.lang.Double.parseDouble] computes it for a string of
    decimal digits. *)
Definition double_of_Z (n : Z) : double := binary_normalize 53 1024 n 0 false.

(** IEEE equality, Kotlin's [==] on two [Double]s and JavaScript's [===] on
    two numbers: [NaN] differs from everything, [-0.0] equals [0.0]. *)
Definition double_eqb (x y : double) : bool := SFeqb x y.

Definition is_nan (x : double) : bool :=
  match x with S754_nan => true | _ => false end.

Definition is_zero (x : double) : bool :=
  match x with S754_zero _ => true | _ => false end.

Definition is_finite (x : double) : bool :=
  match x with S754_zero _ | S754_finite _ _ _ => true | _ => false end.

Definition is_negative (x : double) : bool :=
  match x with
  | S754_finite true _ _ | S754_infinity true => true
  | _ => false
  end.

(** ** Texts and character classes

    A Kotlin [String] is a sequence of UTF-16 units, which the regular
    expression engine reads as code points.  A text is modelled by the list
    of its code points, an unpaired surrogate counting as one.

    The sensor runs on Android, whose [java.util.regex] is ICU's engine,
    not OpenJDK's: [\d] is the general category Nd, the decimal digits of
    every script, and [\s] is the set [[\p{WhiteSpace}]] of the engine
    (ICU's user guide words it as [[\t\n\f\r\p{Z}]], which lacks U+000B
    and U+0085).  The tables are those of Unicode 14.0, the version of
    Android 13; later versions add blocks of digits and leave [0] to [9]
    and the white space as they are. *)

Definition CodePoint : Type := N.

Definition Text : Type := list CodePoint.

(** The text of a string literal whose characters are below 256. *)
Definition text_of_string (s : string) : Text :=
  map N_of_ascii (list_ascii_of_string s).

(** Membership in a table of inclusive ranges. *)
Definition in_ranges (c : CodePoint) (ranges : list (N * N)) : bool :=
  existsb (fun r => (fst r <=? c)%N && (c <=? snd r)%N) ranges.

(** General category Nd. *)
Definition Nd : list (N * N) :=
  [(48, 57); (1632, 1641); (1776, 1785); (1984, 1993); (2406, 2415);
   (2534, 2543); (2662, 2671); (2790, 2799); (2918, 2927); (3046, 3055);
   (3174, 3183); (3302, 3311); (3430, 3439); (3558, 3567); (3664, 3673);
   (3792, 3801); (3872, 3881); (4160, 4169); (4240, 4249); (6112, 6121);
   (6160, 6169); (6470, 6479); (6608, 6617); (6784, 6793); (6800, 6809);
   (6992, 7001); (7088, 7097); (7232, 7241); (7248, 7257); (42528, 42537);
   (43216, 43225); (43264, 43273); (43472, 43481); (43504, 43513);
   (43600, 43609); (44016, 44025); (65296, 65305); (66720, 66729);
   (68912, 68921); (69734, 69743); (69872, 69881); (69942, 69951);
   (70096, 70105); (70384, 70393); (70736, 70745); (70864, 70873);
   (71248, 71257); (71360, 71369); (71472, 71481); (71904, 71913);
   (72016, 72025); (72784, 72793); (73040, 73049); (73120, 73129);
   (92768, 92777); (92864, 92873); (93008, 93017); (120782, 120831);
   (123200, 123209); (123632, 123641); (125264, 125273);
   (130032, 130041)]%N.

(** Property White_Space: the controls U+0009 to U+000D and U+0085, and the
    separators of the categories Zs, Zl and Zp. *)
Definition White_Space : list (N * N) :=
  [(9, 13); (32, 32); (133, 133); (160, 160); (5760, 5760); (8192, 8202);
   (8232, 8233); (8239, 8239); (8287, 8287); (12288, 12288)]%N.

(** [\d] *)
Definition is_digit (c : CodePoint) : bool := in_ranges c Nd.

(** [\s] *)
Definition is_space (c : CodePoint) : bool := in_ranges c White_Space.

Definition is_dot (c : CodePoint) : bool := (c =? 46)%N.
Definition is_comma (c : CodePoint) : bool := (c =? 44)%N.

(** The class [[\d.,]]. *)
Definition is_amount_char (c : CodePoint) : bool :=
  is_digit c || is_dot c || is_comma c.

(** The digits [0] to [9], the only ones [java.lang.Double.parseDouble]
    reads. *)
Definition is_ascii_digit (c : CodePoint) : bool :=
  (48 <=? c)%N && (c <=? 57)%N.

(** ** A backtracking matcher *)

(** The fragment of regular expressions the sensor's pattern is written in.
    Repetition is greedy and applies to a character class. *)
Inductive regex : Type :=
| Lit (s : Text)
| Alt (r1 r2 : regex)
| Cat (r1 r2 : regex)
| Star (cls : CodePoint -> bool)
| Plus (cls : CodePoint -> bool)
| Group (n : nat) (r : regex).

(** Captured groups, most recent first. *)
Definition captures : Type := list (nat * Text).

Fixpoint group_value (n : nat) (caps : captures) : Text :=
  match caps with
  | [] => []
  | (m, s) :: caps' => if Nat.eqb n m then s else group_value n caps'
  end.

(** [strip_prefix p s]: the rest of [s] after the literal [p]. *)
Fixpoint strip_prefix (p s : Text) : option Text :=
  match p, s with
  | [], _ => Some s
  | a :: p', b :: s' => if (a =? b)%N then strip_prefix p' s' else None
  | _ :: _, [] => None
  end.

(** What was consumed between [s] and its suffix [rest]. *)
Definition consumed (s rest : Text) : Text :=
  firstn (List.length s - List.length rest) s.

(** Greedy repetition with backtracking: take one more character when the
    class allows and the continuation then succeeds, else stop here. *)
Fixpoint star_match (cls : CodePoint -> bool) (s : Text)
    (k : Text -> option captures) : option captures :=
  match s with
  | c :: s' =>
      if cls c then
        match star_match cls s' k with
        | Some r => Some r
        | None => k s
        end
      else k s
  | [] => k s
  end.

(** Backtracking matcher in continuation-passing style: [k] receives the
    unconsumed input and the groups captured so far. *)
Fixpoint rmatch (r : regex) (s : Text) (caps : captures)
    (k : Text -> captures -> option captures) : option captures :=
  match r with
  | Lit p =>
      match strip_prefix p s with
      | Some rest => k rest caps
      | None => None
      end
  | Alt r1 r2 =>
      match rmatch r1 s caps k with
      | Some res => Some res
      | None => rmatch r2 s caps k
      end
  | Cat r1 r2 => rmatch r1 s caps (fun s1 caps1 => rmatch r2 s1 caps1 k)
  | Star cls => star_match cls s (fun rest => k rest caps)
  | Plus cls =>
      match s with
      | c :: s' =>
          if cls c then star_match cls s' (fun rest => k rest caps) else None
      | [] => None
      end
  | Group n r1 =>
      rmatch r1 s caps (fun rest caps1 => k rest ((n, consumed s rest) :: caps1))
  end.

(** [Regex.find]: the match at the leftmost position where one exists. *)
Fixpoint find (r : regex) (s : Text) : option captures :=
  match rmatch r s [] (fun _ caps => Some caps) with
  | Some caps => Some caps
  | None =>
      match s with
      | _ :: s' => find r s'
      | [] => None
      end
  end.

(** [String.replace(old, "")] for a one-character [old], given as the class
    of that character. *)
Definition remove_char (cls : CodePoint -> bool) (s : Text) : Text :=
  filter (fun c => negb (cls c)) s.

(** Value of a string of the digits [0] to [9], most significant first. *)
Fixpoint decimal_value (acc : Z) (s : Text) : Z :=
  match s with
  | [] => acc
  | c :: s' => decimal_value (10 * acc + (Z.of_N c - 48)) s'
  end.

(** Kotlin's [String.toDoubleOrNull] on the strings [extractAmount] gives it.
    After the two [replace] calls only decimal digits are left (lemma
    [cleanAmount_digits] below).  On a non-empty string of the digits [0]
    to [9] the result is the nearest binary64 value; on the empty string,
    and on a string with a digit of another script, which [parseDouble]
    refuses, it is [null].  Signs, exponents, hexadecimal and the words
    [NaN] and [Infinity] never reach the function here and are outside this
    model, which answers [None]. *)
Definition toDoubleOrNull (s : Text) : option double :=
  match s with
  | [] => None
  | _ :: _ =>
      if forallb is_ascii_digit s then Some (double_of_Z (decimal_value 0 s))
      else None
  end.

(** ** The sensor: [JagoanListenerService] *)

Definition JAGO_PACKAGE : string := "com.jago.digitalBanking".

(** [DEBOUNCE_TIME = 5000L], in milliseconds. *)
Definition DEBOUNCE_TIME : Z := 5000.

(** The pattern [(IDR|Rp)\s*([\d.,]+)]; [amount_tail] is what follows the
    marker. *)
Definition amount_tail : regex :=
  Cat (Star is_space) (Group 2 (Plus is_amount_char)).

Definition amount_pattern : regex :=
  Cat (Group 1 (Alt (Lit (text_of_string "IDR")) (Lit (text_of_string "Rp"))))
      amount_tail.

Definition extractAmount (text : Text) : option double :=
  match find amount_pattern text with
  | Some caps =>
      let amountString := group_value 2 caps in
      let cleanAmount :=
        remove_char is_comma (remove_char is_dot amountString) in
      toDoubleOrNull cleanAmount
  | None => None
  end.

(** A Kotlin [Long]: 64 bits, two's complement, silent wrap-around. *)
Definition wrap64 (z : Z) : Z := (z + 2 ^ 63) mod 2 ^ 64 - 2 ^ 63.

(** What the service reads of a [StatusBarNotification]: the posting
    package and the two extras, which may be absent.  A package name is
    made of letters, digits, underscores and dots below 128. *)
Record StatusBarNotification : Type := {
  packageName : string;
  android_title : option Text;
  android_text : option Text
}.

(** [processedTransactions]: pairs of (time, amount), oldest first. *)
Definition Window : Type := list (Z * double).

(** Observable actions of the service: the [Log.d] lines and the call of
    [sendToServer]. *)
Inductive SensorEffect : Type :=
| LogJagoReceived
| LogTitle (title : Text)
| LogText (text : Text)
| LogDuplicate (amount : double)
| LogAmountExtracted (amount : double)
| LogNoAmount
| SendToServer (amount : double).

(** The predicate of [removeAll]: the entry is older than the window. *)
Definition older_than_window (currentTime : Z) (p : Z * double) : bool :=
  wrap64 (currentTime - fst p) >? DEBOUNCE_TIME.

(** [processedTransactions.removeAll { (time, _) -> currentTime - time >
    DEBOUNCE_TIME }]: what is left of the list. *)
Definition removeOld (currentTime : Z) (processedTransactions : Window)
    : Window :=
  filter (fun p => negb (older_than_window currentTime p))
         processedTransactions.

(** [processedTransactions.any { (_, storedAmount) -> storedAmount ==
    amount }] *)
Definition anySameAmount (amount : double) (processedTransactions : Window)
    : bool :=
  existsb (fun p => double_eqb (snd p) amount) processedTransactions.

(** [extras.getString("android.title") ?: ""] and the like. *)
Definition orEmpty (s : option Text) : Text :=
  match s with
  | Some s => s
  | None => []
  end.

(** The three [Log.d] lines before the extraction. *)
Definition arrival_logs (sbn : StatusBarNotification) : list SensorEffect :=
  [LogJagoReceived; LogTitle (orEmpty (android_title sbn));
   LogText (orEmpty (android_text sbn))].

Definition onNotificationPosted (sbn : option StatusBarNotification)
    (currentTime : Z) (processedTransactions : Window)
    : Window * list SensorEffect :=
  match sbn with
  | None => (processedTransactions, [])
  | Some sbn =>
      if negb (packageName sbn =? JAGO_PACKAGE) then (processedTransactions, [])
      else
        let text := orEmpty (android_text sbn) in
        match extractAmount text with
        | Some amount =>
            let kept := removeOld currentTime processedTransactions in
            let isDuplicate := anySameAmount amount kept in
            if isDuplicate then (kept, arrival_logs sbn ++ [LogDuplicate amount])
            else (kept ++ [(currentTime, amount)],
                  arrival_logs sbn
                  ++ [LogAmountExtracted amount; SendToServer amount])
        | None => (processedTransactions, arrival_logs sbn ++ [LogNoAmount])
        end
  end.

(** A notification of the Jago application whose text carries [amount]. *)
Definition carries (sbn : StatusBarNotification) (amount : double) : Prop :=
  packageName sbn = JAGO_PACKAGE
  /\ extractAmount (orEmpty (android_text sbn)) = Some amount.

(** ** The leftmost match, left to right

    What [find] computes on the sensor's pattern, without backtracking: at
    each position in turn, a marker, the white space after it, and the
    longest run of the class [[\d.,]]. *)

Fixpoint skip_while (cls : CodePoint -> bool) (s : Text) : Text :=
  match s with
  | c :: s' => if cls c then skip_while cls s' else s
  | [] => s
  end.

Fixpoint take_while (cls : CodePoint -> bool) (s : Text) : Text :=
  match s with
  | c :: s' => if cls c then c :: take_while cls s' else []
  | [] => []
  end.

Definition after_marker (s : Text) : option Text :=
  match strip_prefix (text_of_string "IDR") s with
  | Some rest => Some rest
  | None => strip_prefix (text_of_string "Rp") s
  end.

(** The run of a marker/run pair that starts exactly here. *)
Definition pair_here (s : Text) : option Text :=
  match after_marker s with
  | Some rest =>
      match take_while is_amount_char (skip_while is_space rest) with
      | [] => None
      | tok => Some tok
      end
  | None => None
  end.

Fixpoint first_pair (s : Text) : option Text :=
  match pair_here s with
  | Some tok => Some tok
  | None =>
      match s with
      | _ :: s' => first_pair s'
      | [] => None
      end
  end.

Definition strip_separators (tok : Text) : Text :=
  remove_char (fun c => is_dot c || is_comma c) tok.

(** ** Amount extraction in the words of the specification

    "If the text contains a currency marker token (IDR or Rp) followed by a
    numeric token, the extractor takes the first such match, strips the
    separators, and parses the remainder as a decimal number; if no
    marker/number pair exists, it returns no amount."  A numeric token is
    read as a number written with the digits [0] to [9] and the two
    separators: a run of these characters that holds at least one digit.
    It follows the marker directly or after white space. *)

Definition is_number_char (c : CodePoint) : bool :=
  is_ascii_digit c || is_dot c || is_comma c.

Definition numeric_token (s : Text) : option Text :=
  let run := take_while is_number_char s in
  if existsb is_ascii_digit run then Some run else None.

Definition number_after_marker (s : Text) : option Text :=
  match after_marker s with
  | Some rest => numeric_token (skip_while is_space rest)
  | None => None
  end.

Fixpoint first_marker_number_pair (s : Text) : option Text :=
  match number_after_marker s with
  | Some tok => Some tok
  | None =>
      match s with
      | _ :: s' => first_marker_number_pair s'
      | [] => None
      end
  end.

Definition extractAmount_spec (text : Text) : option double :=
  match first_marker_number_pair text with
  | Some tok =>
      Some (double_of_Z (decimal_value 0 (filter is_ascii_digit tok)))
  | None => None
  end.

(** ** The contract of the extraction, stated on the text *)

Definition is_marker (m : Text) : Prop :=
  m = text_of_string "IDR" \/ m = text_of_string "Rp".

(** A marker/run pair starts the text: a marker, white space or none, and a
    character of the class [[\d.,]]. *)
Definition pair_starts (s : Text) : Prop :=
  exists (marker ws : Text) (c : CodePoint) (rest : Text),
    is_marker marker
    /\ forallb is_space ws = true
    /\ is_amount_char c = true
    /\ s = marker ++ ws ++ c :: rest.

(** The run stops here: the text ends, or goes on outside the class. *)
Definition run_ends (rest : Text) : Prop :=
  match rest with
  | [] => True
  | c :: _ => is_amount_char c = false
  end.

(** [leftmost_pair text found]: [found] is the run of the first marker/run
    pair of [text], the longest run after the leftmost marker that has one;
    it is [None] when no position of [text] starts a pair. *)
Inductive leftmost_pair : Text -> option Text -> Prop :=
| leftmost_pair_at (pre marker ws run rest : Text) :
    is_marker marker ->
    forallb is_space ws = true ->
    run <> [] ->
    forallb is_amount_char run = true ->
    run_ends rest ->
    (forall i : nat,
        (i < List.length pre)%nat ->
        ~ pair_starts (skipn i (pre ++ marker ++ ws ++ run ++ rest))) ->
    leftmost_pair (pre ++ marker ++ ws ++ run ++ rest) (Some run)
| leftmost_pair_none (text : Text) :
    (forall i : nat, ~ pair_starts (skipn i text)) ->
    leftmost_pair text None.

(** The decimal digit a character stands for, as the constructor of the
    standard library's numerals. *)
Definition decimal_digit (c : CodePoint)
    : option (Decimal.uint -> Decimal.uint) :=
  match c with
  | 48 => Some Decimal.D0
  | 49 => Some Decimal.D1
  | 50 => Some Decimal.D2
  | 51 => Some Decimal.D3
  | 52 => Some Decimal.D4
  | 53 => Some Decimal.D5
  | 54 => Some Decimal.D6
  | 55 => Some Decimal.D7
  | 56 => Some Decimal.D8
  | 57 => Some Decimal.D9
  | _ => None
  end%N.

(** The numeral a text of the digits [0] to [9] spells. *)
Fixpoint numeral (s : Text) : option Decimal.uint :=
  match s with
  | [] => Some Decimal.Nil
  | c :: s' =>
      match decimal_digit c, numeral s' with
      | Some d, Some u => Some (d u)
      | _, _ => None
      end
  end.

(** The amount a string of decimal digits spells: the whole number of that
    numeral as a binary64 value; none when there is no digit, or a digit of
    another script than [0] to [9]. *)
Definition amount_spelled (digits : Text) : option double :=
  match digits with
  | [] => None
  | _ :: _ => option_map (fun u => double_of_Z (Z.of_uint u)) (numeral digits)
  end.

(** ** JavaScript values of the server *)

(** A value of the parsed JSON body.  [JsUndefined] is a missing field.
    Objects and arrays carry no content: the server only asks whether the
    value is truthy and what [typeof] says. *)
Inductive JsValue : Type :=
| JsUndefined
| JsNull
| JsBool (b : bool)
| JsNumber (x : double)
| JsString (s : string)
| JsObject
| JsArray.

(** [!!v] *)
Definition truthy (v : JsValue) : bool :=
  match v with
  | JsUndefined | JsNull => false
  | JsBool b => b
  | JsNumber x => negb (is_zero x) && negb (is_nan x)
  | JsString s => negb (s =? "")
  | JsObject | JsArray => true
  end.

Definition typeof (v : JsValue) : string :=
  match v with
  | JsUndefined => "undefined"
  | JsNull => "object"
  | JsBool _ => "boolean"
  | JsNumber _ => "number"
  | JsString _ => "string"
  | JsObject | JsArray => "object"
  end.

(** [Number.prototype.toString] and template interpolation of an integer
    (a [Date.now()] or a Telegram chat id, both far below 2^53). *)
Definition int_toString (z : Z) : string :=
  DecimalString.NilZero.string_of_int (Z.to_int z).

(** ** node-cache, as the server uses it

    [new NodeCache({ stdTTL: 3600 })] with the library's defaults
    ([deleteOnExpire], [checkperiod: 600]).  The library keeps one plain
    object [data] from key to [{ t, v }], [t] being the time of expiry in
    milliseconds.  The keys of the server are strings that start with
    [txn_], so the enumeration order of [Object.keys(data)] is the order in
    which the keys were first set: an association list in that order. *)

Definition stdTTL : Z := 3600.

(** The value the webhook stores. *)
Record Transaction : Type := {
  amount : JsValue;
  timestamp : Z
}.

(** [_wrap]: the stored value and its time of expiry. *)
Record Wrapped : Type := {
  t : Z;
  v : Transaction
}.

Definition Cache : Type := list (string * Wrapped).

Fixpoint lookup (key : string) (data : Cache) : option Wrapped :=
  match data with
  | [] => None
  | (k, d) :: data' => if k =? key then Some d else lookup key data'
  end.

(** [data[key] = d]: an existing key keeps its place, a new one goes last. *)
Fixpoint assign (key : string) (d : Wrapped) (data : Cache) : Cache :=
  match data with
  | [] => [(key, d)]
  | (k, d') :: data' =>
      if k =? key then (k, d) :: data' else (k, d') :: assign key d data'
  end.

(** [keys()]: [Object.keys(this.data)], expired entries included. *)
Definition cache_keys (data : Cache) : list string := map fst data.

(** [del(key)] *)
Definition cache_del (key : string) (data : Cache) : Cache :=
  filter (fun kd => negb (fst kd =? key)) data.

(** [set(key, value)] with the standard TTL:
    [t = Date.now() + stdTTL * 1000]. *)
Definition cache_set (now : Z) (key : string) (value : Transaction)
    (data : Cache) : Cache :=
  assign key {| t := now + stdTTL * 1000; v := value |} data.

(** The test of [_check]: [data.t !== 0 && data.t < Date.now()]. *)
Definition expired (now : Z) (d : Wrapped) : bool :=
  (negb (t d =? 0) && (t d <? now))%Z.

(** [get(key)]: the value of a live entry; an expired entry is deleted and
    [undefined] returned. *)
Definition cache_get (now : Z) (key : string) (data : Cache)
    : option Transaction * Cache :=
  match lookup key data with
  | Some d =>
      if expired now d then (None, cache_del key data) else (Some (v d), data)
  | None => (None, data)
  end.

(** [_checkData]: the periodic sweep, run by a timer every 600 seconds. *)
Definition checkData (now : Z) (data : Cache) : Cache :=
  filter (fun kd => negb (expired now (snd kd))) data.

(** ** The server: [index.js]

    A handler is modelled from its first statement to its last as one step:
    - the clock is read once, [now] standing for every [Date.now()] and
      [new Date()] of the run (the calls of one run are milliseconds apart);
    - no other handler runs in between.  JavaScript runs one handler at a
      time, but a handler gives way at each [await]; a second message that
      arrives while the first is waiting for Telegram or Notion is outside
      this model;
    - Telegram and Notion are collaborators that accept or refuse a call;
      what they answer is given beforehand in the [script] of the state. *)

(** The environment variables the handlers read. *)
Record Config : Type := {
  MY_CHAT_ID : string;
  NOTION_LIVING_COST_PAGE_ID : option string
}.

(** The texts the bot sends, with the values interpolated in them.
    - [MsgNewExpense]: "Jagoan! Ada pengeluaran baru sebesar ... Untuk
      keperluan apa?"
    - [MsgNothingPending]: "Tidak ada transaksi yang menunggu konfirmasi."
    - [MsgNotFoundOrExpired]: "Transaksi tidak ditemukan atau sudah
      kadaluarsa."
    - [MsgSaving]: "Menyimpan transaksi ke Notion..."
    - [MsgSaved]: "Transaksi berhasil disimpan!" with name, amount, date
    - [MsgFailure]: "Terjadi kesalahan saat menyimpan transaksi. Silakan
      coba lagi." *)
Inductive Message : Type :=
| MsgNewExpense (amount : JsValue)
| MsgNothingPending
| MsgNotFoundOrExpired
| MsgSaving
| MsgSaved (name : string) (amount : JsValue) (now : Z)
| MsgFailure.

Inductive LogLine : Type :=
| LogTransactionReceived (transactionId : string) (amount : JsValue)
| LogWebhookError
| LogUnauthorizedChat (chat : string)
| LogSavedToNotion (transactionId : string)
| LogNotionError
| LogTelegramError.

(** What the server does to the outside, in order.  [ok] says whether the
    collaborator accepted the call; a refused call throws. *)
Inductive Event : Type :=
| TelegramSend (chat : string) (m : Message) (ok : bool)
| NotionCreate (name : string) (amount : JsValue) (day : Z)
    (category : option string) (ok : bool)
| HttpResponse (status : Z) (success : bool) (transactionId : option string)
| Console (l : LogLine).

(** The state a handler runs in: the cache, the answers the collaborators
    will give to the next calls (an exhausted script answers yes), and the
    events so far. *)
Record World : Type := {
  cache : Cache;
  script : list bool;
  trace : list Event
}.

Inductive Res (A : Type) : Type :=
| Ok (a : A)
| Throw.

Arguments Ok {A} a.
Arguments Throw {A}.

(** Handlers are state transformers that may throw. *)
Definition M (A : Type) : Type := World -> Res A * World.

Definition ret {A : Type} (a : A) : M A := fun w => (Ok a, w).

Definition bind {A B : Type} (m : M A) (k : A -> M B) : M B :=
  fun w =>
    match m w with
    | (Ok a, w') => k a w'
    | (Throw, w') => (Throw, w')
    end.

Notation "x <- m ;; k" := (bind m (fun x => k))
  (at level 61, m at next level, right associativity).
Notation "m ;; k" := (bind m (fun _ => k))
  (at level 61, right associativity).

(** [try { m } catch (error) { h }] *)
Definition try_catch {A : Type} (m : M A) (h : M A) : M A :=
  fun w =>
    match m w with
    | (Ok a, w') => (Ok a, w')
    | (Throw, w') => h w'
    end.

Definition emit (e : Event) : M unit :=
  fun w => (Ok tt, {| cache := cache w; script := script w;
                      trace := trace w ++ [e] |}).

(** A call to a collaborator: the next answer of the script decides. *)
Definition next (answers : list bool) : bool :=
  match answers with
  | [] => true
  | b :: _ => b
  end.

Definition external (call : bool -> Event) : M unit :=
  fun w =>
    let ok := next (script w) in
    let w' := {| cache := cache w; script := tl (script w);
                 trace := trace w ++ [call ok] |} in
    if ok then (Ok tt, w') else (Throw, w').

Definition with_cache {A : Type} (f : Cache -> A * Cache) : M A :=
  fun w =>
    let (a, data) := f (cache w) in
    (Ok a, {| cache := data; script := script w; trace := trace w |}).

Definition throw {A : Type} : M A := fun w => (Throw, w).

(** [`txn_${Date.now()}_${Math.random().toString(36).substr(2, 9)}`]; [rnd]
    is the random suffix. *)
Definition generateTransactionId (now : Z) (rnd : string) : string :=
  ("txn_" ++ int_toString now ++ "_" ++ rnd)%string.

(** [new Date().toISOString().split("T")[0]]: the UTC calendar day, as the
    number of days since the epoch. *)
Definition today (now : Z) : Z := now / 86400000.

(** The relation to the category page is added when the identifier is set
    and not the empty string. *)
Definition category (cfg : Config) : option string :=
  match NOTION_LIVING_COST_PAGE_ID cfg with
  | Some id => if id =? "" then None else Some id
  | None => None
  end.

Definition createNotionTransaction (cfg : Config) (now : Z) (name : string)
    (amount : JsValue) : M unit :=
  try_catch
    (external (NotionCreate name amount (today now) (category cfg)))
    (emit (Console LogNotionError) ;; throw).

(** [POST /webhook/transaction]: the statements of the [try] block after
    [const { amount } = req.body]. *)
Definition webhook_try (cfg : Config) (now : Z) (rnd : string)
    (amount : JsValue) : M unit :=
  if negb (truthy amount) || negb (typeof amount =? "number") then
    emit (HttpResponse 400 false None)
  else
    let transactionId := generateTransactionId now rnd in
    with_cache (fun data =>
      (tt, cache_set now transactionId
             {| amount := amount; timestamp := now |} data)) ;;
    external (TelegramSend (MY_CHAT_ID cfg) (MsgNewExpense amount)) ;;
    emit (Console (LogTransactionReceived transactionId amount)) ;;
    emit (HttpResponse 200 true (Some transactionId)).

(** The [catch] block of the route. *)
Definition webhook_catch : M unit :=
  emit (Console LogWebhookError) ;;
  emit (HttpResponse 500 false None).

(** The route on a request whose body was parsed; [amount] is
    [req.body.amount], with [JsUndefined] for a body without the field. *)
Definition webhook (cfg : Config) (now : Z) (rnd : string) (amount : JsValue)
    : M unit :=
  try_catch (webhook_try cfg now rnd amount) webhook_catch.

(** [req.body] as the route finds it.  [express.json()] sets it to the
    value of a JSON body, an object or an array, of which the route reads
    the property [amount].  A request it does not parse, of another content
    type or without a body, is left with an empty object by Express 4 and
    with [undefined] by Express 5. *)
Inductive RequestBody : Type :=
| BodyUndefined
| BodyParsed (amount : JsValue).

(** [const { amount } = req.body]: a [TypeError] when [req.body] is
    [undefined]. *)
Definition destructure_amount (body : RequestBody) : M JsValue :=
  match body with
  | BodyUndefined => throw
  | BodyParsed amount => ret amount
  end.

(** The route on any request that reaches it. *)
Definition webhook_request (cfg : Config) (now : Z) (rnd : string)
    (body : RequestBody) : M unit :=
  try_catch
    (amount <- destructure_amount body ;;
     webhook_try cfg now rnd amount)
    webhook_catch.

(** What the text handler reads of the Telegraf context. *)
Record Context : Type := {
  chat_id : Z;
  message_text : string
}.

(** [ctx.reply(m)] *)
Definition reply (ctx : Context) (m : Message) : M unit :=
  external (TelegramSend (int_toString (chat_id ctx)) m).

(** [bot.on("text", ...)].  [MsgSaved] carries [now], from which the local
    date of the confirmation is printed. *)
Definition onText (cfg : Config) (now : Z) (ctx : Context) : M unit :=
  try_catch
    (if negb (int_toString (chat_id ctx) =? MY_CHAT_ID cfg) then
       emit (Console (LogUnauthorizedChat (int_toString (chat_id ctx))))
     else
       let userReply := message_text ctx in
       cachedKeys <- with_cache (fun data => (cache_keys data, data)) ;;
       match cachedKeys with
       | [] => reply ctx MsgNothingPending
       | transactionId :: _ =>
           transaction <- with_cache (cache_get now transactionId) ;;
           match transaction with
           | None => reply ctx MsgNotFoundOrExpired
           | Some transaction =>
               reply ctx MsgSaving ;;
               createNotionTransaction cfg now userReply
                 (amount transaction) ;;
               with_cache (fun data => (tt, cache_del transactionId data)) ;;
               reply ctx (MsgSaved userReply (amount transaction) now) ;;
               emit (Console (LogSavedToNotion transactionId))
           end
       end)
    (emit (Console LogTelegramError) ;;
     reply ctx MsgFailure).

(** A handler run from a cache, with the answers of the collaborators. *)
Definition start (data : Cache) (answers : list bool) : World :=
  {| cache := data; script := answers; trace := [] |}.

Definition run (h : M unit) (w : World) : World := snd (h w).

(** ** Observations on a trace *)

(** The records the ledger accepted: name and amount. *)
Definition ledger_writes (tr : list Event) : list (string * JsValue) :=
  flat_map (fun e =>
    match e with
    | NotionCreate name a _ _ true => [(name, a)]
    | _ => []
    end) tr.

(** Every call of the ledger's create operation, accepted or not. *)
Definition ledger_calls (tr : list Event) : list (string * JsValue) :=
  flat_map (fun e =>
    match e with
    | NotionCreate name a _ _ _ => [(name, a)]
    | _ => []
    end) tr.

(** Every message handed to Telegram, delivered or not. *)
Definition telegram_calls (tr : list Event) : list (string * Message) :=
  flat_map (fun e =>
    match e with
    | TelegramSend chat m _ => [(chat, m)]
    | _ => []
    end) tr.

Definition http_responses (tr : list Event) : list Z :=
  flat_map (fun e =>
    match e with
    | HttpResponse status _ _ => [status]
    | _ => []
    end) tr.

(** ** From the sensor to the server *)

(** [sendToServer]: the body [{ "amount": amount }] of the POST request.
    [JSONObject.put(String, double)] refuses a value that is not finite; the
    exception is caught and logged, and nothing is sent. *)
Definition sendToServer (amount : double) : option JsValue :=
  if is_finite amount then Some (JsNumber amount) else None.

(** The server's handling of what one sensor call emitted, each request
    arriving at server time [now] and drawing the suffix [rnd]. *)
Definition deliver (cfg : Config) (now : Z) (rnd : string)
    (w : World) (e : SensorEffect) : World :=
  match e with
  | SendToServer a =>
      match sendToServer a with
      | Some body => run (webhook cfg now rnd body) w
      | None => w
      end
  | _ => w
  end.

(** One notification through the whole chain. *)
Definition submit (cfg : Config) (sbn : option StatusBarNotification)
    (currentTime now : Z) (rnd : string) (st : Window * World)
    : Window * World :=
  let (window, effs) := onNotificationPosted sbn currentTime (fst st) in
  (window, fold_left (deliver cfg now rnd) effs (snd st)).

(** ** Vocabulary of the statements *)

Definition authorized (cfg : Config) (ctx : Context) : Prop :=
  int_toString (chat_id ctx) = MY_CHAT_ID cfg.

(** The chat a reply goes to. *)
Definition chat (ctx : Context) : string := int_toString (chat_id ctx).

(** What the [catch] block of the text handler adds to the trace. *)
Definition recovery (ctx : Context) (answers : list bool) : list Event :=
  [Console LogTelegramError; TelegramSend (chat ctx) MsgFailure (next answers)].

(** Example data: one authorised chat, two pending transactions. *)
Definition cfg0 : Config :=
  {| MY_CHAT_ID := "42"; NOTION_LIVING_COST_PAGE_ID := None |}.

Definition owner (text : string) : Context :=
  {| chat_id := 42; message_text := text |}.

Definition stranger (text : string) : Context :=
  {| chat_id := 7; message_text := text |}.

Definition rupiah (n : Z) : JsValue := JsNumber (double_of_Z n).

(** The cache after the webhook received 10000 at time 1000 and 20000 at
    time 2000000. *)
Definition P1 : string * Wrapped :=
  ("txn_1000_abc",
   {| t := 3601000; v := {| amount := rupiah 10000; timestamp := 1000 |} |}).

Definition P2 : string * Wrapped :=
  ("txn_2000000_def",
   {| t := 5600000;
      v := {| amount := rupiah 20000; timestamp := 2000000 |} |}).

(** The amounts the webhook refuses: a missing field, a number equal to
    zero (of either sign), [NaN], and every value that is not of type
    number. *)
Definition invalid_amount (a : JsValue) : Prop :=
  a = JsUndefined
  \/ (exists x, a = JsNumber x /\ (is_zero x = true \/ is_nan x = true))
  \/ typeof a <> "number".

(** The text handler run on each reply in turn; a reply is the time it
    arrives at and its Telegraf context. *)
Definition replies (cfg : Config) (rs : list (Z * Context)) (w : World)
    : World :=
  fold_left (fun w r => run (onText cfg (fst r) (snd r)) w) rs w.

(** Telegram and Notion accept every call still to come. *)
Definition all_accepted (answers : list bool) : Prop :=
  Forall (fun b => b = true) answers.

(** The reply meets the entry before the entry expires. *)
Definition meets_live (p : (Z * Context) * (string * Wrapped)) : Prop :=
  expired (fst (fst p)) (snd (snd p)) = false.

(** What the ledger receives when the reply resolves the entry. *)
Definition resolution (p : (Z * Context) * (string * Wrapped))
    : string * JsValue :=
  (message_text (snd (fst p)), amount (v (snd (snd p)))).

(** The entry the webhook stores for an amount that arrives at [ins]. *)
Definition stored_at (ins : Z) (a : JsValue) : Wrapped :=
  {| t := ins + stdTTL * 1000; v := {| amount := a; timestamp := ins |} |}.

(** An example notification: the bank application reports a payment of ten
    thousand rupiah. *)
Definition payment_10000 : StatusBarNotification :=
  {| packageName := "com.jago.digitalBanking";
     android_title := Some (text_of_string "Pembayaran berhasil");
     android_text := Some (text_of_string "Kamu membayar Rp 10.000 ke Warung")
  |}.

(** ** The rest of the sensor and of the server *)

(** The amounts handed to [sendToServer]. *)
Definition sent_amounts (effs : list SensorEffect) : list double :=
  flat_map (fun e => match e with SendToServer a => [a] | _ => [] end) effs.

(** The service called on notifications in turn, each with the time the
    clock shows when it is posted. *)
Fixpoint posted_all (events : list (option StatusBarNotification * Z))
    (processedTransactions : Window) : Window * list SensorEffect :=
  match events with
  | [] => (processedTransactions, [])
  | (sbn, currentTime) :: events' =>
      let (window1, effs1) :=
        onNotificationPosted sbn currentTime processedTransactions in
      let (window2, effs2) := posted_all events' window1 in
      (window2, effs1 ++ effs2)
  end.

(** What the service forwarded during such a run, each amount with the time
    of the notification that carried it. *)
Fixpoint sent_log (events : list (option StatusBarNotification * Z))
    (processedTransactions : Window) : list (Z * double) :=
  match events with
  | [] => []
  | (sbn, currentTime) :: events' =>
      let (window1, effs1) :=
        onNotificationPosted sbn currentTime processedTransactions in
      map (pair currentTime) (sent_amounts effs1) ++ sent_log events' window1
  end.

(** Readings of [System.currentTimeMillis()] that never go back: each is a
    [Long] and at least the reading before it, the first at least [last]. *)
Fixpoint clock_ok (last : Z) (times : list Z) : Prop :=
  match times with
  | [] => True
  | time :: times' => last <= time < 2 ^ 63 /\ clock_ok time times'
  end.

(** Two forwarded amounts, the second later in the run: when they are equal
    they are more than [DEBOUNCE_TIME] apart. *)
Definition well_spaced (p q : Z * double) : Prop :=
  double_eqb (snd p) (snd q) = true -> fst q - fst p > DEBOUNCE_TIME.

(** No two entries of the window hold the same amount. *)
Definition distinct_amounts (window : Window) : Prop :=
  ForallOrdPairs (fun p q => double_eqb (snd p) (snd q) = false) window.

(** [GET /health]: the body of the response.  [timestamp] is the clock, which
    the handler prints in ISO format; [cachedTransactions] is
    [cache.keys().length]. *)
Record Health : Type := {
  health_status : string;
  health_timestamp : Z;
  cachedTransactions : nat
}.

Definition health (now : Z) (data : Cache) : Health :=
  {| health_status := "ok";
     health_timestamp := now;
     cachedTransactions := List.length (cache_keys data) |}.

(** The test of the webhook on [req.body.amount], as the handler writes it. *)
Definition refused_by_webhook (a : JsValue) : bool :=
  negb (truthy a) || negb (typeof a =? "number")%string.

(** Neither [I] nor [R]: a character no marker starts with. *)
Definition not_marker_start (c : CodePoint) : bool :=
  negb (c =? 73)%N && negb (c =? 82)%N.

(** The character [_] that separates the parts of a transaction id. *)
Definition is_underscore (c : ascii) : bool := Ascii.eqb c "_".

Fixpoint all_chars (cls : ascii -> bool) (s : string) : bool :=
  match s with
  | EmptyString => true
  | String c s' => cls c && all_chars cls s'
  end.

(** An example notification whose amount is zero. *)
Definition payment_0 : StatusBarNotification :=
  {| packageName := "com.jago.digitalBanking";
     android_title := Some (text_of_string "Pembayaran berhasil");
     android_text := Some (text_of_string "Biaya admin Rp 0") |}.

(** Whether a reply at [now] makes the text handler delete the first key of
    the cache: the sender is the configured chat and the first entry has
    expired, or is live and both the announcement and the write succeed. *)
Definition reply_deletes (cfg : Config) (now : Z) (ctx : Context) (w : World)
    : bool :=
  match cache w with
  | [] => false
  | (_, d) :: _ =>
      (int_toString (chat_id ctx) =? MY_CHAT_ID cfg)%string
      && (expired now d || (next (script w) && next (tl (script w))))
  end.

(** The reply meets the entry before the entry expires, as a test. *)
Definition meets_liveb (p : (Z * Context) * (string * Wrapped)) : bool :=
  negb (expired (fst (fst p)) (snd (snd p))).

(** ** Tactics *)

(** Split a conjunction into its parts, and nothing else. *)
Ltac conj_split := repeat match goal with |- _ /\ _ => split end.

(** Write the two markers as lists of code points. *)
Ltac markers :=
  change (text_of_string "IDR") with [73; 68; 82]%N in *;
  change (text_of_string "Rp") with [82; 112]%N in *.

(** Evaluate a handler as far as the tests on the inputs allow. *)
Ltac handler_step :=
  cbn -[lookup cache_del cache_set expired int_toString String.eqb today
        category generateTransactionId truthy typeof next tl app].

Ltac run_handler :=
  unfold run, onText, webhook, webhook_try, webhook_catch,
    createNotionTransaction, reply, try_catch,
    bind, external, with_cache, emit, throw, ret, chat, cache_get;
  handler_step.

(** Close a path lemma: whether the last message went out changes the
    result of the handler, not the world it leaves. *)
Ltac finish_handler :=
  unfold recovery, chat; handler_step;
  repeat (match goal with
          | |- context [if next ?a then _ else _] => destruct (next a)
          end; handler_step);
  rewrite <- ?app_assoc; cbn [app]; reflexivity.

(** * Properties of the sensor *)

(** ** The character classes *)

Lemma in_ranges_bounds (c : CodePoint) (ranges : list (N * N)) :
  in_ranges c ranges = true ->
  exists lo hi : N, In (lo, hi) ranges /\ (lo <= c <= hi)%N.
Proof.
  unfold in_ranges; intros H.
  apply existsb_exists in H; destruct H as [[lo hi] [Hin H]].
  cbn [fst snd] in H; apply andb_true_iff in H; destruct H as [H1 H2].
  apply N.leb_le in H1, H2.
  exists lo, hi; split; [exact Hin | lia].
Qed.

Lemma in_ranges_outside (c : CodePoint) (ranges : list (N * N)) :
  Forall (fun r => (c < fst r \/ snd r < c)%N) ranges ->
  in_ranges c ranges = false.
Proof.
  unfold in_ranges.
  induction 1 as [| r ranges Hr _ IH]; cbn [existsb]; [reflexivity |].
  rewrite IH, orb_false_r.
  apply andb_false_iff.
  destruct Hr as [Hr | Hr]; [left | right]; apply N.leb_gt; exact Hr.
Qed.

(** Whether every range of one table lies apart from every range of the
    other. *)
Lemma ranges_apart (c : CodePoint) (rs1 rs2 : list (N * N)) :
  forallb (fun r1 =>
    forallb (fun r2 => (snd r1 <? fst r2)%N || (snd r2 <? fst r1)%N) rs2) rs1
  = true ->
  in_ranges c rs1 = true -> in_ranges c rs2 = false.
Proof.
  intros Happart H1.
  apply in_ranges_bounds in H1; destruct H1 as [lo [hi [Hin Hc]]].
  rewrite forallb_forall in Happart.
  pose proof (Happart _ Hin) as H; cbn [fst snd] in H.
  rewrite forallb_forall in H.
  apply in_ranges_outside, Forall_forall.
  intros [lo2 hi2] Hin2.
  pose proof (H _ Hin2) as H2; cbn [fst snd] in H2 |- *.
  apply orb_true_iff in H2; destruct H2 as [H2 | H2];
    apply N.ltb_lt in H2; lia.
Qed.

Lemma space_not_digit (c : CodePoint) : is_space c = true -> is_digit c = false.
Proof.
  unfold is_space, is_digit; apply ranges_apart.
  vm_compute; reflexivity.
Qed.

Lemma space_not_amount_char (c : CodePoint) :
  is_space c = true -> is_amount_char c = false.
Proof.
  intros H; unfold is_amount_char.
  rewrite (space_not_digit c H); cbn [orb].
  assert (Hsep : in_ranges c [(44, 46)]%N = false).
  { revert H; unfold is_space; apply ranges_apart; vm_compute; reflexivity. }
  unfold in_ranges in Hsep; cbn [existsb fst snd] in Hsep.
  rewrite orb_false_r in Hsep.
  unfold is_dot, is_comma.
  apply andb_false_iff in Hsep.
  apply orb_false_iff; split; apply N.eqb_neq;
    destruct Hsep as [Hsep | Hsep]; apply N.leb_gt in Hsep; lia.
Qed.

Lemma amount_char_not_space (c : CodePoint) :
  is_amount_char c = true -> is_space c = false.
Proof.
  intros H; destruct (is_space c) eqn:E; [| reflexivity].
  rewrite (space_not_amount_char c E) in H; discriminate.
Qed.

Lemma ascii_digit_is_digit (c : CodePoint) :
  is_ascii_digit c = true -> is_digit c = true.
Proof.
  unfold is_ascii_digit, is_digit, in_ranges, Nd; cbn [existsb fst snd].
  intros ->; reflexivity.
Qed.

Lemma digit_not_separator (c : CodePoint) :
  is_digit c = true -> is_dot c || is_comma c = false.
Proof.
  intros H.
  assert (Hsep : in_ranges c [(44, 46)]%N = false).
  { revert H; unfold is_digit; apply ranges_apart; vm_compute; reflexivity. }
  unfold in_ranges in Hsep; cbn [existsb fst snd] in Hsep.
  rewrite orb_false_r in Hsep.
  unfold is_dot, is_comma.
  apply andb_false_iff in Hsep.
  apply orb_false_iff; split; apply N.eqb_neq;
    destruct Hsep as [Hsep | Hsep]; apply N.leb_gt in Hsep; lia.
Qed.

(** ** The matcher on the sensor's pattern *)

(** A greedy run whose continuation always accepts takes the longest run. *)
Lemma star_match_longest (cls : CodePoint -> bool) (f : Text -> captures)
    (s : Text) :
  star_match cls s (fun rest => Some (f rest)) = Some (f (skip_while cls s)).
Proof.
  induction s as [| c s IH]; simpl; [reflexivity |].
  destruct (cls c); [rewrite IH |]; reflexivity.
Qed.

(** A greedy run never has to give characters back when the continuation
    refuses every input that starts inside the class. *)
Lemma star_match_no_backtrack (cls : CodePoint -> bool)
    (k : Text -> option captures) (s : Text) :
  (forall c rest, cls c = true -> k (c :: rest) = None) ->
  star_match cls s k = k (skip_while cls s).
Proof.
  intros Hk.
  induction s as [| c s IH]; simpl; [reflexivity |].
  destruct (cls c) eqn:Hc; [| reflexivity].
  rewrite IH.
  destruct (k (skip_while cls s)) eqn:Hr; [reflexivity |].
  apply Hk; exact Hc.
Qed.

Lemma take_skip (cls : CodePoint -> bool) (s : Text) :
  s = take_while cls s ++ skip_while cls s.
Proof.
  induction s as [| c s IH]; cbn [take_while skip_while]; [reflexivity |].
  destruct (cls c); cbn [app]; [f_equal; exact IH | reflexivity].
Qed.

Lemma consumed_run (cls : CodePoint -> bool) (s : Text) :
  consumed s (skip_while cls s) = take_while cls s.
Proof.
  unfold consumed.
  rewrite (take_skip cls s) at 1 3.
  rewrite length_app, Nat.add_sub.
  rewrite firstn_app, Nat.sub_diag, firstn_all; cbn [firstn].
  apply app_nil_r.
Qed.

Lemma markers_exclusive (s rest : Text) :
  strip_prefix (text_of_string "IDR") s = Some rest ->
  strip_prefix (text_of_string "Rp") s = None.
Proof.
  markers.
  destruct s as [| c s]; cbn [strip_prefix]; [discriminate |].
  destruct (N.eqb_spec 73 c) as [<- | _];
    [intros _; reflexivity | discriminate].
Qed.

Lemma amount_tail_spec (s : Text) (caps : captures) :
  option_map (group_value 2)
    (rmatch amount_tail s caps (fun _ c => Some c))
  = match take_while is_amount_char (skip_while is_space s) with
    | [] => None
    | tok => Some tok
    end.
Proof.
  unfold amount_tail; cbn [rmatch].
  rewrite star_match_no_backtrack.
  - destruct (skip_while is_space s) as [| c r]; [reflexivity |].
    cbn [take_while].
    destruct (is_amount_char c) eqn:Hc; [| reflexivity].
    rewrite (star_match_longest is_amount_char
               (fun rest => (2%nat, consumed (c :: r) rest) :: caps)).
    cbn [option_map group_value Nat.eqb].
    replace (skip_while is_amount_char r)
      with (skip_while is_amount_char (c :: r))
      by (cbn [skip_while]; rewrite Hc; reflexivity).
    rewrite consumed_run; cbn [take_while]; rewrite Hc; reflexivity.
  - intros c rest Hc.
    rewrite (space_not_amount_char c Hc); reflexivity.
Qed.

Lemma amount_pattern_here (s : Text) :
  option_map (group_value 2)
    (rmatch amount_pattern s [] (fun _ caps => Some caps))
  = pair_here s.
Proof.
  unfold pair_here, after_marker.
  unfold amount_pattern; cbn [rmatch].
  destruct (strip_prefix (text_of_string "IDR") s) as [rest |] eqn:Hidr.
  - rewrite (markers_exclusive s rest Hidr).
    rewrite <- (amount_tail_spec rest [(1%nat, consumed s rest)]).
    destruct (rmatch amount_tail rest [(1%nat, consumed s rest)]
                (fun _ c => Some c)); reflexivity.
  - destruct (strip_prefix (text_of_string "Rp") s) as [rest |];
      [| reflexivity].
    apply amount_tail_spec.
Qed.

(** [find] stops at the leftmost marker/run pair. *)
Lemma find_first_pair (s : Text) :
  option_map (group_value 2) (find amount_pattern s) = first_pair s.
Proof.
  induction s as [| c s IH].
  - cbn [find first_pair].
    rewrite <- (amount_pattern_here []).
    destruct (rmatch amount_pattern [] [] (fun _ caps => Some caps));
      reflexivity.
  - cbn [find first_pair].
    rewrite <- (amount_pattern_here (c :: s)).
    destruct (rmatch amount_pattern (c :: s) [] (fun _ caps => Some caps));
      [reflexivity | exact IH].
Qed.

Lemma remove_dot_then_comma (s : Text) :
  remove_char is_comma (remove_char is_dot s) = strip_separators s.
Proof.
  unfold strip_separators, remove_char.
  induction s as [| c s IH]; cbn [filter]; [reflexivity |].
  destruct (is_dot c); cbn [orb negb filter]; [exact IH |].
  destruct (is_comma c); cbn [negb]; rewrite IH; reflexivity.
Qed.

Lemma take_while_all (cls : CodePoint -> bool) (s : Text) :
  forallb cls (take_while cls s) = true.
Proof.
  induction s as [| c s IH]; cbn [take_while forallb]; [reflexivity |].
  destruct (cls c) eqn:Hc; cbn [forallb]; [rewrite Hc, IH |]; reflexivity.
Qed.

Lemma pair_here_chars (s tok : Text) :
  pair_here s = Some tok -> forallb is_amount_char tok = true.
Proof.
  unfold pair_here.
  destruct (after_marker s) as [rest |]; [| discriminate].
  pose proof (take_while_all is_amount_char (skip_while is_space rest)) as H.
  destruct (take_while is_amount_char (skip_while is_space rest));
    [discriminate |].
  intros E; injection E as <-; exact H.
Qed.

Lemma first_pair_chars (s tok : Text) :
  first_pair s = Some tok -> forallb is_amount_char tok = true.
Proof.
  induction s as [| c s IH]; cbn [first_pair].
  - destruct (pair_here []) eqn:E; [| discriminate].
    intros H; injection H as <-; exact (pair_here_chars _ _ E).
  - destruct (pair_here (c :: s)) eqn:E; [| exact IH].
    intros H; injection H as <-; exact (pair_here_chars _ _ E).
Qed.

(** After the two [replace] calls only decimal digits are left, those of the
    run in their order. *)
Lemma strip_separators_digits (tok : Text) :
  forallb is_amount_char tok = true ->
  strip_separators tok = filter is_digit tok.
Proof.
  unfold strip_separators, remove_char.
  induction tok as [| c tok IH]; cbn [forallb filter]; [reflexivity |].
  intros H; apply andb_true_iff in H; destruct H as [Hc Htok].
  rewrite (IH Htok).
  destruct (is_digit c) eqn:Hd.
  - rewrite (digit_not_separator c Hd); reflexivity.
  - unfold is_amount_char in Hc; rewrite Hd in Hc; cbn [orb] in Hc.
    rewrite Hc; reflexivity.
Qed.

Lemma cleanAmount_digits (tok : Text) :
  forallb is_amount_char tok = true ->
  forallb is_digit (strip_separators tok) = true.
Proof.
  intros H; rewrite (strip_separators_digits tok H).
  apply forallb_forall; intros c Hc.
  apply filter_In in Hc; destruct Hc as [_ Hc]; exact Hc.
Qed.

(** The extraction, read off the leftmost pair. *)
Lemma extractAmount_scan (text : Text) :
  extractAmount text
  = match first_pair text with
    | Some tok => toDoubleOrNull (filter is_digit tok)
    | None => None
    end.
Proof.
  unfold extractAmount.
  pose proof (find_first_pair text) as Hfind.
  destruct (find amount_pattern text) as [caps |];
    cbn [option_map] in Hfind; rewrite <- Hfind; [| reflexivity].
  rewrite remove_dot_then_comma.
  rewrite (strip_separators_digits _ (first_pair_chars _ _ (eq_sym Hfind))).
  reflexivity.
Qed.

(** ** Pairs and positions *)

Lemma strip_prefix_app (p s : Text) : strip_prefix p (p ++ s) = Some s.
Proof.
  induction p as [| a p IH]; cbn [strip_prefix app]; [reflexivity |].
  rewrite N.eqb_refl; exact IH.
Qed.

Lemma strip_prefix_split (p s rest : Text) :
  strip_prefix p s = Some rest -> s = p ++ rest.
Proof.
  revert s.
  induction p as [| a p IH]; intros s; cbn [strip_prefix app].
  - intros E; injection E as ->; reflexivity.
  - destruct s as [| b s]; [discriminate |].
    destruct (N.eqb_spec a b) as [<- | _]; [| discriminate].
    intros E; rewrite (IH _ E); reflexivity.
Qed.

Lemma after_marker_app (marker s : Text) :
  is_marker marker -> after_marker (marker ++ s) = Some s.
Proof.
  intros [-> | ->]; unfold after_marker.
  - rewrite strip_prefix_app; reflexivity.
  - rewrite (strip_prefix_app (text_of_string "Rp")).
    markers; cbn [strip_prefix app]; reflexivity.
Qed.

Lemma after_marker_split (s rest : Text) :
  after_marker s = Some rest ->
  exists marker : Text, is_marker marker /\ s = marker ++ rest.
Proof.
  unfold after_marker.
  destruct (strip_prefix (text_of_string "IDR") s) as [r |] eqn:E.
  - intros H; injection H as ->.
    exists (text_of_string "IDR"); split;
      [left; reflexivity | exact (strip_prefix_split _ _ _ E)].
  - intros H.
    exists (text_of_string "Rp"); split;
      [right; reflexivity | exact (strip_prefix_split _ _ _ H)].
Qed.

Lemma skip_while_app (cls : CodePoint -> bool) (s1 s2 : Text) :
  forallb cls s1 = true ->
  skip_while cls (s1 ++ s2) = skip_while cls s2.
Proof.
  induction s1 as [| c s1 IH]; intros H; [reflexivity |].
  cbn [forallb] in H; apply andb_true_iff in H; destruct H as [Hc Hs].
  cbn [app skip_while]; rewrite Hc; exact (IH Hs).
Qed.

Lemma take_while_app (cls : CodePoint -> bool) (s1 s2 : Text) :
  forallb cls s1 = true ->
  take_while cls s2 = [] ->
  take_while cls (s1 ++ s2) = s1.
Proof.
  intros H1 H2.
  induction s1 as [| c s1 IH]; [exact H2 |].
  cbn [forallb] in H1; apply andb_true_iff in H1; destruct H1 as [Hc Hs].
  cbn [app take_while]; rewrite Hc, (IH Hs); reflexivity.
Qed.

Lemma run_ends_take_while (rest : Text) :
  run_ends rest -> take_while is_amount_char rest = [].
Proof.
  destruct rest as [| c rest]; cbn [run_ends take_while]; [reflexivity |].
  intros ->; reflexivity.
Qed.

(** A pair written out is the pair the scan reads. *)
Lemma pair_here_written (marker ws run rest : Text) :
  is_marker marker ->
  forallb is_space ws = true ->
  run <> [] ->
  forallb is_amount_char run = true ->
  run_ends rest ->
  pair_here (marker ++ ws ++ run ++ rest) = Some run.
Proof.
  intros Hmarker Hws Hrun Hchars Hrest.
  unfold pair_here.
  rewrite (after_marker_app _ _ Hmarker), (skip_while_app _ _ _ Hws).
  destruct run as [| c run']; [contradiction |].
  pose proof Hchars as Hc.
  cbn [forallb] in Hc; apply andb_true_iff in Hc; destruct Hc as [Hc _].
  cbn [app skip_while]; rewrite (amount_char_not_space c Hc).
  change (c :: run' ++ rest) with ((c :: run') ++ rest).
  rewrite (take_while_app is_amount_char (c :: run') rest Hchars
             (run_ends_take_while rest Hrest)).
  reflexivity.
Qed.

(** Where the scan reads a pair, a pair starts. *)
Lemma pair_here_starts (s tok : Text) : pair_here s = Some tok -> pair_starts s.
Proof.
  unfold pair_here.
  destruct (after_marker s) as [rest |] eqn:Hafter; [| discriminate].
  apply after_marker_split in Hafter; destruct Hafter as [marker [Hm ->]].
  pose proof (take_skip is_space rest) as Hrest.
  pose proof (take_while_all is_space rest) as Hws.
  destruct (skip_while is_space rest) as [| c r]; [discriminate |].
  cbn [take_while].
  destruct (is_amount_char c) eqn:Hc; [| discriminate].
  intros _.
  exists marker, (take_while is_space rest), c, r.
  conj_split; [exact Hm | exact Hws | exact Hc |].
  rewrite <- Hrest; reflexivity.
Qed.

Lemma no_pair_here (s : Text) : ~ pair_starts s -> pair_here s = None.
Proof.
  intros H; destruct (pair_here s) as [tok |] eqn:E; [| reflexivity].
  elim H; exact (pair_here_starts _ _ E).
Qed.

Lemma first_pair_here (s tok : Text) :
  pair_here s = Some tok -> first_pair s = Some tok.
Proof.
  intros H; destruct s; cbn [first_pair]; rewrite H; reflexivity.
Qed.

(** The scan passes the positions where no pair starts. *)
Lemma first_pair_passes (pre s : Text) :
  (forall i : nat,
      (i < List.length pre)%nat -> ~ pair_starts (skipn i (pre ++ s))) ->
  first_pair (pre ++ s) = first_pair s.
Proof.
  induction pre as [| c pre IH]; intros H; [reflexivity |].
  cbn [app first_pair].
  rewrite (no_pair_here (c :: pre ++ s)).
  - apply IH; intros i Hi.
    apply (H (S i)); cbn [List.length]; lia.
  - apply (H 0%nat); cbn [List.length]; lia.
Qed.

Lemma first_pair_nowhere (text : Text) :
  (forall i : nat, ~ pair_starts (skipn i text)) -> first_pair text = None.
Proof.
  induction text as [| c text IH]; intros H; cbn [first_pair].
  - rewrite (no_pair_here [] (H 0%nat)); reflexivity.
  - rewrite (no_pair_here (c :: text) (H 0%nat)).
    apply IH; intros i; exact (H (S i)).
Qed.

(** ** The value of a run *)

Lemma decimal_digit_spec (c : CodePoint) :
  is_ascii_digit c = true ->
  exists (d : Decimal.uint -> Decimal.uint) (v : Z),
    decimal_digit c = Some d /\ v = Z.of_N c - 48
    /\ (forall u acc,
           Pos.of_uint_acc (d u) acc
           = Pos.of_uint_acc u (Z.to_pos (10 * Z.pos acc + v)))
    /\ (forall u,
           (v = 0 /\ Pos.of_uint (d u) = Pos.of_uint u)
           \/ (0 < v
               /\ Pos.of_uint (d u) = Npos (Pos.of_uint_acc u (Z.to_pos v)))).
Proof.
  unfold is_ascii_digit; intros H.
  apply andb_true_iff in H; destruct H as [H1 H2].
  apply N.leb_le in H1, H2.
  assert (Hc : (c = 48 \/ c = 49 \/ c = 50 \/ c = 51 \/ c = 52 \/ c = 53
                \/ c = 54 \/ c = 55 \/ c = 56 \/ c = 57)%N) by lia.
  repeat destruct Hc as [-> | Hc]; try subst c;
    eexists; eexists; (split; [reflexivity |]); (split; [reflexivity |]);
    (split; [intros u acc; cbn [Pos.of_uint_acc]; f_equal; lia |]);
    intros u; cbn [Pos.of_uint]; first [left; split; reflexivity
                                       | right; split; [lia | reflexivity]].
Qed.

Lemma decimal_digit_none (c : CodePoint) :
  is_ascii_digit c = false -> decimal_digit c = None.
Proof.
  unfold is_ascii_digit; intros H.
  destruct (decimal_digit c) as [d |] eqn:E; [| reflexivity].
  exfalso.
  assert (Hc : (48 <= c <= 57)%N).
  { unfold decimal_digit in E.
    destruct c as [| p]; [discriminate |].
    do 6 (try (destruct p as [p | p |]; try discriminate)); lia. }
  apply andb_false_iff in H; destruct H as [H | H]; apply N.leb_gt in H; lia.
Qed.

Lemma numeral_acc (s : Text) (u : Decimal.uint) (acc : positive) :
  forallb is_ascii_digit s = true ->
  numeral s = Some u ->
  Z.pos (Pos.of_uint_acc u acc) = decimal_value (Z.pos acc) s.
Proof.
  revert u acc.
  induction s as [| c s IH]; intros u acc Hs Hu.
  - cbn [numeral] in Hu; injection Hu as <-; reflexivity.
  - cbn [forallb] in Hs; apply andb_true_iff in Hs; destruct Hs as [Hc Hs].
    destruct (decimal_digit_spec c Hc) as [d [v [Hd [Hv [Hacc _]]]]].
    cbn [numeral] in Hu; rewrite Hd in Hu.
    destruct (numeral s) as [u' |] eqn:Hu'; [| discriminate].
    injection Hu as <-.
    assert (Hrange : 0 <= v <= 9).
    { unfold is_ascii_digit in Hc.
      apply andb_true_iff in Hc; destruct Hc as [H1 H2].
      apply N.leb_le in H1, H2; lia. }
    rewrite Hacc, (IH u' _ Hs eq_refl).
    cbn [decimal_value]; rewrite <- Hv.
    f_equal; lia.
Qed.

Lemma numeral_value (s : Text) :
  forallb is_ascii_digit s = true ->
  exists u : Decimal.uint,
    numeral s = Some u /\ Z.of_uint u = decimal_value 0 s.
Proof.
  induction s as [| c s IH]; intros Hs.
  - exists Decimal.Nil; split; reflexivity.
  - cbn [forallb] in Hs; apply andb_true_iff in Hs; destruct Hs as [Hc Hs].
    destruct (IH Hs) as [u [Hu Hval]].
    destruct (decimal_digit_spec c Hc) as [d [v [Hd [Hv [_ Hhead]]]]].
    exists (d u); split; [cbn [numeral]; rewrite Hd, Hu; reflexivity |].
    cbn [decimal_value]; rewrite <- Hv.
    unfold Z.of_uint in *.
    destruct (Hhead u) as [[-> E] | [Hpos E]]; rewrite E.
    + exact Hval.
    + cbn [Z.of_N].
      rewrite (numeral_acc s u _ Hs Hu).
      f_equal; lia.
Qed.

Lemma numeral_refuses (s : Text) :
  forallb is_ascii_digit s = false -> numeral s = None.
Proof.
  induction s as [| c s IH]; cbn [forallb numeral]; [discriminate |].
  intros H; apply andb_false_iff in H; destruct H as [H | H].
  - rewrite (decimal_digit_none c H); reflexivity.
  - rewrite (IH H); destruct (decimal_digit c); reflexivity.
Qed.

(** The parse of the source gives the amount the digits spell. *)
Lemma toDoubleOrNull_spelled (s : Text) : toDoubleOrNull s = amount_spelled s.
Proof.
  unfold toDoubleOrNull, amount_spelled.
  destruct s as [| c s]; [reflexivity |].
  destruct (forallb is_ascii_digit (c :: s)) eqn:H.
  - destruct (numeral_value _ H) as [u [Hu Hval]].
    rewrite Hu; cbn [option_map]; rewrite Hval; reflexivity.
  - rewrite (numeral_refuses _ H); reflexivity.
Qed.
(** Rounding a non-negative mantissa never yields a negative one, so the
    [NaN] branch of [binary_round_aux] is dead. *)
Lemma shr_1_nonneg (mrs : shr_record) :
  0 <= shr_m mrs -> 0 <= shr_m (shr_1 mrs).
Proof.
  destruct mrs as [m r s]; cbn [shr_m].
  destruct m as [| p | p]; intros H; [| | lia];
    [| destruct p]; cbn [shr_1 shr_m]; lia.
Qed.

Lemma iter_shr_1_nonneg (p : positive) (mrs : shr_record) :
  0 <= shr_m mrs -> 0 <= shr_m (iter_pos shr_1 p mrs).
Proof.
  revert mrs.
  induction p as [p IH | p IH |]; intros mrs H; cbn [iter_pos].
  - apply IH, IH, shr_1_nonneg, H.
  - apply IH, IH, H.
  - apply shr_1_nonneg, H.
Qed.

Lemma shr_fexp_nonneg (m e : Z) (l : location) :
  0 <= m -> 0 <= shr_m (fst (shr_fexp 53 1024 m e l)).
Proof.
  intros Hm.
  unfold shr_fexp, shr.
  assert (H0 : 0 <= shr_m (shr_record_of_loc m l))
    by (destruct l as [| []]; exact Hm).
  destruct (fexp 53 1024 (Zdigits2 m + e) - e) as [| p | p]; cbn [fst];
    [exact H0 | | exact H0].
  apply iter_shr_1_nonneg, H0.
Qed.

Lemma round_nearest_even_nonneg (m : Z) (l : location) :
  0 <= m -> 0 <= round_nearest_even m l.
Proof.
  intros Hm.
  destruct l as [| []]; cbn [round_nearest_even]; try lia.
  destruct (Z.even m); lia.
Qed.

Lemma binary_round_aux_not_nan (sx : bool) (mx ex : Z) (lx : location) :
  0 <= mx -> is_nan (binary_round_aux 53 1024 sx mx ex lx) = false.
Proof.
  intros Hm.
  unfold binary_round_aux.
  pose proof (shr_fexp_nonneg mx ex lx Hm) as H1.
  destruct (shr_fexp 53 1024 mx ex lx) as [mrs1 e1]; cbn [fst] in H1.
  pose proof (shr_fexp_nonneg
                (round_nearest_even (shr_m mrs1) (loc_of_shr_record mrs1))
                e1 loc_Exact
                (round_nearest_even_nonneg _ _ H1)) as H2.
  destruct (shr_fexp 53 1024
              (round_nearest_even (shr_m mrs1) (loc_of_shr_record mrs1))
              e1 loc_Exact) as [mrs2 e2]; cbn [fst] in H2.
  destruct (shr_m mrs2) as [| p | p]; [reflexivity | | lia].
  destruct (e2 <=? 1024 - 53)%Z; reflexivity.
Qed.

(** The extracted amount is never [NaN]: it is a rounded integer. *)
Lemma double_of_Z_not_nan (n : Z) : is_nan (double_of_Z n) = false.
Proof.
  unfold double_of_Z, binary_normalize.
  destruct n as [| p | p]; [reflexivity | |];
    unfold binary_round;
    destruct (shl_align p 0 (fexp 53 1024 (Z.pos (digits2_pos p) + 0)));
    apply binary_round_aux_not_nan; lia.
Qed.

Lemma toDoubleOrNull_not_nan (s : Text) (x : double) :
  toDoubleOrNull s = Some x -> is_nan x = false.
Proof.
  unfold toDoubleOrNull.
  destruct s as [| c s]; [discriminate |].
  destruct (forallb is_ascii_digit (c :: s)); [| discriminate].
  intros H; injection H as <-; apply double_of_Z_not_nan.
Qed.

Lemma extractAmount_not_nan (text : Text) (x : double) :
  extractAmount text = Some x -> is_nan x = false.
Proof.
  unfold extractAmount.
  destruct (find amount_pattern text); [| discriminate].
  apply toDoubleOrNull_not_nan.
Qed.

Lemma double_eqb_refl (x : double) : is_nan x = false -> double_eqb x x = true.
Proof.
  unfold double_eqb, SFeqb.
  destruct x as [s | s | | s m e]; cbn [is_nan SFcompare];
    try discriminate; intros _.
  - reflexivity.
  - destruct s; reflexivity.
  - rewrite Z.compare_refl.
    assert (Hm : Pos.compare_cont Eq m m = Eq) by apply Pos.compare_refl.
    rewrite Hm; destruct s; reflexivity.
Qed.

(** ** The leftmost pair decides *)

Lemma leftmost_pair_scan (text : Text) (found : option Text) :
  leftmost_pair text found -> first_pair text = found.
Proof.
  intros [pre marker ws run rest Hmarker Hws Hrun Hchars Hrest Hfirst
         | text' Hnone].
  - rewrite (first_pair_passes pre _ Hfirst).
    apply first_pair_here, pair_here_written; assumption.
  - apply first_pair_nowhere; exact Hnone.
Qed.

Lemma skip_while_ends (s : Text) : run_ends (skip_while is_amount_char s).
Proof.
  induction s as [| c s IH]; cbn [skip_while]; [exact I |].
  destruct (is_amount_char c) eqn:Hc; [exact IH | exact Hc].
Qed.

(** Where a pair starts, the scan reads one. *)
Lemma pair_starts_here (s : Text) :
  pair_starts s -> exists tok : Text, pair_here s = Some tok.
Proof.
  intros [marker [ws [c [rest [Hmarker [Hws [Hc ->]]]]]]].
  exists (take_while is_amount_char (c :: rest)).
  rewrite (take_skip is_amount_char (c :: rest)) at 1.
  apply pair_here_written;
    [exact Hmarker | exact Hws | | apply take_while_all | apply skip_while_ends].
  cbn [take_while]; rewrite Hc; discriminate.
Qed.

Lemma pair_here_split (s tok : Text) :
  pair_here s = Some tok ->
  exists marker ws rest : Text,
    s = marker ++ ws ++ tok ++ rest
    /\ is_marker marker
    /\ forallb is_space ws = true
    /\ tok <> []
    /\ forallb is_amount_char tok = true
    /\ run_ends rest.
Proof.
  intros H; pose proof (pair_here_chars _ _ H) as Hchars.
  revert H; unfold pair_here.
  destruct (after_marker s) as [r |] eqn:Hafter; [| discriminate].
  apply after_marker_split in Hafter; destruct Hafter as [marker [Hm ->]].
  pose proof (take_skip is_amount_char (skip_while is_space r)) as Hsplit.
  destruct (take_while is_amount_char (skip_while is_space r))
    as [| c run] eqn:Hrun; [discriminate |].
  intros E; injection E as <-.
  exists marker, (take_while is_space r),
    (skip_while is_amount_char (skip_while is_space r)).
  conj_split;
    [| exact Hm | apply take_while_all | discriminate | exact Hchars
     | apply skip_while_ends].
  rewrite <- Hsplit, <- (take_skip is_space r); reflexivity.
Qed.

(** Every text has its leftmost pair, or none. *)
Lemma leftmost_pair_total (text : Text) : leftmost_pair text (first_pair text).
Proof.
  assert (Hgen : forall pre s : Text,
             (forall i : nat,
                 (i < List.length pre)%nat ->
                 ~ pair_starts (skipn i (pre ++ s))) ->
             leftmost_pair (pre ++ s) (first_pair s)).
  { intros pre s; revert pre.
    induction s as [| c s IH]; intros pre Hpre.
    - cbn [first_pair].
      destruct (pair_here []) as [tok |] eqn:E.
      + destruct (pair_here_split _ _ E)
          as [marker [ws [rest [Hs [Hm [Hws [Htok [Hchars Hrest]]]]]]]].
        rewrite Hs in Hpre |- *.
        apply leftmost_pair_at; assumption.
      + apply leftmost_pair_none; intros i Hstarts.
        destruct (Nat.lt_ge_cases i (List.length pre)) as [Hi | Hi];
          [exact (Hpre i Hi Hstarts) |].
        rewrite app_nil_r, skipn_all2 in Hstarts by exact Hi.
        destruct (pair_starts_here _ Hstarts) as [tok Htok].
        rewrite E in Htok; discriminate.
    - cbn [first_pair].
      destruct (pair_here (c :: s)) as [tok |] eqn:E.
      + destruct (pair_here_split _ _ E)
          as [marker [ws [rest [Hs [Hm [Hws [Htok [Hchars Hrest]]]]]]]].
        rewrite Hs in Hpre |- *.
        apply leftmost_pair_at; assumption.
      + replace (pre ++ c :: s) with ((pre ++ [c]) ++ s)
          by (rewrite <- app_assoc; reflexivity).
        apply IH; intros i Hi.
        rewrite <- app_assoc; cbn [app].
        rewrite length_app in Hi; cbn [List.length] in Hi.
        destruct (Nat.eq_dec i (List.length pre)) as [-> | Hne].
        * rewrite skipn_app, skipn_all, Nat.sub_diag; cbn [skipn app].
          intros Hstarts.
          destruct (pair_starts_here _ Hstarts) as [tok Htok].
          rewrite E in Htok; discriminate.
        * apply Hpre; lia. }
  apply (Hgen [] text); intros i Hi; cbn [List.length] in Hi; lia.
Qed.

(** C9, amended.  The amount is read from the leftmost place of the text
    where a marker ([IDR] or [Rp]) is followed, after white space or none,
    by a character of the class of digits, dots and commas.  The run is
    the longest one that starts there; dots and commas are dropped and
    what is left is read as a whole number in decimal.  There is no amount
    when no such place exists, and also when the run of the leftmost one
    holds no digit or a digit of another script than [0] to [9]: pairs
    further to the right are not tried.  Every text has exactly one
    leftmost pair or none (lemmas [leftmost_pair_total] and
    [leftmost_pair_scan]), so this fixes the result on every text. *)
Theorem C9_extractAmount_leftmost_pair (text : Text) (found : option Text) :
  leftmost_pair text found ->
  extractAmount text
  = match found with
    | Some run => amount_spelled (filter is_digit run)
    | None => None
    end.
Proof.
  intros H; rewrite extractAmount_scan, (leftmost_pair_scan _ _ H).
  destruct found as [run |]; [apply toDoubleOrNull_spelled | reflexivity].
Qed.

(** C9 on a text with two pairs, the letters [I] and [R] occurring before
    the first. *)
Lemma C9_witness :
  extractAmount (text_of_string "Info: bayar Rp 50.000 sisa IDR 1.000")
  = Some (double_of_Z 50000).
Proof.
  apply (C9_extractAmount_leftmost_pair
           (text_of_string "Info: bayar " ++ text_of_string "Rp"
            ++ text_of_string " " ++ text_of_string "50.000"
            ++ text_of_string " sisa IDR 1.000")
           (Some (text_of_string "50.000"))).
  apply leftmost_pair_at.
  - right; reflexivity.
  - reflexivity.
  - discriminate.
  - reflexivity.
  - reflexivity.
  - intros i Hi [marker [ws [c [rest [Hmarker [_ [_ E]]]]]]].
    cbn in Hi.
    do 12 (destruct i as [| i];
           [destruct Hmarker as [-> | ->]; discriminate E |]).
    lia.
Defined.

(** The claim as the specification words it fails on a text whose first
    marker is followed by a separator and no number: the text contains the
    pair [Rp 50.000], which read alone gives 50000, and gives no amount. *)
Lemma C9_counterexample :
  extractAmount (text_of_string "Saldo Rp, bukan USD. Total Rp 50.000") = None
  /\ extractAmount_spec (text_of_string "Saldo Rp, bukan USD. Total Rp 50.000")
     = Some (double_of_Z 50000)
  /\ extractAmount (text_of_string "Rp 50.000") = Some (double_of_Z 50000).
Proof. conj_split; vm_compute; reflexivity. Qed.

(** Some texts of the kind the bank sends. *)
Example extractAmount_rp_dots :
  extractAmount (text_of_string "Kamu membayar Rp 50.000 ke Warung")
  = Some (double_of_Z 50000).
Proof. vm_compute; reflexivity. Qed.

Example extractAmount_idr_commas :
  extractAmount (text_of_string "IDR1,250,000 keluar")
  = Some (double_of_Z 1250000).
Proof. vm_compute; reflexivity. Qed.

Example extractAmount_first_match_wins :
  extractAmount (text_of_string "Rp 7.500 dari saldo Rp 100.000")
  = Some (double_of_Z 7500).
Proof. vm_compute; reflexivity. Qed.

Example extractAmount_no_marker :
  extractAmount (text_of_string "Saldo kamu 50.000") = None.
Proof. vm_compute; reflexivity. Qed.

Example extractAmount_separators_only :
  extractAmount (text_of_string "Rp. 50.000") = None.
Proof. vm_compute; reflexivity. Qed.

(** A no-break space (U+00A0) after the marker is white space. *)
Example extractAmount_no_break_space :
  extractAmount (text_of_string "Rp" ++ [160%N] ++ text_of_string "10.000")
  = Some (double_of_Z 10000).
Proof. vm_compute; reflexivity. Qed.

(** An Arabic-Indic five (U+0665) joins the run and the parse refuses it. *)
Example extractAmount_other_script :
  extractAmount (text_of_string "Rp 5" ++ [1637%N]) = None.
Proof. vm_compute; reflexivity. Qed.

(** ** The duplicate window *)

Lemma observe_new (sbn : StatusBarNotification) (A : double) (now : Z)
    (window : Window) :
  carries sbn A ->
  anySameAmount A (removeOld now window) = false ->
  onNotificationPosted (Some sbn) now window
  = (removeOld now window ++ [(now, A)],
     arrival_logs sbn ++ [LogAmountExtracted A; SendToServer A]).
Proof.
  intros [Hpkg Hamount] Hnew.
  unfold onNotificationPosted.
  rewrite Hpkg, String.eqb_refl; cbn [negb].
  rewrite Hamount; cbn zeta.
  rewrite Hnew; reflexivity.
Qed.

Lemma observe_duplicate (sbn : StatusBarNotification) (A : double) (now : Z)
    (window : Window) :
  carries sbn A ->
  anySameAmount A (removeOld now window) = true ->
  onNotificationPosted (Some sbn) now window
  = (removeOld now window, arrival_logs sbn ++ [LogDuplicate A]).
Proof.
  intros [Hpkg Hamount] Hdup.
  unfold onNotificationPosted.
  rewrite Hpkg, String.eqb_refl; cbn [negb].
  rewrite Hamount; cbn zeta.
  rewrite Hdup; reflexivity.
Qed.

Lemma removeOld_app (now : Z) (l1 l2 : Window) :
  removeOld now (l1 ++ l2) = removeOld now l1 ++ removeOld now l2.
Proof. apply filter_app. Qed.

Lemma anySameAmount_app (A : double) (l1 l2 : Window) :
  anySameAmount A (l1 ++ l2) = anySameAmount A l1 || anySameAmount A l2.
Proof. apply existsb_app. Qed.

Lemma anySameAmount_removeOld (A : double) (now : Z) (l : Window) :
  anySameAmount A l = false -> anySameAmount A (removeOld now l) = false.
Proof.
  unfold anySameAmount, removeOld.
  induction l as [| p l IH]; cbn [existsb filter]; [reflexivity |].
  intros H; apply orb_false_iff in H; destruct H as [Hp Hl].
  destruct (negb (older_than_window now p)); cbn [existsb];
    [rewrite Hp |]; exact (IH Hl).
Qed.

(** An entry of age [age], within the range of a [Long], is dropped exactly
    when [age] exceeds the window. *)
Lemma removeOld_single (t age : Z) (A : double) :
  - 2 ^ 63 <= age < 2 ^ 63 ->
  removeOld (t + age) [(t, A)]
  = if age >? DEBOUNCE_TIME then [] else [(t, A)].
Proof.
  intros Hage.
  unfold removeOld, older_than_window; cbn [filter fst].
  replace (t + age - t) with age by lia.
  assert (Hw : wrap64 age = age).
  { unfold wrap64. rewrite Z.mod_small by lia. lia. }
  rewrite Hw.
  destruct (age >? DEBOUNCE_TIME); reflexivity.
Qed.

Lemma anySameAmount_single (t : Z) (A : double) :
  is_nan A = false -> anySameAmount A [(t, A)] = true.
Proof.
  intros H; unfold anySameAmount; cbn [existsb snd].
  rewrite (double_eqb_refl A H); reflexivity.
Qed.

(** C7. Four notifications carrying the same amount [A] arrive at [t],
    [t + 1], [t + 4999] and [t + 5001] milliseconds, the window holding no
    live entry for [A] when the first arrives.  The first and the last are
    classified as new: the amount is logged as extracted, handed to
    [sendToServer] and inserted.  The second and the third are classified as
    duplicates: a log line, nothing sent, nothing inserted.  Entries older
    than 5000 ms are removed before the duplicate test, which is why the
    entry of time [t] is gone when the last notification is examined. *)
Theorem C7_dedup_window (s1 s2 s3 s4 : StatusBarNotification) (A : double)
    (t : Z) (window : Window) :
  carries s1 A -> carries s2 A -> carries s3 A -> carries s4 A ->
  anySameAmount A (removeOld t window) = false ->
  let r1 := onNotificationPosted (Some s1) t window in
  let r2 := onNotificationPosted (Some s2) (t + 1) (fst r1) in
  let r3 := onNotificationPosted (Some s3) (t + 4999) (fst r2) in
  let r4 := onNotificationPosted (Some s4) (t + 5001) (fst r3) in
  (snd r1 = arrival_logs s1 ++ [LogAmountExtracted A; SendToServer A]
   /\ fst r1 = removeOld t window ++ [(t, A)])
  /\ (snd r2 = arrival_logs s2 ++ [LogDuplicate A]
      /\ fst r2 = removeOld (t + 1) (fst r1))
  /\ (snd r3 = arrival_logs s3 ++ [LogDuplicate A]
      /\ fst r3 = removeOld (t + 4999) (fst r2))
  /\ (snd r4 = arrival_logs s4 ++ [LogAmountExtracted A; SendToServer A]
      /\ fst r4 = removeOld (t + 5001) (fst r3) ++ [(t + 5001, A)]
      /\ ~ In (t, A) (removeOld (t + 5001) (fst r3))).
Proof.
  intros H1 H2 H3 H4 Hfresh r1 r2 r3 r4.
  assert (Hnan : is_nan A = false)
    by (destruct H1 as [_ H]; exact (extractAmount_not_nan _ _ H)).
  set (w0 := removeOld t window) in *.
  assert (E1 : r1 = (w0 ++ [(t, A)],
                     arrival_logs s1 ++ [LogAmountExtracted A; SendToServer A]))
    by (apply observe_new; assumption).
  assert (K2 : removeOld (t + 1) (fst r1)
               = removeOld (t + 1) w0 ++ [(t, A)]).
  { rewrite E1; cbn [fst]. rewrite removeOld_app.
    rewrite (removeOld_single t 1 A) by lia. reflexivity. }
  assert (E2 : r2 = (removeOld (t + 1) (fst r1),
                     arrival_logs s2 ++ [LogDuplicate A])).
  { apply observe_duplicate; [assumption |].
    rewrite K2, anySameAmount_app, (anySameAmount_single t A Hnan).
    apply orb_true_r. }
  assert (K3 : removeOld (t + 4999) (fst r2)
               = removeOld (t + 4999) (removeOld (t + 1) w0) ++ [(t, A)]).
  { rewrite E2; cbn [fst]. rewrite K2, removeOld_app.
    rewrite (removeOld_single t 4999 A) by lia. reflexivity. }
  assert (E3 : r3 = (removeOld (t + 4999) (fst r2),
                     arrival_logs s3 ++ [LogDuplicate A])).
  { apply observe_duplicate; [assumption |].
    rewrite K3, anySameAmount_app, (anySameAmount_single t A Hnan).
    apply orb_true_r. }
  assert (K4 : removeOld (t + 5001) (fst r3)
               = removeOld (t + 5001)
                   (removeOld (t + 4999) (removeOld (t + 1) w0))).
  { rewrite E3; cbn [fst]. rewrite K3, removeOld_app.
    rewrite (removeOld_single t 5001 A) by lia. apply app_nil_r. }
  assert (F4 : anySameAmount A (removeOld (t + 5001) (fst r3)) = false).
  { rewrite K4. do 3 apply anySameAmount_removeOld. exact Hfresh. }
  assert (E4 : r4 = (removeOld (t + 5001) (fst r3) ++ [(t + 5001, A)],
                     arrival_logs s4 ++ [LogAmountExtracted A; SendToServer A]))
    by (apply observe_new; assumption).
  rewrite E4, E3, E2, E1; cbn [fst snd].
  repeat split; try reflexivity.
  intros Hin.
  rewrite E3 in F4; cbn [fst] in F4.
  rewrite E2 in F4; cbn [fst] in F4.
  rewrite E1 in F4; cbn [fst] in F4.
  unfold anySameAmount in F4.
  assert (Hex : existsb (fun p => double_eqb (snd p) A)
                  (removeOld (t + 5001)
                     (removeOld (t + 4999)
                        (removeOld (t + 1) (w0 ++ [(t, A)])))) = true).
  { apply existsb_exists. exists (t, A). split; [exact Hin |].
    apply double_eqb_refl, Hnan. }
  rewrite Hex in F4; discriminate.
Qed.

(** * Properties of the server *)

(** ** The cache *)

Lemma lookup_first (key : string) (d : Wrapped) (rest : Cache) :
  lookup key ((key, d) :: rest) = Some d.
Proof. cbn [lookup]; rewrite String.eqb_refl; reflexivity. Qed.

Lemma cache_del_absent (key : string) (data : Cache) :
  ~ In key (cache_keys data) -> cache_del key data = data.
Proof.
  unfold cache_del, cache_keys.
  induction data as [| [k d] data IH]; cbn [map filter fst]; [reflexivity |].
  intros Hin.
  destruct (String.eqb_spec k key) as [-> | _]; cbn [negb].
  - exfalso; apply Hin; left; reflexivity.
  - rewrite IH; [reflexivity |].
    intros H; apply Hin; right; exact H.
Qed.

(** Deleting the first key of a cache leaves the other entries as they
    were, in their order. *)
Lemma cache_del_first (key : string) (d : Wrapped) (rest : Cache) :
  NoDup (cache_keys ((key, d) :: rest)) ->
  cache_del key ((key, d) :: rest) = rest.
Proof.
  intros Hnd; inversion Hnd as [| k ks Hnotin Hrest]; subst.
  unfold cache_del; cbn [filter fst].
  rewrite String.eqb_refl; cbn [negb].
  apply cache_del_absent; exact Hnotin.
Qed.

Lemma lookup_absent (key : string) (data : Cache) :
  ~ In key (cache_keys data) -> lookup key data = None.
Proof.
  unfold cache_keys.
  induction data as [| [k d] data IH]; cbn [map lookup fst]; [reflexivity |].
  intros Hin.
  destruct (String.eqb_spec k key) as [-> | _].
  - exfalso; apply Hin; left; reflexivity.
  - apply IH; intros H; apply Hin; right; exact H.
Qed.

Lemma lookup_assign_same (key : string) (d : Wrapped) (data : Cache) :
  lookup key (assign key d data) = Some d.
Proof.
  induction data as [| [k d'] data IH]; cbn [assign lookup].
  - rewrite String.eqb_refl; reflexivity.
  - destruct (String.eqb_spec k key) as [-> | Hne]; cbn [lookup].
    + rewrite String.eqb_refl; reflexivity.
    + destruct (String.eqb_spec k key); [contradiction | exact IH].
Qed.

Lemma assign_fresh (key : string) (d : Wrapped) (data : Cache) :
  lookup key data = None -> assign key d data = data ++ [(key, d)].
Proof.
  induction data as [| [k d'] data IH]; cbn [assign lookup app];
    [reflexivity |].
  destruct (k =? key)%string; [discriminate |].
  intros H; rewrite (IH H); reflexivity.
Qed.

(** ** The paths of the text handler *)

Lemma authorized_test (cfg : Config) (ctx : Context) :
  authorized cfg ctx ->
  (int_toString (chat_id ctx) =? MY_CHAT_ID cfg)%string = true.
Proof. intros H; apply String.eqb_eq; exact H. Qed.

Lemma onText_unauthorized (cfg : Config) (now : Z) (ctx : Context)
    (w : World) :
  ~ authorized cfg ctx ->
  run (onText cfg now ctx) w
  = {| cache := cache w;
       script := script w;
       trace := trace w ++ [Console (LogUnauthorizedChat (chat ctx))] |}.
Proof.
  intros Hauth.
  destruct w as [data answers events].
  run_handler.
  destruct (String.eqb_spec (int_toString (chat_id ctx)) (MY_CHAT_ID cfg))
    as [E | _]; [contradiction |].
  reflexivity.
Qed.

Section AuthorizedReply.

(** A reply of the configured chat, arriving at [now]. *)
Variable cfg : Config.
Variable now : Z.
Variable ctx : Context.
Hypothesis Hauth : authorized cfg ctx.

(** Enter the handler: past the test on the chat, up to the first test on
    the cache. *)
Ltac enter_handler :=
  run_handler; rewrite (authorized_test cfg ctx Hauth); handler_step.

Lemma onText_nothing_pending (w : World) :
  cache w = [] ->
  run (onText cfg now ctx) w
  = {| cache := cache w;
       script := if next (script w) then tl (script w)
                 else tl (tl (script w));
       trace := trace w
                ++ TelegramSend (chat ctx) MsgNothingPending (next (script w))
                   :: (if next (script w) then []
                       else recovery ctx (tl (script w))) |}.
Proof.
  intros Hcache.
  destruct w as [data answers events]; cbn [cache script trace] in *.
  subst data.
  enter_handler.
  finish_handler.
Qed.

Section FirstEntry.

(** The cache is not empty: [key] is its first key. *)
Variable w : World.
Variable key : string.
Variable d : Wrapped.
Variable rest : Cache.
Hypothesis Hcache : cache w = (key, d) :: rest.

(** Up to the test on the entry read from the cache. *)
Ltac read_first :=
  destruct w as [data answers events]; cbn [cache script trace] in *;
  subst data; enter_handler; rewrite lookup_first.

(** The first key of the cache belongs to an entry that has expired and
    that the periodic sweep has not removed yet. *)
Lemma onText_first_expired :
  expired now d = true ->
  run (onText cfg now ctx) w
  = {| cache := cache_del key (cache w);
       script := if next (script w) then tl (script w)
                 else tl (tl (script w));
       trace := trace w
                ++ TelegramSend (chat ctx) MsgNotFoundOrExpired
                     (next (script w))
                   :: (if next (script w) then []
                       else recovery ctx (tl (script w))) |}.
Proof.
  intros Hexp.
  read_first; rewrite Hexp; handler_step.
  finish_handler.
Qed.

(** The message that announces the write is refused by Telegram. *)
Lemma onText_saving_not_sent :
  expired now d = false ->
  next (script w) = false ->
  run (onText cfg now ctx) w
  = {| cache := cache w;
       script := tl (tl (script w));
       trace := trace w
                ++ TelegramSend (chat ctx) MsgSaving false
                   :: recovery ctx (tl (script w)) |}.
Proof.
  intros Hlive H1.
  read_first; rewrite Hlive; handler_step.
  rewrite H1; handler_step.
  finish_handler.
Qed.

(** Notion refuses the record. *)
Lemma onText_ledger_failure :
  expired now d = false ->
  next (script w) = true ->
  next (tl (script w)) = false ->
  run (onText cfg now ctx) w
  = {| cache := cache w;
       script := tl (tl (tl (script w)));
       trace := trace w
                ++ TelegramSend (chat ctx) MsgSaving true
                   :: NotionCreate (message_text ctx) (amount (v d))
                        (today now) (category cfg) false
                   :: Console LogNotionError
                   :: recovery ctx (tl (tl (script w))) |}.
Proof.
  intros Hlive H1 H2.
  read_first; rewrite Hlive; handler_step.
  rewrite H1; handler_step.
  rewrite H2; handler_step.
  finish_handler.
Qed.

(** Notion accepts the record; the confirmation may or may not go out. *)
Lemma onText_ledger_success :
  expired now d = false ->
  next (script w) = true ->
  next (tl (script w)) = true ->
  run (onText cfg now ctx) w
  = {| cache := cache_del key (cache w);
       script := if next (tl (tl (script w))) then tl (tl (tl (script w)))
                 else tl (tl (tl (tl (script w))));
       trace := trace w
                ++ TelegramSend (chat ctx) MsgSaving true
                   :: NotionCreate (message_text ctx) (amount (v d))
                        (today now) (category cfg) true
                   :: TelegramSend (chat ctx)
                        (MsgSaved (message_text ctx) (amount (v d)) now)
                        (next (tl (tl (script w))))
                   :: (if next (tl (tl (script w)))
                       then [Console (LogSavedToNotion key)]
                       else recovery ctx (tl (tl (tl (script w))))) |}.
Proof.
  intros Hlive H1 H2.
  read_first; rewrite Hlive; handler_step.
  rewrite H1; handler_step.
  rewrite H2; handler_step.
  finish_handler.
Qed.

(** The path of a resolution whose three calls are all accepted. *)
Lemma onText_resolves :
  expired now d = false ->
  next (script w) = true ->
  next (tl (script w)) = true ->
  next (tl (tl (script w))) = true ->
  run (onText cfg now ctx) w
  = {| cache := cache_del key (cache w);
       script := tl (tl (tl (script w)));
       trace := trace w
                ++ [TelegramSend (chat ctx) MsgSaving true;
                    NotionCreate (message_text ctx) (amount (v d)) (today now)
                      (category cfg) true;
                    TelegramSend (chat ctx)
                      (MsgSaved (message_text ctx) (amount (v d)) now) true;
                    Console (LogSavedToNotion key)] |}.
Proof.
  intros Hlive H1 H2 H3.
  rewrite (onText_ledger_success Hlive H1 H2), H3; reflexivity.
Qed.

End FirstEntry.

End AuthorizedReply.

(** ** The paths of the webhook *)

Lemma webhook_rejects (cfg : Config) (now : Z) (rnd : string)
    (amount : JsValue) (w : World) :
  truthy amount = false \/ typeof amount <> "number" ->
  run (webhook cfg now rnd amount) w
  = {| cache := cache w;
       script := script w;
       trace := trace w ++ [HttpResponse 400 false None] |}.
Proof.
  intros H.
  destruct w as [data answers events].
  run_handler.
  assert (Htest : negb (truthy amount)
                  || negb (typeof amount =? "number")%string = true).
  { destruct H as [H | H].
    - rewrite H; reflexivity.
    - destruct (String.eqb_spec (typeof amount) "number");
        [contradiction | apply orb_true_r]. }
  rewrite Htest; reflexivity.
Qed.

Lemma webhook_accepts (cfg : Config) (now : Z) (rnd : string) (x : double)
    (w : World) :
  is_zero x = false ->
  is_nan x = false ->
  let transactionId := generateTransactionId now rnd in
  run (webhook cfg now rnd (JsNumber x)) w
  = {| cache := cache_set now transactionId
                  {| amount := JsNumber x; timestamp := now |} (cache w);
       script := tl (script w);
       trace := trace w
                ++ TelegramSend (MY_CHAT_ID cfg) (MsgNewExpense (JsNumber x))
                     (next (script w))
                   :: (if next (script w)
                       then [Console (LogTransactionReceived transactionId
                                        (JsNumber x));
                             HttpResponse 200 true (Some transactionId)]
                       else [Console LogWebhookError;
                             HttpResponse 500 false None]) |}.
Proof.
  intros Hzero Hnan transactionId.
  destruct w as [data answers events].
  run_handler.
  unfold truthy, typeof; rewrite Hzero, Hnan, String.eqb_refl.
  finish_handler.
Qed.

(** ** Observations distribute over the trace *)

Lemma ledger_writes_app (tr1 tr2 : list Event) :
  ledger_writes (tr1 ++ tr2) = ledger_writes tr1 ++ ledger_writes tr2.
Proof. apply flat_map_app. Qed.

Lemma ledger_calls_app (tr1 tr2 : list Event) :
  ledger_calls (tr1 ++ tr2) = ledger_calls tr1 ++ ledger_calls tr2.
Proof. apply flat_map_app. Qed.

Lemma telegram_calls_app (tr1 tr2 : list Event) :
  telegram_calls (tr1 ++ tr2) = telegram_calls tr1 ++ telegram_calls tr2.
Proof. apply flat_map_app. Qed.

Create Rewrite HintDb observations.

#[local] Hint Rewrite ledger_writes_app ledger_calls_app telegram_calls_app
  : observations.

(** ** The keys of the cache stay distinct *)

Lemma filter_keys_NoDup (f : string * Wrapped -> bool) (data : Cache) :
  NoDup (cache_keys data) -> NoDup (cache_keys (filter f data)).
Proof.
  unfold cache_keys.
  induction data as [| kd data IH]; cbn [filter map]; [trivial |].
  intros H; apply NoDup_cons_iff in H; destruct H as [Hnotin Hnodup].
  destruct (f kd); cbn [map]; [| exact (IH Hnodup)].
  apply NoDup_cons; [| exact (IH Hnodup)].
  intros Hin; apply Hnotin.
  apply in_map_iff in Hin; destruct Hin as [kd' [E Hin]].
  apply filter_In in Hin; destruct Hin as [Hin _].
  rewrite <- E; apply in_map; exact Hin.
Qed.

Lemma assign_keys (key : string) (d : Wrapped) (data : Cache) :
  cache_keys (assign key d data)
  = if existsb (String.eqb key) (cache_keys data) then cache_keys data
    else cache_keys data ++ [key].
Proof.
  unfold cache_keys.
  induction data as [| [k d'] data IH]; cbn [assign map fst existsb app];
    [reflexivity |].
  rewrite (String.eqb_sym key k).
  destruct (k =? key)%string; cbn [map fst orb]; [reflexivity |].
  rewrite IH.
  destruct (existsb (String.eqb key) (map fst data)); reflexivity.
Qed.

Lemma cache_set_NoDup (now : Z) (key : string) (value : Transaction)
    (data : Cache) :
  NoDup (cache_keys data) -> NoDup (cache_keys (cache_set now key value data)).
Proof.
  intros Hnodup; unfold cache_set; rewrite assign_keys.
  destruct (existsb (String.eqb key) (cache_keys data)) eqn:E;
    [exact Hnodup |].
  apply NoDup_app; [exact Hnodup | repeat constructor; intros [] |].
  intros k Hin [E' | []]; subst k.
  assert (Hex : existsb (String.eqb key) (cache_keys data) = true)
    by (apply existsb_exists; exists key; split;
        [exact Hin | apply String.eqb_refl]).
  rewrite Hex in E; discriminate.
Qed.

(** Whatever the webhook receives, it leaves the keys distinct. *)
Lemma webhook_keeps_NoDup (cfg : Config) (now : Z) (rnd : string)
    (a : JsValue) (w : World) :
  NoDup (cache_keys (cache w)) ->
  NoDup (cache_keys (cache (run (webhook cfg now rnd a) w))).
Proof.
  intros Hnodup.
  destruct (truthy a) eqn:Ht.
  - destruct a as [| | b | x | s | |];
      try (rewrite webhook_rejects by (right; discriminate); exact Hnodup).
    cbn [truthy] in Ht; apply andb_true_iff in Ht; destruct Ht as [Hz Hn].
    apply negb_true_iff in Hz, Hn.
    rewrite (webhook_accepts cfg now rnd x w Hz Hn); cbn [cache].
    apply cache_set_NoDup; exact Hnodup.
  - rewrite webhook_rejects by (left; exact Ht); exact Hnodup.
Qed.

(** The text handler leaves the cache as it was or deletes its first key. *)
Lemma onText_cache (cfg : Config) (now : Z) (ctx : Context) (w : World) :
  cache (run (onText cfg now ctx) w) = cache w
  \/ exists key, cache (run (onText cfg now ctx) w) = cache_del key (cache w).
Proof.
  destruct (String.eqb_spec (int_toString (chat_id ctx)) (MY_CHAT_ID cfg))
    as [Hauth | Hauth].
  - destruct (cache w) as [| [key d] rest] eqn:Hcache.
    + left; rewrite (onText_nothing_pending cfg now ctx Hauth w Hcache).
      exact Hcache.
    + destruct (expired now d) eqn:Hd.
      * right; exists key.
        rewrite (onText_first_expired cfg now ctx Hauth w key d rest Hcache Hd).
        cbn [cache]; rewrite Hcache; reflexivity.
      * destruct (next (script w)) eqn:H1.
        -- destruct (next (tl (script w))) eqn:H2.
           ++ right; exists key.
              rewrite (onText_ledger_success cfg now ctx Hauth w key d rest
                         Hcache Hd H1 H2).
              cbn [cache]; rewrite Hcache; reflexivity.
           ++ left.
              rewrite (onText_ledger_failure cfg now ctx Hauth w key d rest
                         Hcache Hd H1 H2).
              exact Hcache.
        -- left.
           rewrite (onText_saving_not_sent cfg now ctx Hauth w key d rest
                      Hcache Hd H1).
           exact Hcache.
  - left; rewrite (onText_unauthorized cfg now ctx w Hauth); reflexivity.
Qed.

Lemma onText_keeps_NoDup (cfg : Config) (now : Z) (ctx : Context)
    (w : World) :
  NoDup (cache_keys (cache w)) ->
  NoDup (cache_keys (cache (run (onText cfg now ctx) w))).
Proof.
  intros Hnodup.
  destruct (onText_cache cfg now ctx w) as [-> | [key ->]]; [exact Hnodup |].
  apply filter_keys_NoDup; exact Hnodup.
Qed.

Lemma checkData_keeps_NoDup (now : Z) (data : Cache) :
  NoDup (cache_keys data) -> NoDup (cache_keys (checkData now data)).
Proof. apply filter_keys_NoDup. Qed.

(** A reply whose ledger write is accepted writes the first entry of the
    cache and deletes its key, whatever happens to the confirmation. *)
Lemma onText_ledger_success_effect (cfg : Config) (now : Z) (ctx : Context)
    (w : World) (key : string) (d : Wrapped) (rest : Cache) :
  authorized cfg ctx ->
  cache w = (key, d) :: rest ->
  expired now d = false ->
  next (script w) = true ->
  next (tl (script w)) = true ->
  cache (run (onText cfg now ctx) w) = cache_del key (cache w)
  /\ ledger_writes (trace (run (onText cfg now ctx) w))
     = ledger_writes (trace w) ++ [(message_text ctx, amount (v d))].
Proof.
  intros Hauth Hcache Hlive H1 H2.
  rewrite (onText_ledger_success cfg now ctx Hauth w key d rest Hcache)
    by assumption.
  cbn [cache trace]; split; [reflexivity |].
  rewrite ledger_writes_app; f_equal.
  unfold recovery.
  destruct (next (tl (tl (script w)))); reflexivity.
Qed.

Example P1_P2_inserted_in_order :
  cache (run (webhook cfg0 2000000 "def" (rupiah 20000))
           (run (webhook cfg0 1000 "abc" (rupiah 10000)) (start [] [])))
  = [P1; P2].
Proof. vm_compute; reflexivity. Qed.

(** C6. A reply whose chat is not the configured one is ignored, whatever
    the cache holds: the cache is unchanged, no collaborator is called (the
    script of answers is untouched), the only event is the warning on the
    console; in particular no ledger call is made and no message is sent. *)
Theorem C6_unauthorized_reply_ignored (cfg : Config) (now : Z)
    (ctx : Context) (w : World) :
  ~ authorized cfg ctx ->
  let w' := run (onText cfg now ctx) w in
  cache w' = cache w
  /\ script w' = script w
  /\ trace w' = trace w ++ [Console (LogUnauthorizedChat (chat ctx))]
  /\ ledger_calls (trace w') = ledger_calls (trace w)
  /\ telegram_calls (trace w') = telegram_calls (trace w).
Proof.
  intros Hauth w'; subst w'.
  rewrite (onText_unauthorized cfg now ctx w Hauth); cbn [cache script trace].
  autorewrite with observations; cbn [ledger_calls
    telegram_calls flat_map]; rewrite !app_nil_r.
  repeat split; reflexivity.
Qed.

(** C6 on the example data: a stranger writes while two transactions are
    pending. *)
Lemma C6_witness :
  ~ authorized cfg0 (stranger "Lunch")
  /\ (let w' := run (onText cfg0 5000 (stranger "Lunch")) (start [P1; P2] [])
      in cache w' = [P1; P2]
         /\ script w' = []
         /\ trace w' = [] ++ [Console (LogUnauthorizedChat "7")]
         /\ ledger_calls (trace w') = ledger_calls []
         /\ telegram_calls (trace w') = telegram_calls []).
Proof.
  assert (H : ~ authorized cfg0 (stranger "Lunch"))
    by (unfold authorized; vm_compute; discriminate).
  split; [exact H |].
  exact (C6_unauthorized_reply_ignored cfg0 5000 (stranger "Lunch")
           (start [P1; P2] []) H).
Defined.

(** C1 as the specification states it fails: after a reply whose Notion
    write is refused, the selected transaction is still in the cache, and
    the next reply writes it to the ledger. *)
Lemma C1_counterexample :
  let w1 := run (onText cfg0 5000 (owner "Lunch")) (start [P1] [true; false])
  in ledger_calls (trace w1) = [("Lunch", rupiah 10000)]
     /\ ledger_writes (trace w1) = []
     /\ cache w1 = [P1]
     /\ ledger_writes
          (trace (run (onText cfg0 6000 (owner "Lunch"))
                    (start (cache w1) [])))
        = [("Lunch", rupiah 10000)].
Proof. vm_compute; repeat split; reflexivity. Qed.

(** C1, amended. A reply from the authorised chat selects the first entry
    of the cache; the message that announces the write goes out and Notion
    then refuses the record.  The handler logs the error and sends the
    failure message to the sender.  The cache is unchanged: the entry is
    deleted only after an accepted write, so it is neither removed nor
    reinserted, and a later reply that finds it live writes it to the
    ledger. *)
Theorem C1_ledger_failure_keeps_entry (cfg : Config) (now : Z)
    (ctx : Context) (w : World) (key : string) (d : Wrapped) (rest : Cache) :
  authorized cfg ctx ->
  cache w = (key, d) :: rest ->
  expired now d = false ->
  next (script w) = true ->
  next (tl (script w)) = false ->
  let w' := run (onText cfg now ctx) w in
  trace w'
  = trace w
    ++ [TelegramSend (chat ctx) MsgSaving true;
        NotionCreate (message_text ctx) (amount (v d)) (today now)
          (category cfg) false;
        Console LogNotionError;
        Console LogTelegramError;
        TelegramSend (chat ctx) MsgFailure (next (tl (tl (script w))))]
  /\ ledger_writes (trace w') = ledger_writes (trace w)
  /\ cache w' = cache w
  /\ (forall (now2 : Z) (ctx2 : Context),
        authorized cfg ctx2 ->
        expired now2 d = false ->
        next (script w') = true ->
        next (tl (script w')) = true ->
        ledger_writes (trace (run (onText cfg now2 ctx2) w'))
        = ledger_writes (trace w) ++ [(message_text ctx2, amount (v d))]).
Proof.
  intros Hauth Hcache Hlive H1 H2 w'.
  assert (E : w' = {| cache := cache w;
                      script := tl (tl (tl (script w)));
                      trace := trace w
                        ++ TelegramSend (chat ctx) MsgSaving true
                           :: NotionCreate (message_text ctx) (amount (v d))
                                (today now) (category cfg) false
                           :: Console LogNotionError
                           :: recovery ctx (tl (tl (script w))) |})
    by (apply (onText_ledger_failure cfg now ctx Hauth w key d rest);
        assumption).
  assert (Hwrites : ledger_writes (trace w') = ledger_writes (trace w)).
  { rewrite E; cbn [trace]. rewrite ledger_writes_app.
    unfold recovery; cbn [ledger_writes flat_map app].
    apply app_nil_r. }
  conj_split.
  - rewrite E; reflexivity.
  - exact Hwrites.
  - rewrite E; reflexivity.
  - intros now2 ctx2 Hauth2 Hlive2 Hs1 Hs2.
    assert (Hcache' : cache w' = (key, d) :: rest)
      by (rewrite E; exact Hcache).
    destruct (onText_ledger_success_effect cfg now2 ctx2 w' key d rest
                Hauth2 Hcache' Hlive2 Hs1 Hs2) as [_ Hw].
    rewrite Hw, Hwrites; reflexivity.
Qed.

(** C1 on the example data: Notion refuses the record of [P1]. *)
Lemma C1_witness :
  let w := start [P1; P2] [true; false] in
  let w' := run (onText cfg0 5000 (owner "Lunch")) w in
  trace w'
  = [] ++ [TelegramSend "42" MsgSaving true;
           NotionCreate "Lunch" (rupiah 10000) 0 None false;
           Console LogNotionError;
           Console LogTelegramError;
           TelegramSend "42" MsgFailure true]
  /\ ledger_writes (trace w') = ledger_writes []
  /\ cache w' = [P1; P2]
  /\ (forall (now2 : Z) (ctx2 : Context),
        authorized cfg0 ctx2 ->
        expired now2 (snd P1) = false ->
        next (script w') = true ->
        next (tl (script w')) = true ->
        ledger_writes (trace (run (onText cfg0 now2 ctx2) w'))
        = ledger_writes [] ++ [(message_text ctx2, rupiah 10000)]).
Proof.
  exact (C1_ledger_failure_keeps_entry cfg0 5000 (owner "Lunch")
           (start [P1; P2] [true; false]) (fst P1) (snd P1) [P2]
           eq_refl eq_refl eq_refl eq_refl eq_refl).
Defined.

(** C2 as the specification states it fails on a negative amount: the
    webhook stores a pending entry, announces it on Telegram and answers
    200. *)
Lemma C2_counterexample :
  let w' := run (webhook cfg0 1000 "abc" (rupiah (-5))) (start [] []) in
  is_negative (double_of_Z (-5)) = true
  /\ cache w'
     = [("txn_1000_abc",
         {| t := 3601000;
            v := {| amount := rupiah (-5); timestamp := 1000 |} |})]
  /\ telegram_calls (trace w') = [("42", MsgNewExpense (rupiah (-5)))]
  /\ http_responses (trace w') = [200].
Proof. vm_compute; repeat split; reflexivity. Qed.

(** C2, amended. An event whose amount is missing, equal to zero or not a
    number is rejected at once: the only event is the response 400, the
    cache is unchanged, no message is sent and no collaborator is called.
    A negative number is not rejected: it is stored and announced like a
    positive one. *)
Theorem C2_invalid_amount_rejected (cfg : Config) (now : Z) (rnd : string)
    (a : JsValue) (x : double) (w : World) :
  invalid_amount a ->
  is_negative x = true ->
  (let w' := run (webhook cfg now rnd a) w in
   trace w' = trace w ++ [HttpResponse 400 false None]
   /\ cache w' = cache w
   /\ script w' = script w
   /\ telegram_calls (trace w') = telegram_calls (trace w))
  /\ (let w' := run (webhook cfg now rnd (JsNumber x)) w in
      cache w'
      = cache_set now (generateTransactionId now rnd)
          {| amount := JsNumber x; timestamp := now |} (cache w)
      /\ telegram_calls (trace w')
         = telegram_calls (trace w)
           ++ [(MY_CHAT_ID cfg, MsgNewExpense (JsNumber x))]).
Proof.
  intros Hinvalid Hneg; split.
  - assert (Htest : truthy a = false \/ typeof a <> "number").
    { destruct Hinvalid as [-> | [[y [-> [Hz | Hn]]] | Htype]].
      - left; reflexivity.
      - left; cbn [truthy]; rewrite Hz; reflexivity.
      - left; cbn [truthy]; rewrite Hn; apply andb_false_r.
      - right; exact Htype. }
    intros w'; subst w'.
    rewrite (webhook_rejects cfg now rnd a w Htest); cbn [cache script trace].
    rewrite telegram_calls_app; cbn [telegram_calls flat_map].
    rewrite app_nil_r; repeat split; reflexivity.
  - assert (Hzero : is_zero x = false)
      by (destruct x as [s | s | | s m e]; try discriminate; reflexivity).
    assert (Hnan : is_nan x = false)
      by (destruct x as [s | s | | s m e]; try discriminate; reflexivity).
    intros w'; subst w'.
    rewrite (webhook_accepts cfg now rnd x w Hzero Hnan);
      cbn [cache script trace].
    split; [reflexivity |].
    rewrite telegram_calls_app; f_equal.
    destruct (next (script w)); reflexivity.
Qed.

(** C2 on the example data: a string is refused, minus five is stored. *)
Lemma C2_witness :
  (let w' := run (webhook cfg0 1000 "abc" (JsString "5000"))
               (start [P1] []) in
   trace w' = [] ++ [HttpResponse 400 false None]
   /\ cache w' = [P1]
   /\ script w' = []
   /\ telegram_calls (trace w') = telegram_calls [])
  /\ (let w' := run (webhook cfg0 1000 "abc" (rupiah (-5))) (start [P1] []) in
      cache w'
      = cache_set 1000 (generateTransactionId 1000 "abc")
          {| amount := rupiah (-5); timestamp := 1000 |} [P1]
      /\ telegram_calls (trace w')
         = telegram_calls [] ++ [("42", MsgNewExpense (rupiah (-5)))]).
Proof.
  apply (C2_invalid_amount_rejected cfg0 1000 "abc" (JsString "5000")
           (double_of_Z (-5)) (start [P1] [])).
  - right; right; vm_compute; discriminate.
  - vm_compute; reflexivity.
Defined.

(** Rejected values, evaluated: missing, [null], zero of either sign,
    [NaN], and values of other types. *)
Example webhook_rejects_missing_zero_nan :
  map (fun a => trace (run (webhook cfg0 1000 "abc" a) (start [P1] [])))
      [JsUndefined; JsNull; rupiah 0; JsNumber (S754_zero true);
       JsNumber S754_nan; JsString "abc"; JsBool true; JsObject]
  = repeat [HttpResponse 400 false None] 8.
Proof. vm_compute; reflexivity. Qed.

(** An entry set at [now] is live at every time up to [now] plus the TTL. *)
Lemma fresh_entry_live (now now2 : Z) (value : Transaction) :
  now2 <= now + stdTTL * 1000 ->
  expired now2 {| t := now + stdTTL * 1000; v := value |} = false.
Proof.
  intros H; unfold expired; cbn [t].
  assert (E : (now + stdTTL * 1000 <? now2)%Z = false)
    by (apply Z.ltb_ge; lia).
  rewrite E; apply andb_false_r.
Qed.

(** C8. The webhook accepts an amount and Telegram refuses the message that
    announces it.  The entry was stored before the call: it is in the cache
    under the new identifier, with the amount and the time of arrival, and
    the failure only adds the error log and the response 500.  The entry
    can be read until its TTL is over, and when it is the first of the
    cache a later reply writes its amount to the ledger. *)
Theorem C8_send_failure_keeps_entry (cfg : Config) (now : Z) (rnd : string)
    (x : double) (w : World) :
  is_zero x = false ->
  is_nan x = false ->
  next (script w) = false ->
  let key := generateTransactionId now rnd in
  let entry := {| amount := JsNumber x; timestamp := now |} in
  let w' := run (webhook cfg now rnd (JsNumber x)) w in
  trace w'
  = trace w
    ++ [TelegramSend (MY_CHAT_ID cfg) (MsgNewExpense (JsNumber x)) false;
        Console LogWebhookError;
        HttpResponse 500 false None]
  /\ cache w' = cache_set now key entry (cache w)
  /\ lookup key (cache w') = Some {| t := now + stdTTL * 1000; v := entry |}
  /\ (forall now2 : Z,
        now2 <= now + stdTTL * 1000 ->
        cache_get now2 key (cache w') = (Some entry, cache w'))
  /\ (forall (now2 : Z) (ctx : Context),
        cache w = [] ->
        authorized cfg ctx ->
        now2 <= now + stdTTL * 1000 ->
        next (script w') = true ->
        next (tl (script w')) = true ->
        let w'' := run (onText cfg now2 ctx) w' in
        ledger_writes (trace w'')
        = ledger_writes (trace w) ++ [(message_text ctx, JsNumber x)]
        /\ cache w'' = []).
Proof.
  intros Hzero Hnan Hfail key entry w'.
  assert (E : w' = {| cache := cache_set now key entry (cache w);
                      script := tl (script w);
                      trace := trace w
                        ++ [TelegramSend (MY_CHAT_ID cfg)
                              (MsgNewExpense (JsNumber x)) false;
                            Console LogWebhookError;
                            HttpResponse 500 false None] |}).
  { subst w'. rewrite (webhook_accepts cfg now rnd x w Hzero Hnan).
    rewrite Hfail; reflexivity. }
  assert (Hlookup : lookup key (cache w')
                    = Some {| t := now + stdTTL * 1000; v := entry |})
    by (rewrite E; cbn [cache]; apply lookup_assign_same).
  conj_split.
  - rewrite E; reflexivity.
  - rewrite E; reflexivity.
  - exact Hlookup.
  - intros now2 Hnow2.
    unfold cache_get; rewrite Hlookup, fresh_entry_live by exact Hnow2.
    reflexivity.
  - intros now2 ctx Hempty Hauth Hnow2 Hs1 Hs2 w''.
    assert (Hcache : cache w'
                     = [(key, {| t := now + stdTTL * 1000; v := entry |})])
      by (rewrite E; cbn [cache]; rewrite Hempty; reflexivity).
    destruct (onText_ledger_success_effect cfg now2 ctx w' key _ []
                Hauth Hcache (fresh_entry_live now now2 entry Hnow2) Hs1 Hs2)
      as [Hc Hw].
    subst w''; split.
    + rewrite Hw, E; cbn [trace v amount entry].
      rewrite ledger_writes_app; cbn [ledger_writes flat_map app].
      rewrite app_nil_r; reflexivity.
    + rewrite Hc, Hcache.
      unfold cache_del; cbn [filter fst].
      rewrite String.eqb_refl; reflexivity.
Qed.

(** C8 on the example data: ten thousand rupiah arrive and Telegram refuses
    the announcement. *)
Lemma C8_witness :
  let key := generateTransactionId 1000 "abc" in
  let entry := {| amount := rupiah 10000; timestamp := 1000 |} in
  let w := start [] [false] in
  let w' := run (webhook cfg0 1000 "abc" (rupiah 10000)) w in
  trace w'
  = [] ++ [TelegramSend "42" (MsgNewExpense (rupiah 10000)) false;
           Console LogWebhookError;
           HttpResponse 500 false None]
  /\ cache w' = cache_set 1000 key entry []
  /\ lookup key (cache w') = Some {| t := 1000 + stdTTL * 1000; v := entry |}
  /\ (forall now2 : Z,
        now2 <= 1000 + stdTTL * 1000 ->
        cache_get now2 key (cache w') = (Some entry, cache w'))
  /\ (forall (now2 : Z) (ctx : Context),
        cache w = [] ->
        authorized cfg0 ctx ->
        now2 <= 1000 + stdTTL * 1000 ->
        next (script w') = true ->
        next (tl (script w')) = true ->
        let w'' := run (onText cfg0 now2 ctx) w' in
        ledger_writes (trace w'')
        = ledger_writes [] ++ [(message_text ctx, rupiah 10000)]
        /\ cache w'' = []).
Proof.
  exact (C8_send_failure_keeps_entry cfg0 1000 "abc" (double_of_Z 10000)
           (start [] [false]) eq_refl eq_refl eq_refl).
Defined.

(** The entry stored in spite of the failed announcement, resolved by a
    reply half an hour later. *)
Example send_failure_then_reply :
  let w' := run (webhook cfg0 1000 "abc" (rupiah 10000)) (start [] [false]) in
  ledger_writes (trace (run (onText cfg0 1800000 (owner "Lunch")) w'))
  = [("Lunch", rupiah 10000)].
Proof. vm_compute; reflexivity. Qed.

Lemma lookup_cache_del_other (key k : string) (data : Cache) :
  k <> key -> lookup k (cache_del key data) = lookup k data.
Proof.
  intros Hne; unfold cache_del.
  induction data as [| [k' d] data IH]; cbn [filter lookup fst];
    [reflexivity |].
  destruct (String.eqb_spec k' key) as [-> | _]; cbn [negb lookup].
  - destruct (String.eqb_spec key k) as [E | _];
      [exfalso; apply Hne; symmetry; exact E | exact IH].
  - rewrite IH; reflexivity.
Qed.

(** C10. A reply whose ledger write is accepted removes one entry from the
    cache, the one whose amount it wrote: what is left is the rest of the
    cache in its order.  The key of the written entry is gone, every other
    key still maps to the same stored record (amount, time of arrival, time
    of expiry), and the next reply finds the next entry first and writes
    that one. *)
Theorem C10_resolution_frame (cfg : Config) (now : Z) (ctx : Context)
    (w : World) (key : string) (d : Wrapped) (rest : Cache) :
  authorized cfg ctx ->
  cache w = (key, d) :: rest ->
  NoDup (cache_keys (cache w)) ->
  expired now d = false ->
  next (script w) = true ->
  next (tl (script w)) = true ->
  let w' := run (onText cfg now ctx) w in
  ledger_writes (trace w')
  = ledger_writes (trace w) ++ [(message_text ctx, amount (v d))]
  /\ cache w' = rest
  /\ lookup key (cache w') = None
  /\ (forall k : string, k <> key -> lookup k (cache w') = lookup k (cache w))
  /\ (forall (now2 : Z) (ctx2 : Context) (key2 : string) (d2 : Wrapped)
             (rest2 : Cache),
        rest = (key2, d2) :: rest2 ->
        authorized cfg ctx2 ->
        expired now2 d2 = false ->
        next (script w') = true ->
        next (tl (script w')) = true ->
        let w'' := run (onText cfg now2 ctx2) w' in
        ledger_writes (trace w'')
        = ledger_writes (trace w') ++ [(message_text ctx2, amount (v d2))]
        /\ cache w'' = rest2).
Proof.
  intros Hauth Hcache Hnodup Hlive H1 H2 w'.
  destruct (onText_ledger_success_effect cfg now ctx w key d rest
              Hauth Hcache Hlive H1 H2) as [Hc Hw].
  fold w' in Hc, Hw.
  assert (Hrest : cache w' = rest).
  { rewrite Hc, Hcache. apply cache_del_first.
    rewrite <- Hcache; exact Hnodup. }
  rewrite Hcache in Hnodup; cbn [cache_keys map fst] in Hnodup.
  apply NoDup_cons_iff in Hnodup; destruct Hnodup as [Hnotin Hnodup_rest].
  conj_split.
  - exact Hw.
  - exact Hrest.
  - rewrite Hrest; apply lookup_absent; exact Hnotin.
  - intros k Hne.
    rewrite Hc; apply lookup_cache_del_other; exact Hne.
  - intros now2 ctx2 key2 d2 rest2 Hrest2 Hauth2 Hlive2 Hs1 Hs2 w''.
    assert (Hcache' : cache w' = (key2, d2) :: rest2)
      by (rewrite Hrest; exact Hrest2).
    destruct (onText_ledger_success_effect cfg now2 ctx2 w' key2 d2 rest2
                Hauth2 Hcache' Hlive2 Hs1 Hs2) as [Hc2 Hw2].
    subst w''; split; [exact Hw2 |].
    rewrite Hc2, Hcache'; apply cache_del_first.
    rewrite <- Hrest2; exact Hnodup_rest.
Qed.

(** C10 on the example data: the reply resolves [P1] and leaves [P2]. *)
Lemma C10_witness :
  let w := start [P1; P2] [] in
  let w' := run (onText cfg0 5000 (owner "Lunch")) w in
  ledger_writes (trace w') = ledger_writes [] ++ [("Lunch", rupiah 10000)]
  /\ cache w' = [P2]
  /\ lookup (fst P1) (cache w') = None
  /\ (forall k : string,
        k <> fst P1 -> lookup k (cache w') = lookup k [P1; P2])
  /\ (forall (now2 : Z) (ctx2 : Context) (key2 : string) (d2 : Wrapped)
             (rest2 : Cache),
        [P2] = (key2, d2) :: rest2 ->
        authorized cfg0 ctx2 ->
        expired now2 d2 = false ->
        next (script w') = true ->
        next (tl (script w')) = true ->
        let w'' := run (onText cfg0 now2 ctx2) w' in
        ledger_writes (trace w'')
        = ledger_writes (trace w') ++ [(message_text ctx2, amount (v d2))]
        /\ cache w'' = rest2).
Proof.
  apply (C10_resolution_frame cfg0 5000 (owner "Lunch") (start [P1; P2] [])
           (fst P1) (snd P1) [P2]); try reflexivity.
  repeat constructor; simpl; intuition discriminate.
Defined.

(** ** Replies in sequence *)

Lemma all_accepted_next (answers : list bool) :
  all_accepted answers -> next answers = true.
Proof. intros H; destruct H as [| b l Hb _]; [reflexivity | exact Hb]. Qed.

Lemma all_accepted_tl (answers : list bool) :
  all_accepted answers -> all_accepted (tl answers).
Proof.
  intros H; destruct H as [| b l _ Hl]; [constructor | exact Hl].
Qed.

(** C4 as the specification states it fails when the earliest entry has
    expired and the periodic sweep has not removed it yet: [P2] is pending,
    the reply comes from the authorised chat, and nothing is resolved. *)
Lemma C4_counterexample :
  let w' := run (onText cfg0 3700000 (owner "Lunch")) (start [P1; P2] []) in
  expired 3700000 (snd P1) = true
  /\ expired 3700000 (snd P2) = false
  /\ ledger_calls (trace w') = []
  /\ telegram_calls (trace w') = [("42", MsgNotFoundOrExpired)]
  /\ cache w' = [P2].
Proof. vm_compute; repeat split; reflexivity. Qed.

(** C4, amended. Replies from the authorised chat are served in the order
    in which the keys were inserted.  When each reply finds the first entry
    of the cache live and Telegram and Notion accept every call, each reply
    resolves exactly one transaction, the earliest inserted: the ledger
    receives, reply after reply, the text of the reply with the amount of
    the next entry in insertion order, and the resolved entries are the
    ones removed.  For [P1] then [P2] inserted, the first reply writes the
    amount of [P1] and the second the amount of [P2]. *)
Theorem C4_fifo_resolution (cfg : Config) (rs : list (Z * Context))
    (w : World) :
  Forall (fun r => authorized cfg (snd r)) rs ->
  NoDup (cache_keys (cache w)) ->
  (List.length rs <= List.length (cache w))%nat ->
  all_accepted (script w) ->
  Forall meets_live (combine rs (cache w)) ->
  let w' := replies cfg rs w in
  ledger_writes (trace w')
  = ledger_writes (trace w) ++ map resolution (combine rs (cache w))
  /\ cache w' = skipn (List.length rs) (cache w).
Proof.
  revert w.
  induction rs as [| r rs IH]; intros w Hauth Hnodup Hlen Hacc Hlive w'.
  - subst w'; cbn [replies fold_left combine map List.length skipn].
    rewrite app_nil_r; split; reflexivity.
  - destruct (cache w) as [| [key d] rest] eqn:Hcache;
      [cbn [List.length] in Hlen; lia |].
    apply Forall_cons_iff in Hauth; destruct Hauth as [Hr Hauth].
    cbn [combine] in Hlive.
    apply Forall_cons_iff in Hlive; destruct Hlive as [Hd Hlive].
    unfold meets_live in Hd; cbn [fst snd] in Hd.
    cbn [cache_keys map fst] in Hnodup.
    pose proof Hnodup as Hnodup_all.
    apply NoDup_cons_iff in Hnodup; destruct Hnodup as [Hnotin Hnodup].
    pose proof (onText_resolves cfg (fst r) (snd r) Hr w key d rest Hcache Hd
                  (all_accepted_next _ Hacc)
                  (all_accepted_next _ (all_accepted_tl _ Hacc))
                  (all_accepted_next _
                     (all_accepted_tl _ (all_accepted_tl _ Hacc)))) as E.
    rewrite Hcache, (cache_del_first key d rest Hnodup_all) in E.
    subst w'; cbn [replies fold_left]; rewrite E.
    match goal with
    | |- context [fold_left _ rs ?w1] => set (w1' := w1)
    end.
    assert (Hacc1 : all_accepted (script w1'))
      by (cbn [w1' script]; do 3 apply all_accepted_tl; exact Hacc).
    assert (Hlen1 : (List.length rs <= List.length (cache w1'))%nat)
      by (cbn [w1' cache]; cbn [List.length] in Hlen; lia).
    destruct (IH w1' Hauth Hnodup Hlen1 Hacc1 Hlive) as [Hw Hc].
    unfold replies in Hw, Hc.
    split.
    + rewrite Hw; cbn [w1' trace cache]; rewrite ledger_writes_app.
      cbn [combine map resolution fst snd ledger_writes flat_map app].
      rewrite <- app_assoc; reflexivity.
    + rewrite Hc; reflexivity.
Qed.

(** C4 on the scenario of the specification: [P1] (10000) and [P2] (20000)
    were inserted in this order; the first reply writes 10000 and the second
    20000. *)
Lemma C4_witness :
  let rs := [(5000, owner "Lunch"); (6000, owner "Dinner")] in
  let w := start [P1; P2] [] in
  let w' := replies cfg0 rs w in
  ledger_writes (trace w')
  = ledger_writes [] ++ [("Lunch", rupiah 10000); ("Dinner", rupiah 20000)]
  /\ cache w' = [].
Proof.
  apply (C4_fifo_resolution cfg0
           [(5000, owner "Lunch"); (6000, owner "Dinner")]
           (start [P1; P2] [])).
  - repeat constructor.
  - repeat constructor; simpl; intuition discriminate.
  - simpl; lia.
  - constructor.
  - repeat constructor.
Defined.

Lemma stored_at_expired (ins now : Z) (a : JsValue) :
  0 <= ins ->
  ins + stdTTL * 1000 < now ->
  expired now (stored_at ins a) = true.
Proof.
  intros Hins Hnow; unfold expired, stored_at, stdTTL in *; cbn [t].
  assert (E0 : (ins + 3600 * 1000 =? 0)%Z = false) by (apply Z.eqb_neq; lia).
  assert (E1 : (ins + 3600 * 1000 <? now)%Z = true) by (apply Z.ltb_lt; lia).
  rewrite E0, E1; reflexivity.
Qed.

(** C5 as the specification states it fails: the only entry has expired and
    is still in the cache when the reply arrives.  The answer is the
    not-found-or-expired message, not the nothing-pending one, and the
    cache changes: the expired entry is deleted. *)
Lemma C5_counterexample :
  let w := start [P1] [] in
  let w' := run (onText cfg0 3601001 (owner "Lunch")) w in
  snd P1 = stored_at 1000 (rupiah 10000)
  /\ telegram_calls (trace w') = [("42", MsgNotFoundOrExpired)]
  /\ cache w = [P1]
  /\ cache w' = [].
Proof. vm_compute; repeat split; reflexivity. Qed.

(** C5, amended. An entry stored at [ins] is never written to the ledger by
    a reply that arrives later than [ins] plus the TTL of one hour: such a
    reply either calls the ledger not at all, or calls it for another entry,
    the live one that is first in the cache.  When the expired entry is the
    only one and still in the cache, the reply is answered with the
    not-found-or-expired message, the expired entry is deleted from the
    cache and the ledger is not called.  When the periodic sweep removed it
    before, the reply is answered with the nothing-pending message, the
    cache stays empty and the ledger is not called. *)
Theorem C5_expired_entry_not_resolved (cfg : Config) (ins now : Z)
    (ctx : Context) (w : World) (key : string) (a : JsValue) :
  0 <= ins ->
  ins + stdTTL * 1000 < now ->
  authorized cfg ctx ->
  NoDup (cache_keys (cache w)) ->
  In (key, stored_at ins a) (cache w) ->
  let w' := run (onText cfg now ctx) w in
  (ledger_calls (trace w') = ledger_calls (trace w)
   \/ exists k0 d0 rest,
        cache w = (k0, d0) :: rest
        /\ k0 <> key
        /\ expired now d0 = false
        /\ ledger_calls (trace w')
           = ledger_calls (trace w) ++ [(message_text ctx, amount (v d0))])
  /\ (cache w = [(key, stored_at ins a)] ->
      telegram_calls (trace w')
      = telegram_calls (trace w)
        ++ (chat ctx, MsgNotFoundOrExpired)
           :: (if next (script w) then [] else [(chat ctx, MsgFailure)])
      /\ cache w' = []
      /\ ledger_calls (trace w') = ledger_calls (trace w))
  /\ (let swept := {| cache := checkData now (cache w);
                      script := script w;
                      trace := trace w |} in
      let w'' := run (onText cfg now ctx) swept in
      cache w = [(key, stored_at ins a)] ->
      telegram_calls (trace w'')
      = telegram_calls (trace w)
        ++ (chat ctx, MsgNothingPending)
           :: (if next (script w) then [] else [(chat ctx, MsgFailure)])
      /\ cache w'' = cache swept
      /\ cache w'' = []
      /\ ledger_calls (trace w'') = ledger_calls (trace w)).
Proof.
  intros Hins Hnow Hauth Hnodup Hin w'.
  pose proof (stored_at_expired ins now a Hins Hnow) as Hexp.
  conj_split.
  - destruct (cache w) as [| [k0 d0] rest] eqn:Hcache; [destruct Hin |].
    destruct (expired now d0) eqn:Hd0.
    + left; subst w'.
      rewrite (onText_first_expired cfg now ctx Hauth w k0 d0 rest Hcache Hd0).
      cbn [trace]; rewrite ledger_calls_app.
      unfold recovery; destruct (next (script w));
        cbn [ledger_calls flat_map app]; apply app_nil_r.
    + assert (Hk0 : k0 <> key).
      { intros ->.
        cbn [cache_keys map fst] in Hnodup.
        apply NoDup_cons_iff in Hnodup; destruct Hnodup as [Hnotin _].
        destruct Hin as [E | Hin].
        - injection E as ->. rewrite Hexp in Hd0; discriminate.
        - apply Hnotin.
          change key with (fst (key, stored_at ins a)).
          apply in_map; exact Hin. }
      destruct (next (script w)) eqn:H1.
      * right; exists k0, d0, rest.
        conj_split; [reflexivity | exact Hk0 | exact Hd0 |].
        subst w'.
        destruct (next (tl (script w))) eqn:H2.
        -- rewrite (onText_ledger_success cfg now ctx Hauth w k0 d0 rest)
             by assumption.
           cbn [trace]; rewrite ledger_calls_app; f_equal.
           unfold recovery; destruct (next (tl (tl (script w))));
             reflexivity.
        -- rewrite (onText_ledger_failure cfg now ctx Hauth w k0 d0 rest)
             by assumption.
           cbn [trace]; rewrite ledger_calls_app; reflexivity.
      * left; subst w'.
        rewrite (onText_saving_not_sent cfg now ctx Hauth w k0 d0 rest)
          by assumption.
        cbn [trace]; rewrite ledger_calls_app.
        unfold recovery; cbn [ledger_calls flat_map app]; apply app_nil_r.
  - intros Hcache; subst w'.
    rewrite (onText_first_expired cfg now ctx Hauth w key _ [] Hcache Hexp).
    cbn [cache trace].
    autorewrite with observations; rewrite Hcache.
    unfold cache_del, recovery; cbn [filter fst].
    rewrite String.eqb_refl.
    destruct (next (script w)); cbn [telegram_calls ledger_calls flat_map app
      negb]; rewrite ?app_nil_r; conj_split; reflexivity.
  - intros swept w'' Hcache.
    assert (Hswept : cache swept = []).
    { cbn [swept cache]; rewrite Hcache.
      unfold checkData; cbn [filter snd]; rewrite Hexp; reflexivity. }
    subst w''.
    rewrite (onText_nothing_pending cfg now ctx Hauth swept Hswept).
    cbn [cache trace]; rewrite Hswept.
    cbn [swept script trace].
    autorewrite with observations.
    unfold recovery.
    destruct (next (script w)); cbn [telegram_calls ledger_calls flat_map app];
      rewrite ?app_nil_r; conj_split; reflexivity.
Qed.

(** C5 on the example data: [P1], stored at time 1000, meets a reply one
    millisecond after its hour is over. *)
Lemma C5_witness :
  let w := start [P1] [] in
  let w' := run (onText cfg0 3601001 (owner "Lunch")) w in
  (ledger_calls (trace w') = ledger_calls []
   \/ exists k0 d0 rest,
        [P1] = (k0, d0) :: rest
        /\ k0 <> fst P1
        /\ expired 3601001 d0 = false
        /\ ledger_calls (trace w') = ledger_calls [] ++ [("Lunch", amount (v d0))])
  /\ ([P1] = [(fst P1, stored_at 1000 (rupiah 10000))] ->
      telegram_calls (trace w')
      = telegram_calls [] ++ [("42", MsgNotFoundOrExpired)]
      /\ cache w' = []
      /\ ledger_calls (trace w') = ledger_calls [])
  /\ (let swept := {| cache := checkData 3601001 [P1];
                      script := [];
                      trace := [] |} in
      let w'' := run (onText cfg0 3601001 (owner "Lunch")) swept in
      [P1] = [(fst P1, stored_at 1000 (rupiah 10000))] ->
      telegram_calls (trace w'')
      = telegram_calls [] ++ [("42", MsgNothingPending)]
      /\ cache w'' = cache swept
      /\ cache w'' = []
      /\ ledger_calls (trace w'') = ledger_calls []).
Proof.
  apply (C5_expired_entry_not_resolved cfg0 1000 3601001 (owner "Lunch")
           (start [P1] []) (fst P1) (rupiah 10000)).
  - lia.
  - vm_compute; reflexivity.
  - reflexivity.
  - repeat constructor; simpl; intuition.
  - left; reflexivity.
Defined.

(** ** The sensor and the server together *)

Lemma finite_not_nan (x : double) : is_finite x = true -> is_nan x = false.
Proof. destruct x; try discriminate; reflexivity. Qed.

(** C3. The same amount is submitted twice within 100 ms: two notifications
    of the bank carry [A], the second at most 100 ms after the first, and
    the window holds no live entry for [A] before.  The first is forwarded
    to the webhook, which stores one pending entry and sends one message.
    The second is recognised as a duplicate by the sensor: it ends with a
    log line, nothing is inserted in the window, nothing is sent to the
    server, and the server's state (cache and messages) is what it was.  In
    the end the cache has exactly one entry more and Telegram was called
    exactly once. *)
Theorem C3_duplicate_submission_suppressed (cfg : Config)
    (s1 s2 : StatusBarNotification) (A : double) (t1 t2 now1 now2 : Z)
    (rnd1 rnd2 : string) (window : Window) (w : World) :
  carries s1 A ->
  carries s2 A ->
  is_finite A = true ->
  is_zero A = false ->
  t1 <= t2 <= t1 + 100 ->
  anySameAmount A (removeOld t1 window) = false ->
  lookup (generateTransactionId now1 rnd1) (cache w) = None ->
  let st1 := submit cfg (Some s1) t1 now1 rnd1 (window, w) in
  let st2 := submit cfg (Some s2) t2 now2 rnd2 st1 in
  cache (snd st2)
  = cache w
    ++ [(generateTransactionId now1 rnd1, stored_at now1 (JsNumber A))]
  /\ telegram_calls (trace (snd st2))
     = telegram_calls (trace w)
       ++ [(MY_CHAT_ID cfg, MsgNewExpense (JsNumber A))]
  /\ snd st2 = snd st1
  /\ snd (onNotificationPosted (Some s2) t2 (fst st1))
     = arrival_logs s2 ++ [LogDuplicate A]
  /\ fst st2 = removeOld t2 (fst st1).
Proof.
  intros H1 H2 Hfin Hzero Ht Hnew Hfresh st1 st2.
  pose proof (finite_not_nan A Hfin) as Hnan.
  assert (E1 : st1 = (removeOld t1 window ++ [(t1, A)],
                      run (webhook cfg now1 rnd1 (JsNumber A)) w)).
  { subst st1; unfold submit; cbn [fst snd].
    rewrite (observe_new s1 A t1 window H1 Hnew).
    rewrite fold_left_app.
    unfold arrival_logs; cbn [fold_left deliver].
    unfold sendToServer; rewrite Hfin; reflexivity. }
  assert (Hdup : anySameAmount A (removeOld t2 (fst st1)) = true).
  { rewrite E1; cbn [fst].
    rewrite removeOld_app, anySameAmount_app.
    replace t2 with (t1 + (t2 - t1)) by lia.
    rewrite (removeOld_single t1 (t2 - t1) A) by lia.
    assert (Hage : (t2 - t1 >? DEBOUNCE_TIME) = false)
      by (unfold DEBOUNCE_TIME; rewrite Z.gtb_ltb; apply Z.ltb_ge; lia).
    rewrite Hage, (anySameAmount_single t1 A Hnan).
    apply orb_true_r. }
  pose proof (observe_duplicate s2 A t2 (fst st1) H2 Hdup) as E2.
  assert (E3 : st2 = (removeOld t2 (fst st1), snd st1)).
  { subst st2; unfold submit; rewrite E2.
    rewrite fold_left_app.
    unfold arrival_logs; cbn [fold_left deliver]; reflexivity. }
  rewrite E3, E2; cbn [fst snd].
  rewrite E1; cbn [fst snd].
  rewrite (webhook_accepts cfg now1 rnd1 A w Hzero Hnan);
    cbn [cache trace].
  conj_split; try reflexivity.
  - unfold cache_set, stored_at; apply assign_fresh; exact Hfresh.
  - rewrite telegram_calls_app; f_equal.
    destruct (next (script w)); reflexivity.
Qed.

(** C3 on the example data: the same payment is notified twice, 100 ms
    apart. *)
Lemma C3_witness :
  let st1 := submit cfg0 (Some payment_10000) 1000 1200 "abc" ([], start [] [])
  in
  let st2 := submit cfg0 (Some payment_10000) 1100 1300 "def" st1 in
  cache (snd st2)
  = [] ++ [(generateTransactionId 1200 "abc", stored_at 1200 (rupiah 10000))]
  /\ telegram_calls (trace (snd st2))
     = telegram_calls [] ++ [("42", MsgNewExpense (rupiah 10000))]
  /\ snd st2 = snd st1
  /\ snd (onNotificationPosted (Some payment_10000) 1100 (fst st1))
     = arrival_logs payment_10000 ++ [LogDuplicate (double_of_Z 10000)]
  /\ fst st2 = removeOld 1100 (fst st1).
Proof.
  apply (C3_duplicate_submission_suppressed cfg0 payment_10000 payment_10000
           (double_of_Z 10000) 1000 1100 1200 1300 "abc" "def" []
           (start [] [])).
  - split; vm_compute; reflexivity.
  - split; vm_compute; reflexivity.
  - vm_compute; reflexivity.
  - vm_compute; reflexivity.
  - lia.
  - vm_compute; reflexivity.
  - vm_compute; reflexivity.
Defined.

(** The webhook itself keeps no window: two requests with the same amount
    make two entries and two messages.  Duplicates are stopped in the
    sensor, before the request is made. *)
Example webhook_alone_does_not_deduplicate :
  let w1 := run (webhook cfg0 1000 "abc" (rupiah 10000)) (start [] []) in
  let w2 := run (webhook cfg0 1050 "def" (rupiah 10000)) w1 in
  List.length (cache w2) = 2%nat
  /\ List.length (telegram_calls (trace w2)) = 2%nat.
Proof. vm_compute; split; reflexivity. Qed.

(** C7 on the example data: the same payment is notified four times. *)
Lemma C7_witness :
  let s := payment_10000 in
  let A := double_of_Z 10000 in
  let r1 := onNotificationPosted (Some s) 1000 [] in
  let r2 := onNotificationPosted (Some s) (1000 + 1) (fst r1) in
  let r3 := onNotificationPosted (Some s) (1000 + 4999) (fst r2) in
  let r4 := onNotificationPosted (Some s) (1000 + 5001) (fst r3) in
  (snd r1 = arrival_logs s ++ [LogAmountExtracted A; SendToServer A]
   /\ fst r1 = removeOld 1000 [] ++ [(1000, A)])
  /\ (snd r2 = arrival_logs s ++ [LogDuplicate A]
      /\ fst r2 = removeOld (1000 + 1) (fst r1))
  /\ (snd r3 = arrival_logs s ++ [LogDuplicate A]
      /\ fst r3 = removeOld (1000 + 4999) (fst r2))
  /\ (snd r4 = arrival_logs s ++ [LogAmountExtracted A; SendToServer A]
      /\ fst r4 = removeOld (1000 + 5001) (fst r3) ++ [(1000 + 5001, A)]
      /\ ~ In (1000, A) (removeOld (1000 + 5001) (fst r3))).
Proof.
  apply (C7_dedup_window payment_10000 payment_10000 payment_10000
           payment_10000 (double_of_Z 10000) 1000 []).
  - split; vm_compute; reflexivity.
  - split; vm_compute; reflexivity.
  - split; vm_compute; reflexivity.
  - split; vm_compute; reflexivity.
  - vm_compute; reflexivity.
Defined.

(** * Further properties of the sensor *)

(** ** What [extractAmount] can return *)

Lemma digit_value_range (c : CodePoint) :
  is_ascii_digit c = true -> 0 <= Z.of_N c - 48 <= 9.
Proof.
  unfold is_ascii_digit.
  intros H; apply andb_true_iff in H; destruct H as [H1 H2].
  apply N.leb_le in H1, H2; lia.
Qed.

Lemma decimal_value_nonneg (s : Text) (acc : Z) :
  forallb is_ascii_digit s = true -> 0 <= acc -> 0 <= decimal_value acc s.
Proof.
  revert acc.
  induction s as [| c s IH]; intros acc H Hacc; cbn [decimal_value];
    [exact Hacc |].
  cbn [forallb] in H; apply andb_true_iff in H; destruct H as [Hc Hs].
  apply IH; [exact Hs |].
  pose proof (digit_value_range c Hc); lia.
Qed.

Lemma binary_round_aux_not_negative (mx ex : Z) (lx : location) :
  is_negative (binary_round_aux 53 1024 false mx ex lx) = false.
Proof.
  unfold binary_round_aux.
  destruct (shr_fexp 53 1024 mx ex lx) as [mrs1 e1].
  destruct (shr_fexp 53 1024
              (round_nearest_even (shr_m mrs1) (loc_of_shr_record mrs1))
              e1 loc_Exact) as [mrs2 e2].
  destruct (shr_m mrs2) as [| p | p]; try reflexivity.
  destruct (e2 <=? 1024 - 53)%Z; reflexivity.
Qed.

Lemma double_of_Z_not_negative (n : Z) :
  0 <= n -> is_negative (double_of_Z n) = false.
Proof.
  intros Hn; unfold double_of_Z, binary_normalize.
  destruct n as [| p | p]; [reflexivity | | lia].
  unfold binary_round.
  destruct (shl_align p 0 (fexp 53 1024 (Z.pos (digits2_pos p) + 0))).
  apply binary_round_aux_not_negative.
Qed.

(** X1. Whatever the text, an amount that [extractAmount] returns is a
    non-negative whole number rounded to binary64: it is never [NaN] and
    never negative (it may be zero, and infinite for a very long run of
    digits). *)
Theorem X1_extractAmount_whole_number (text : Text) (x : double) :
  extractAmount text = Some x ->
  exists n : Z,
    0 <= n /\ x = double_of_Z n /\ is_nan x = false /\ is_negative x = false.
Proof.
  unfold extractAmount.
  destruct (find amount_pattern text) as [caps |]; [| discriminate].
  unfold toDoubleOrNull.
  destruct (remove_char is_comma (remove_char is_dot (group_value 2 caps)))
    as [| c s] eqn:E; [discriminate |].
  destruct (forallb is_ascii_digit (c :: s)) eqn:Hd; [| discriminate].
  intros H; injection H as <-.
  exists (decimal_value 0 (c :: s)).
  assert (Hn : 0 <= decimal_value 0 (c :: s))
    by (apply decimal_value_nonneg; [exact Hd | lia]).
  conj_split; [exact Hn | reflexivity | apply double_of_Z_not_nan |].
  apply double_of_Z_not_negative; exact Hn.
Qed.

(** X1 on a text of the bank. *)
Lemma X1_witness :
  exists n : Z,
    0 <= n /\ double_of_Z 50000 = double_of_Z n
    /\ is_nan (double_of_Z 50000) = false
    /\ is_negative (double_of_Z 50000) = false.
Proof.
  apply (X1_extractAmount_whole_number
           (text_of_string "Kamu membayar Rp 50.000 ke Warung")).
  vm_compute; reflexivity.
Defined.

(** ** Texts of the expected shape *)

Lemma not_marker_start_no_pair (c : CodePoint) (s : Text) :
  not_marker_start c = true -> pair_here (c :: s) = None.
Proof.
  unfold not_marker_start; intros H.
  apply andb_true_iff in H; destruct H as [HI HR].
  apply negb_true_iff in HI, HR.
  unfold pair_here, after_marker; markers; cbn [strip_prefix].
  rewrite (N.eqb_sym 73 c), HI, (N.eqb_sym 82 c), HR.
  reflexivity.
Qed.

Lemma first_pair_skips (pre s : Text) :
  forallb not_marker_start pre = true ->
  first_pair (pre ++ s) = first_pair s.
Proof.
  induction pre as [| c pre IH]; intros H; [reflexivity |].
  cbn [forallb] in H; apply andb_true_iff in H; destruct H as [Hc Hpre].
  cbn [app first_pair].
  rewrite (not_marker_start_no_pair c _ Hc).
  exact (IH Hpre).
Qed.

(** X2. A text in which no [I] and no [R] comes before the marker ([IDR] or
    [Rp]), the marker is followed by white space (possibly none) and then
    by a run [tok] of digits, dots and commas that ends where the text ends
    or another character begins: the amount is the whole number that the
    digits of [tok] spell, whatever comes before and after.  Dots and
    commas are dropped wherever they stand.  White space and digits are
    those of Unicode, as the pattern reads them on the device; a run
    without digits gives no amount, and so does a run with a digit of
    another script than [0] to [9]. *)
Theorem X2_extractAmount_expected_shape (pre marker ws tok rest : Text) :
  forallb not_marker_start pre = true ->
  marker = text_of_string "IDR" \/ marker = text_of_string "Rp" ->
  forallb is_space ws = true ->
  tok <> [] ->
  forallb is_amount_char tok = true ->
  run_ends rest ->
  extractAmount (pre ++ marker ++ ws ++ tok ++ rest)
  = amount_spelled (filter is_digit tok).
Proof.
  intros Hpre Hmarker Hws Htok Hchars Hrest.
  rewrite extractAmount_scan, (first_pair_skips _ _ Hpre).
  rewrite (first_pair_here _ tok
             (pair_here_written marker ws tok rest Hmarker Hws Htok Hchars
                Hrest)).
  apply toDoubleOrNull_spelled.
Qed.

(** X2 on a text of the bank, a no-break space after the marker. *)
Lemma X2_witness :
  extractAmount
    (text_of_string "Kamu membayar " ++ text_of_string "Rp" ++ [160%N]
     ++ text_of_string "1.250.000" ++ text_of_string " ke Warung")
  = Some (double_of_Z 1250000).
Proof.
  apply (X2_extractAmount_expected_shape (text_of_string "Kamu membayar ")
           (text_of_string "Rp") [160%N] (text_of_string "1.250.000")
           (text_of_string " ke Warung")).
  - vm_compute; reflexivity.
  - right; reflexivity.
  - vm_compute; reflexivity.
  - discriminate.
  - vm_compute; reflexivity.
  - vm_compute; reflexivity.
Defined.

(** ** Runs of the sensor *)

(** The three outcomes of one call: nothing processed, a duplicate, a new
    amount. *)
Lemma posted_cases (sbn : option StatusBarNotification) (now : Z)
    (window : Window) :
  let r := onNotificationPosted sbn now window in
  (fst r = window /\ sent_amounts (snd r) = [])
  \/ (exists A, fst r = removeOld now window
                /\ sent_amounts (snd r) = []
                /\ anySameAmount A (removeOld now window) = true)
  \/ (exists A, fst r = removeOld now window ++ [(now, A)]
                /\ sent_amounts (snd r) = [A]
                /\ anySameAmount A (removeOld now window) = false).
Proof.
  unfold onNotificationPosted.
  destruct sbn as [sbn |]; [| left; split; reflexivity].
  destruct (negb (packageName sbn =? JAGO_PACKAGE)%string);
    [left; split; reflexivity |].
  destruct (extractAmount (orEmpty (android_text sbn))) as [A |];
    [| left; split; reflexivity].
  cbn zeta.
  destruct (anySameAmount A (removeOld now window)) eqn:E.
  - right; left; exists A; conj_split; try reflexivity; exact E.
  - right; right; exists A; conj_split; try reflexivity; exact E.
Qed.

Lemma removeOld_In (now : Z) (window : Window) (p : Z * double) :
  In p (removeOld now window)
  <-> In p window /\ older_than_window now p = false.
Proof.
  unfold removeOld; rewrite filter_In, negb_true_iff; reflexivity.
Qed.

Lemma wrap64_exact (z : Z) : - 2 ^ 63 <= z < 2 ^ 63 -> wrap64 z = z.
Proof. intros H; unfold wrap64; rewrite Z.mod_small by lia; lia. Qed.

(** An entry whose time is behind the clock is kept or is too old. *)
Lemma removeOld_or_old (now : Z) (window : Window) (p : Z * double) :
  In p window ->
  0 <= fst p <= now ->
  now < 2 ^ 63 ->
  In p (removeOld now window) \/ now - fst p > DEBOUNCE_TIME.
Proof.
  intros Hin Hp Hnow.
  destruct (older_than_window now p) eqn:E.
  - right; unfold older_than_window in E.
    rewrite wrap64_exact in E by lia.
    apply Z.gtb_lt in E; lia.
  - left; apply removeOld_In; split; assumption.
Qed.

Lemma anySameAmount_false_In (A : double) (window : Window)
    (p : Z * double) :
  anySameAmount A window = false -> In p window ->
  double_eqb (snd p) A = false.
Proof.
  unfold anySameAmount; intros H Hin.
  destruct (double_eqb (snd p) A) eqn:E; [| reflexivity].
  assert (Hex : existsb (fun q => double_eqb (snd q) A) window = true)
    by (apply existsb_exists; exists p; split; assumption).
  rewrite Hex in H; discriminate.
Qed.

Lemma sent_log_after (events : list (option StatusBarNotification * Z)) :
  forall (window : Window) (last : Z) (q : Z * double),
    clock_ok last (map snd events) ->
    In q (sent_log events window) ->
    last <= fst q.
Proof.
  induction events as [| [sbn now] events IH]; intros window last q Hclock Hin;
    [destruct Hin |].
  cbn [map snd clock_ok] in Hclock; destruct Hclock as [Hnow Hclock].
  cbn [sent_log] in Hin.
  destruct (onNotificationPosted sbn now window) as [window1 effs1].
  apply in_app_or in Hin; destruct Hin as [Hin | Hin].
  - apply in_map_iff in Hin; destruct Hin as [a [<- _]]; cbn [fst]; lia.
  - pose proof (IH window1 now q Hclock Hin); lia.
Qed.

Lemma spacing_invariant (events : list (option StatusBarNotification * Z)) :
  forall (window : Window) (last : Z),
    0 <= last ->
    clock_ok last (map snd events) ->
    (forall p, In p window -> 0 <= fst p <= last) ->
    ForallOrdPairs well_spaced (sent_log events window)
    /\ (forall p q, In p window -> In q (sent_log events window) ->
                    well_spaced p q).
Proof.
  induction events as [| [sbn now] events IH]; intros window last Hlast Hclock
    Hwindow.
  - split; [constructor | intros p q _ []].
  - cbn [map snd clock_ok] in Hclock; destruct Hclock as [Hnow Hclock].
    cbn [sent_log].
    pose proof (posted_cases sbn now window) as Hcases; cbn zeta in Hcases.
    destruct (onNotificationPosted sbn now window) as [window1 effs1].
    cbn [fst snd] in Hcases.
    assert (Hnow0 : 0 <= now) by lia.
    assert (Hlater : forall p q,
               In p window -> now - fst p > DEBOUNCE_TIME ->
               In q (sent_log events window1) -> well_spaced p q).
    { intros p q Hp Hold Hq _.
      pose proof (sent_log_after events window1 now q Hclock Hq); lia. }
    destruct Hcases as [[-> ->] | [[A [-> [-> Hdup]]] | [A [-> [-> Hnew]]]]];
      cbn [map app].
    + apply (IH window now Hnow0 Hclock).
      intros p Hp; pose proof (Hwindow p Hp); lia.
    + destruct (IH (removeOld now window) now Hnow0 Hclock) as [IH1 IH2].
      { intros p Hp; apply removeOld_In in Hp; destruct Hp as [Hp _].
        pose proof (Hwindow p Hp); lia. }
      split; [exact IH1 |].
      intros p q Hp Hq.
      destruct (removeOld_or_old now window p Hp) as [Hkept | Hold];
        [pose proof (Hwindow p Hp); lia | lia | |].
      * exact (IH2 p q Hkept Hq).
      * exact (Hlater p q Hp Hold Hq).
    + destruct (IH (removeOld now window ++ [(now, A)]) now Hnow0 Hclock)
        as [IH1 IH2].
      { intros p Hp; apply in_app_or in Hp; destruct Hp as [Hp | [<- | []]].
        - apply removeOld_In in Hp; destruct Hp as [Hp _].
          pose proof (Hwindow p Hp); lia.
        - cbn [fst]; lia. }
      split.
      * constructor; [| exact IH1].
        apply Forall_forall; intros q Hq.
        apply IH2; [apply in_or_app; right; left; reflexivity | exact Hq].
      * intros p q Hp [<- | Hq].
        -- destruct (removeOld_or_old now window p Hp) as [Hkept | Hold];
             [pose proof (Hwindow p Hp); lia | lia | |].
           ++ intros Heq; cbn [snd] in Heq.
              rewrite (anySameAmount_false_In A _ p Hnew Hkept) in Heq.
              discriminate.
           ++ intros _; cbn [fst]; exact Hold.
        -- destruct (removeOld_or_old now window p Hp) as [Hkept | Hold];
             [pose proof (Hwindow p Hp); lia | lia | |].
           ++ apply IH2; [apply in_or_app; left; exact Hkept | exact Hq].
           ++ exact (Hlater p q Hp Hold Hq).
Qed.

(** X3. The guarantee of the duplicate window over a whole run.  The
    service starts with an empty list and is called on any notifications,
    of any application and with any text, while the clock never goes back:
    whenever it forwards two equal amounts, the second is forwarded more
    than 5000 ms after the first. *)
Theorem X3_equal_amounts_sent_apart
    (events : list (option StatusBarNotification * Z)) :
  clock_ok 0 (map snd events) ->
  ForallOrdPairs well_spaced (sent_log events []).
Proof.
  intros Hclock.
  apply (spacing_invariant events [] 0); [lia | exact Hclock |].
  intros p [].
Qed.

(** X3 on a run: the same payment notified at 1000, 3000, 6000 and 6001. *)
Lemma X3_witness :
  ForallOrdPairs well_spaced
    (sent_log [(Some payment_10000, 1000); (Some payment_10000, 3000);
               (None, 4000); (Some payment_10000, 6000);
               (Some payment_10000, 6001)] []).
Proof.
  apply X3_equal_amounts_sent_apart.
  cbn [map snd clock_ok]; lia.
Defined.

Example sent_log_of_the_run :
  sent_log [(Some payment_10000, 1000); (Some payment_10000, 3000);
            (None, 4000); (Some payment_10000, 6000);
            (Some payment_10000, 6001)] []
  = [(1000, double_of_Z 10000); (6001, double_of_Z 10000)].
Proof. vm_compute; reflexivity. Qed.

(** Every entry of the list was there at the start or was forwarded. *)
Lemma window_from_sends (events : list (option StatusBarNotification * Z)) :
  forall (window : Window) (p : Z * double),
    In p (fst (posted_all events window)) ->
    In p window \/ In p (sent_log events window).
Proof.
  induction events as [| [sbn now] events IH]; intros window p Hin;
    [left; exact Hin |].
  cbn [posted_all sent_log] in *.
  pose proof (posted_cases sbn now window) as Hcases; cbn zeta in Hcases.
  destruct (onNotificationPosted sbn now window) as [window1 effs1].
  cbn [fst snd] in Hcases.
  pose proof (IH window1 p) as IHp.
  destruct (posted_all events window1) as [window2 effs2].
  cbn [fst] in *.
  destruct (IHp Hin) as [H1 | H1];
    [| right; apply in_or_app; right; exact H1].
  destruct Hcases as [[-> _] | [[A [-> _]] | [A [-> [-> _]]]]].
  - left; exact H1.
  - left; apply removeOld_In in H1; tauto.
  - apply in_app_or in H1; destruct H1 as [H1 | [<- | []]].
    + left; apply removeOld_In in H1; tauto.
    + right; left; reflexivity.
Qed.

(** X4. No amount is dropped without cause.  After any run from the empty
    list, a notification of the bank that carries [A] and is not forwarded
    has a reason in the run: an equal amount was forwarded before, and the
    clock shows at most 5000 ms more than when that one was posted. *)
Theorem X4_suppression_has_a_cause
    (events : list (option StatusBarNotification * Z))
    (sbn : StatusBarNotification) (A : double) (now : Z) :
  carries sbn A ->
  let window := fst (posted_all events []) in
  sent_amounts (snd (onNotificationPosted (Some sbn) now window)) = [] ->
  exists p : Z * double,
    In p (sent_log events [])
    /\ double_eqb (snd p) A = true
    /\ wrap64 (now - fst p) <= DEBOUNCE_TIME.
Proof.
  intros Hcarries window Hnone.
  destruct (anySameAmount A (removeOld now window)) eqn:Hany.
  - unfold anySameAmount in Hany.
    apply existsb_exists in Hany; destruct Hany as [p [Hp Heq]].
    apply removeOld_In in Hp; destruct Hp as [Hp Hrecent].
    exists p; conj_split.
    + destruct (window_from_sends events [] p Hp) as [[] | H]; exact H.
    + exact Heq.
    + unfold older_than_window in Hrecent.
      destruct (Z.gtb_spec (wrap64 (now - fst p)) DEBOUNCE_TIME) as [H | H];
        [discriminate | exact H].
  - rewrite (observe_new sbn A now window Hcarries Hany) in Hnone.
    cbn [snd] in Hnone; unfold sent_amounts in Hnone.
    rewrite flat_map_app in Hnone.
    apply app_eq_nil in Hnone; destruct Hnone as [_ Hnone].
    discriminate.
Qed.

(** X4 on a run: the payment was forwarded at 1000 and is notified again at
    3000. *)
Lemma X4_witness :
  exists p : Z * double,
    In p (sent_log [(Some payment_10000, 1000)] [])
    /\ double_eqb (snd p) (double_of_Z 10000) = true
    /\ wrap64 (3000 - fst p) <= DEBOUNCE_TIME.
Proof.
  apply (X4_suppression_has_a_cause [(Some payment_10000, 1000)]
           payment_10000 (double_of_Z 10000) 3000).
  - split; vm_compute; reflexivity.
  - vm_compute; reflexivity.
Defined.

(** ** The list of processed amounts *)

Lemma distinct_amounts_removeOld (now : Z) (window : Window) :
  distinct_amounts window -> distinct_amounts (removeOld now window).
Proof.
  unfold distinct_amounts, removeOld.
  induction 1 as [| p l Hp Hl IH]; cbn [filter]; [constructor |].
  destruct (negb (older_than_window now p)); [| exact IH].
  constructor; [| exact IH].
  apply Forall_forall; intros q Hq.
  apply filter_In in Hq; destruct Hq as [Hq _].
  rewrite Forall_forall in Hp; exact (Hp q Hq).
Qed.

Lemma distinct_amounts_add (window : Window) (now : Z) (A : double) :
  distinct_amounts window ->
  anySameAmount A window = false ->
  distinct_amounts (window ++ [(now, A)]).
Proof.
  unfold distinct_amounts.
  induction 1 as [| p l Hp Hl IH]; intros Hnew; cbn [app].
  - constructor; constructor.
  - unfold anySameAmount in Hnew; cbn [existsb] in Hnew.
    apply orb_false_iff in Hnew; destruct Hnew as [HpA HlA].
    constructor; [| exact (IH HlA)].
    apply Forall_app; split; [exact Hp |].
    constructor; [exact HpA | constructor].
Qed.

(** X5. The list of processed amounts never holds the same amount twice:
    when no two of its entries are equal before a run, whatever the
    notifications and whatever the clock shows, no two are equal after. *)
Theorem X5_window_amounts_distinct
    (events : list (option StatusBarNotification * Z)) (window : Window) :
  distinct_amounts window ->
  distinct_amounts (fst (posted_all events window)).
Proof.
  revert window.
  induction events as [| [sbn now] events IH]; intros window Hdistinct;
    [exact Hdistinct |].
  cbn [posted_all].
  pose proof (posted_cases sbn now window) as Hcases; cbn zeta in Hcases.
  destruct (onNotificationPosted sbn now window) as [window1 effs1].
  cbn [fst snd] in Hcases.
  pose proof (IH window1) as IH1.
  destruct (posted_all events window1) as [window2 effs2]; cbn [fst] in *.
  apply IH1.
  destruct Hcases as [[-> _] | [[A [-> _]] | [A [-> [_ Hnew]]]]].
  - exact Hdistinct.
  - apply distinct_amounts_removeOld; exact Hdistinct.
  - apply distinct_amounts_add;
      [apply distinct_amounts_removeOld; exact Hdistinct | exact Hnew].
Qed.

(** X5 on a run: two payments are in the list and one of them is notified
    again, within the window and after it. *)
Lemma X5_witness :
  distinct_amounts
    (fst (posted_all [(Some payment_10000, 2000); (Some payment_10000, 9000)]
            [(1000, double_of_Z 10000); (1500, double_of_Z 20000)])).
Proof.
  apply X5_window_amounts_distinct.
  repeat constructor.
Defined.

(** * Further properties of the server *)

(** ** Transaction identifiers *)

Lemma to_int_not_nil (z : Z) :
  Z.to_int z <> Decimal.Pos Decimal.Nil
  /\ Z.to_int z <> Decimal.Neg Decimal.Nil.
Proof.
  destruct z as [| p | p]; cbn; split; try discriminate;
    intros E; injection E; apply DecimalPos.Unsigned.to_uint_nonnil.
Qed.

Lemma int_toString_inj (a b : Z) : int_toString a = int_toString b -> a = b.
Proof.
  unfold int_toString; intros H.
  apply DecimalZ.to_int_inj.
  destruct (to_int_not_nil a) as [Ha1 Ha2].
  destruct (to_int_not_nil b) as [Hb1 Hb2].
  pose proof (NilZero.isi (Z.to_int a) Ha1 Ha2) as Ia.
  pose proof (NilZero.isi (Z.to_int b) Hb1 Hb2) as Ib.
  rewrite H, Ib in Ia; injection Ia as Ia; symmetry; exact Ia.
Qed.

Lemma string_of_uint_no_underscore (d : Decimal.uint) :
  all_chars (fun c => negb (is_underscore c)) (NilEmpty.string_of_uint d)
  = true.
Proof. induction d; cbn; auto. Qed.

Lemma int_toString_no_underscore (z : Z) :
  all_chars (fun c => negb (is_underscore c)) (int_toString z) = true.
Proof.
  unfold int_toString, NilZero.string_of_int, NilZero.string_of_uint.
  destruct (Z.to_int z) as [d | d]; destruct d;
    try reflexivity; cbn [all_chars];
    try (rewrite string_of_uint_no_underscore; reflexivity).
Qed.

(** Two strings cut at their first [_] are equal part by part. *)
Lemma split_at_underscore (s1 s2 r1 r2 : string) :
  all_chars (fun c => negb (is_underscore c)) s1 = true ->
  all_chars (fun c => negb (is_underscore c)) s2 = true ->
  (s1 ++ String "_" r1)%string = (s2 ++ String "_" r2)%string ->
  s1 = s2 /\ r1 = r2.
Proof.
  revert s2.
  induction s1 as [| c s1 IH]; intros s2 H1 H2 E.
  - destruct s2 as [| c2 s2]; cbn in E.
    + injection E as ->; split; reflexivity.
    + injection E as <- _.
      cbn in H2; discriminate.
  - destruct s2 as [| c2 s2]; cbn in E.
    + injection E as -> _.
      cbn in H1; discriminate.
    + injection E as -> E.
      cbn [all_chars] in H1, H2.
      apply andb_true_iff in H1, H2.
      destruct (IH s2 (proj2 H1) (proj2 H2) E) as [-> ->].
      split; reflexivity.
Qed.

Lemma generateTransactionId_inj (now1 now2 : Z) (rnd1 rnd2 : string) :
  generateTransactionId now1 rnd1 = generateTransactionId now2 rnd2 ->
  now1 = now2 /\ rnd1 = rnd2.
Proof.
  unfold generateTransactionId; intros E.
  cbn [String.append] in E.
  injection E as E.
  change ("_" ++ rnd1)%string with (String "_" rnd1) in E.
  change ("_" ++ rnd2)%string with (String "_" rnd2) in E.
  destruct (split_at_underscore _ _ _ _
              (int_toString_no_underscore now1)
              (int_toString_no_underscore now2) E) as [Hnow ->].
  split; [exact (int_toString_inj _ _ Hnow) | reflexivity].
Qed.

(** X6. The identifier of a transaction determines the time and the random
    suffix it was made from: two identifiers are equal exactly when both
    parts are, whatever characters the suffix holds. *)
Theorem X6_transaction_id_determines_parts (now1 now2 : Z)
    (rnd1 rnd2 : string) :
  generateTransactionId now1 rnd1 = generateTransactionId now2 rnd2
  <-> now1 = now2 /\ rnd1 = rnd2.
Proof.
  split; [apply generateTransactionId_inj | intros [-> ->]; reflexivity].
Qed.

(** ** The webhook and the cache *)

Lemma assign_twice (key : string) (d1 d2 : Wrapped) (data : Cache) :
  assign key d2 (assign key d1 data) = assign key d2 data.
Proof.
  induction data as [| [k d] data IH]; cbn [assign].
  - rewrite String.eqb_refl; reflexivity.
  - destruct (k =? key)%string eqn:E; cbn [assign]; rewrite E;
      [reflexivity | rewrite IH; reflexivity].
Qed.

Lemma lookup_assign_other (key k : string) (d : Wrapped) (data : Cache) :
  k <> key -> lookup k (assign key d data) = lookup k data.
Proof.
  intros Hne.
  induction data as [| [k' d'] data IH]; cbn [assign lookup].
  - destruct (String.eqb_spec key k) as [E | _];
      [exfalso; apply Hne; symmetry; exact E | reflexivity].
  - destruct (String.eqb_spec k' key) as [-> | Hk']; cbn [lookup].
    + destruct (String.eqb_spec key k) as [E | _];
        [exfalso; apply Hne; symmetry; exact E | reflexivity].
    + rewrite IH; reflexivity.
Qed.

(** X7. Two amounts that the webhook accepts, one after the other.  Both
    are announced on Telegram.  When they arrive in the same millisecond
    and draw the same suffix, the second takes the key of the first: the
    cache is what it would be had the first never arrived, and the first
    amount can no more be confirmed.  In every other case both are in the
    cache, each under its own key. *)
Theorem X7_same_id_overwrites (cfg : Config) (now1 now2 : Z)
    (rnd1 rnd2 : string) (x1 x2 : double) (w : World) :
  is_zero x1 = false -> is_nan x1 = false ->
  is_zero x2 = false -> is_nan x2 = false ->
  let id1 := generateTransactionId now1 rnd1 in
  let id2 := generateTransactionId now2 rnd2 in
  let w1 := run (webhook cfg now1 rnd1 (JsNumber x1)) w in
  let w2 := run (webhook cfg now2 rnd2 (JsNumber x2)) w1 in
  telegram_calls (trace w2)
  = telegram_calls (trace w)
    ++ [(MY_CHAT_ID cfg, MsgNewExpense (JsNumber x1));
        (MY_CHAT_ID cfg, MsgNewExpense (JsNumber x2))]
  /\ lookup id2 (cache w2) = Some (stored_at now2 (JsNumber x2))
  /\ (now1 = now2 /\ rnd1 = rnd2 ->
      cache w2 = cache (run (webhook cfg now2 rnd2 (JsNumber x2)) w))
  /\ (now1 <> now2 \/ rnd1 <> rnd2 ->
      lookup id1 (cache w2) = Some (stored_at now1 (JsNumber x1))).
Proof.
  intros Hz1 Hn1 Hz2 Hn2 id1 id2 w1 w2.
  assert (E1 : cache w1 = cache_set now1 id1
                 {| amount := JsNumber x1; timestamp := now1 |} (cache w)
               /\ telegram_calls (trace w1)
                  = telegram_calls (trace w)
                    ++ [(MY_CHAT_ID cfg, MsgNewExpense (JsNumber x1))]).
  { subst w1; rewrite (webhook_accepts cfg now1 rnd1 x1 w Hz1 Hn1).
    cbn [cache trace]; split; [reflexivity |].
    rewrite telegram_calls_app; f_equal.
    destruct (next (script w)); reflexivity. }
  assert (E2 : cache w2 = cache_set now2 id2
                 {| amount := JsNumber x2; timestamp := now2 |} (cache w1)
               /\ telegram_calls (trace w2)
                  = telegram_calls (trace w1)
                    ++ [(MY_CHAT_ID cfg, MsgNewExpense (JsNumber x2))]).
  { subst w2; rewrite (webhook_accepts cfg now2 rnd2 x2 w1 Hz2 Hn2).
    cbn [cache trace]; split; [reflexivity |].
    rewrite telegram_calls_app; f_equal.
    destruct (next (script w1)); reflexivity. }
  destruct E1 as [C1 T1]; destruct E2 as [C2 T2].
  conj_split.
  - rewrite T2, T1, <- app_assoc; reflexivity.
  - rewrite C2; apply lookup_assign_same.
  - intros [-> ->].
    rewrite (webhook_accepts cfg now2 rnd2 x2 w Hz2 Hn2); cbn [cache].
    rewrite C2, C1; unfold cache_set; subst id1 id2.
    apply assign_twice.
  - intros Hdiff.
    assert (Hne : id1 <> id2).
    { intros E; apply generateTransactionId_inj in E.
      destruct E as [E1 E2]; destruct Hdiff as [H | H]; contradiction. }
    rewrite C2; unfold cache_set.
    rewrite (lookup_assign_other id2 id1 _ _ Hne), C1.
    apply lookup_assign_same.
Qed.

(** X7 on the example data: 10000 and 20000 arrive in the same millisecond
    with the same suffix. *)
Lemma X7_witness :
  let id1 := generateTransactionId 1000 "abc" in
  let id2 := generateTransactionId 1000 "abc" in
  let w1 := run (webhook cfg0 1000 "abc" (rupiah 10000)) (start [] []) in
  let w2 := run (webhook cfg0 1000 "abc" (rupiah 20000)) w1 in
  telegram_calls (trace w2)
  = telegram_calls []
    ++ [("42", MsgNewExpense (rupiah 10000));
        ("42", MsgNewExpense (rupiah 20000))]
  /\ lookup id2 (cache w2) = Some (stored_at 1000 (rupiah 20000))
  /\ (1000 = 1000 /\ "abc" = "abc" ->
      cache w2 = cache (run (webhook cfg0 1000 "abc" (rupiah 20000))
                          (start [] [])))
  /\ (1000 <> 1000 \/ "abc" <> "abc" ->
      lookup id1 (cache w2) = Some (stored_at 1000 (rupiah 10000))).
Proof.
  apply (X7_same_id_overwrites cfg0 1000 1000 "abc" "abc"
           (double_of_Z 10000) (double_of_Z 20000) (start [] []));
    vm_compute; reflexivity.
Defined.

Example same_id_leaves_one_entry :
  cache (run (webhook cfg0 1000 "abc" (rupiah 20000))
           (run (webhook cfg0 1000 "abc" (rupiah 10000)) (start [] [])))
  = [("txn_1000_abc", stored_at 1000 (rupiah 20000))].
Proof. vm_compute; reflexivity. Qed.

(** ** Every request is answered *)

Lemma http_responses_app (tr1 tr2 : list Event) :
  http_responses (tr1 ++ tr2) = http_responses tr1 ++ http_responses tr2.
Proof. apply flat_map_app. Qed.

Lemma refused_by_webhook_true (a : JsValue) :
  refused_by_webhook a = true ->
  truthy a = false \/ typeof a <> "number".
Proof.
  unfold refused_by_webhook; intros H.
  apply orb_true_iff in H; destruct H as [H | H].
  - left; apply negb_true_iff; exact H.
  - right; apply negb_true_iff in H.
    intros E; rewrite E in H; discriminate.
Qed.

Lemma refused_by_webhook_false (a : JsValue) :
  refused_by_webhook a = false ->
  exists x, a = JsNumber x /\ is_zero x = false /\ is_nan x = false.
Proof.
  unfold refused_by_webhook; intros H.
  apply orb_false_iff in H; destruct H as [Ht Hn].
  apply negb_false_iff in Ht.
  destruct a as [| | b | x | s | |]; try discriminate.
  exists x; cbn [truthy] in Ht.
  apply andb_true_iff in Ht; destruct Ht as [Hz Hnan].
  apply negb_true_iff in Hz, Hnan; conj_split; [reflexivity | assumption ..].
Qed.

Lemma webhook_never_throws (cfg : Config) (now : Z) (rnd : string)
    (a : JsValue) (w : World) :
  fst (webhook cfg now rnd a w) = Ok tt.
Proof.
  destruct w as [data answers events].
  unfold webhook, webhook_try, webhook_catch, try_catch, bind, external,
    with_cache, emit.
  fold (refused_by_webhook a).
  destruct (refused_by_webhook a); handler_step; [reflexivity |].
  destruct (next answers); reflexivity.
Qed.

(** On a parsed body the route is the handler of the amount. *)
Lemma webhook_request_parsed (cfg : Config) (now : Z) (rnd : string)
    (a : JsValue) (w : World) :
  webhook_request cfg now rnd (BodyParsed a) w = webhook cfg now rnd a w.
Proof. reflexivity. Qed.

(** Without a body the destructuring throws before any other statement. *)
Lemma webhook_request_undefined (cfg : Config) (now : Z) (rnd : string)
    (w : World) :
  webhook_request cfg now rnd BodyUndefined w
  = (Ok tt,
     {| cache := cache w; script := script w;
        trace := trace w ++ [Console LogWebhookError;
                             HttpResponse 500 false None] |}).
Proof.
  destruct w as [data answers events].
  unfold webhook_request, webhook_catch, destructure_amount, try_catch, bind,
    throw, emit.
  handler_step; rewrite <- app_assoc; reflexivity.
Qed.

(** X8. Whatever [req.body] is when the route runs, [undefined] or a parsed
    value with or without an amount, and whatever Telegram does, the route
    lets no exception escape and answers exactly once.  Without a body the
    destructuring throws and the answer is 500, the cache untouched and
    Telegram not called.  With a body the answer is 400 when the amount
    fails the test, 200 when the announcement was sent, 500 when it was
    refused; the identifier returned with 200 is the key under which the
    amount is then found in the cache. *)
Theorem X8_webhook_answers_once (cfg : Config) (now : Z) (rnd : string)
    (body : RequestBody) (w : World) :
  let w' := run (webhook_request cfg now rnd body) w in
  fst (webhook_request cfg now rnd body w) = Ok tt
  /\ http_responses (trace w')
     = http_responses (trace w)
       ++ [match body with
           | BodyUndefined => 500
           | BodyParsed a =>
               if refused_by_webhook a then 400
               else if next (script w) then 200 else 500
           end]
  /\ (body = BodyUndefined ->
      cache w' = cache w
      /\ script w' = script w
      /\ telegram_calls (trace w') = telegram_calls (trace w))
  /\ (forall a : JsValue,
        body = BodyParsed a ->
        refused_by_webhook a = false ->
        next (script w) = true ->
        exists events,
          trace w'
          = events ++ [HttpResponse 200 true
                         (Some (generateTransactionId now rnd))]
          /\ lookup (generateTransactionId now rnd) (cache w')
             = Some (stored_at now a)).
Proof.
  intros w'; subst w'; unfold run.
  destruct body as [| a].
  - rewrite webhook_request_undefined; cbn [fst snd cache script trace].
    conj_split; [reflexivity | | intros _; conj_split | discriminate].
    + rewrite http_responses_app; reflexivity.
    + reflexivity.
    + reflexivity.
    + rewrite telegram_calls_app; cbn; apply app_nil_r.
  - rewrite webhook_request_parsed.
    change (snd (webhook cfg now rnd a w)) with (run (webhook cfg now rnd a) w).
    conj_split; [apply webhook_never_throws | | discriminate |].
    + destruct (refused_by_webhook a) eqn:E.
      * rewrite (webhook_rejects cfg now rnd a w
                   (refused_by_webhook_true a E)).
        cbn [trace]; rewrite http_responses_app; reflexivity.
      * destruct (refused_by_webhook_false a E) as [x [-> [Hz Hn]]].
        rewrite (webhook_accepts cfg now rnd x w Hz Hn); cbn [trace].
        rewrite http_responses_app; f_equal.
        destruct (next (script w)); reflexivity.
    + intros a' Ha E Hsent; injection Ha as <-.
      destruct (refused_by_webhook_false a E) as [x [-> [Hz Hn]]].
      rewrite (webhook_accepts cfg now rnd x w Hz Hn), Hsent;
        cbn [cache trace].
      exists (trace w
              ++ [TelegramSend (MY_CHAT_ID cfg) (MsgNewExpense (JsNumber x))
                    true;
                  Console (LogTransactionReceived
                             (generateTransactionId now rnd) (JsNumber x))]).
      split; [rewrite <- app_assoc; reflexivity |].
      apply lookup_assign_same.
Qed.

(** A request without a parsed body, the cache holding [P1]. *)
Example no_body_is_answered_500 :
  let w' := run (webhook_request cfg0 5000 "abc" BodyUndefined)
              (start [P1] []) in
  http_responses (trace w') = [500] /\ cache w' = [P1]
  /\ telegram_calls (trace w') = [].
Proof. vm_compute; conj_split; reflexivity. Qed.

(** ** What a reply can and cannot do *)

(** Split on the path the text handler takes from [w] and rewrite the run
    into the world that path leaves. *)
Ltac onText_paths cfg now ctx w :=
  let Hauth := fresh "Hauth" in
  let Hcache := fresh "Hcache" in
  let Hd := fresh "Hd" in
  let H1 := fresh "Hsaving" in
  let H2 := fresh "Hledger" in
  let key := fresh "key" in
  let d := fresh "d" in
  let rest := fresh "rest" in
  destruct (String.eqb_spec (int_toString (chat_id ctx)) (MY_CHAT_ID cfg))
    as [Hauth | Hauth];
  [ destruct (cache w) as [| [key d] rest] eqn:Hcache;
    [ rewrite (onText_nothing_pending cfg now ctx Hauth w Hcache)
    | destruct (expired now d) eqn:Hd;
      [ rewrite (onText_first_expired cfg now ctx Hauth w key d rest
                   Hcache Hd)
      | destruct (next (script w)) eqn:H1;
        [ destruct (next (tl (script w))) eqn:H2;
          [ rewrite (onText_ledger_success cfg now ctx Hauth w key d rest
                       Hcache Hd H1 H2)
          | rewrite (onText_ledger_failure cfg now ctx Hauth w key d rest
                       Hcache Hd H1 H2) ]
        | rewrite (onText_saving_not_sent cfg now ctx Hauth w key d rest
                     Hcache Hd H1) ] ] ]
  | rewrite (onText_unauthorized cfg now ctx w Hauth) ].

Lemma cache_del_length (key : string) (data : Cache) :
  (List.length (cache_del key data) <= List.length data)%nat.
Proof. unfold cache_del; apply filter_length_le. Qed.

(** X9. What one reply can do, whoever sends it and whatever the cache and
    the collaborators do.  The ledger is called at most once.  The cache
    never grows.  And a record reaches the ledger only in one way: the
    sender is the configured chat, the first entry of the cache has not
    expired, the record is the text of the reply with the amount of that
    entry, and the key of that entry is deleted. *)
Theorem X9_reply_does_at_most_one_write (cfg : Config) (now : Z)
    (ctx : Context) (w : World) :
  let w' := run (onText cfg now ctx) w in
  (exists calls,
      ledger_calls (trace w') = ledger_calls (trace w) ++ calls
      /\ (List.length calls <= 1)%nat)
  /\ (List.length (cache w') <= List.length (cache w))%nat
  /\ (ledger_writes (trace w') = ledger_writes (trace w)
      \/ exists key d rest,
           authorized cfg ctx
           /\ cache w = (key, d) :: rest
           /\ expired now d = false
           /\ ledger_writes (trace w')
              = ledger_writes (trace w) ++ [(message_text ctx, amount (v d))]
           /\ cache w' = cache_del key (cache w)).
Proof.
  intros w'; subst w'.
  onText_paths cfg now ctx w; cbn [cache trace];
    autorewrite with observations; unfold recovery.
  - conj_split.
    + exists []; destruct (next (script w)); split; cbn; auto.
    + rewrite Hcache; auto.
    + left; destruct (next (script w)); cbn; rewrite app_nil_r; reflexivity.
  - conj_split.
    + exists []; destruct (next (script w)); split; cbn; auto.
    + rewrite Hcache; apply cache_del_length.
    + left; destruct (next (script w)); cbn; rewrite app_nil_r; reflexivity.
  - conj_split.
    + exists [(message_text ctx, amount (v d))].
      destruct (next (tl (tl (script w)))); split; cbn; auto.
    + rewrite Hcache; apply cache_del_length.
    + right; exists key, d, rest.
      conj_split; try assumption; try reflexivity.
      * destruct (next (tl (tl (script w)))); reflexivity.
      * rewrite Hcache; reflexivity.
  - conj_split.
    + exists [(message_text ctx, amount (v d))]; split; cbn; auto.
    + rewrite Hcache; auto.
    + left; cbn; rewrite app_nil_r; reflexivity.
  - conj_split.
    + exists []; split; cbn; auto.
    + rewrite Hcache; auto.
    + left; cbn; rewrite app_nil_r; reflexivity.
  - conj_split.
    + exists []; split; cbn; auto.
    + auto.
    + left; cbn; rewrite app_nil_r; reflexivity.
Qed.

(** X10. The configured chat is always answered, and only that chat.  A
    reply from it makes the handler send at least one message and at most
    three, all to the chat the reply came from.  The first one tells the
    state of the cache: nothing pending when it is empty, not found or
    expired when its first entry has expired, the announcement of the
    write when its first entry is live. *)
Theorem X10_owner_is_always_answered (cfg : Config) (now : Z)
    (ctx : Context) (w : World) :
  authorized cfg ctx ->
  let w' := run (onText cfg now ctx) w in
  exists (m : Message) (more : list (string * Message)),
    telegram_calls (trace w')
    = telegram_calls (trace w) ++ (chat ctx, m) :: more
    /\ (List.length more <= 2)%nat
    /\ Forall (fun cm => fst cm = chat ctx) more
    /\ m = match cache w with
           | [] => MsgNothingPending
           | (_, d) :: _ =>
               if expired now d then MsgNotFoundOrExpired else MsgSaving
           end.
Proof.
  intros Hauth0 w'; subst w'.
  onText_paths cfg now ctx w; [| | | | | contradiction];
    cbn [trace]; autorewrite with observations; unfold recovery;
    try rewrite Hd.
  - exists MsgNothingPending.
    destruct (next (script w)); eexists; cbn;
      (conj_split; [reflexivity | auto | repeat constructor | reflexivity]).
  - exists MsgNotFoundOrExpired.
    destruct (next (script w)); eexists; cbn;
      (conj_split; [reflexivity | auto | repeat constructor | reflexivity]).
  - exists MsgSaving.
    destruct (next (tl (tl (script w)))); eexists; cbn;
      (conj_split; [reflexivity | auto | repeat constructor | reflexivity]).
  - exists MsgSaving; eexists; cbn;
      (conj_split; [reflexivity | auto | repeat constructor | reflexivity]).
  - exists MsgSaving; eexists; cbn;
      (conj_split; [reflexivity | auto | repeat constructor | reflexivity]).
Qed.

(** X10 on the example data: the owner writes while nothing is pending. *)
Lemma X10_witness :
  let w' := run (onText cfg0 5000 (owner "Lunch")) (start [] []) in
  exists (m : Message) (more : list (string * Message)),
    telegram_calls (trace w') = telegram_calls [] ++ ("42", m) :: more
    /\ (List.length more <= 2)%nat
    /\ Forall (fun cm => fst cm = "42") more
    /\ m = MsgNothingPending.
Proof.
  exact (X10_owner_is_always_answered cfg0 5000 (owner "Lunch") (start [] [])
           eq_refl).
Defined.

(** X11. The text handler lets an error escape to [bot.catch] in one case
    only: a call failed, and the failure message that the [catch] block
    sends was refused as well.  In every other case it returns normally,
    also after a refused call. *)
Theorem X11_error_escapes_only_with_the_failure_message (cfg : Config)
    (now : Z) (ctx : Context) (w : World) :
  fst (onText cfg now ctx w) = Throw
  <-> last (trace (run (onText cfg now ctx) w)) (Console LogTelegramError)
      = TelegramSend (chat ctx) MsgFailure false.
Proof.
  destruct w as [data answers events].
  run_handler.
  destruct (int_toString (chat_id ctx) =? MY_CHAT_ID cfg)%string;
    handler_step;
    [| rewrite last_last; split; discriminate].
  destruct data as [| [key d] rest]; handler_step.
  - destruct (next answers); handler_step.
    + rewrite last_last; split; discriminate.
    + destruct (next (tl answers)); handler_step; rewrite last_last;
        split; try discriminate; reflexivity.
  - rewrite lookup_first.
    destruct (expired now d); handler_step.
    + destruct (next answers); handler_step.
      * rewrite last_last; split; discriminate.
      * destruct (next (tl answers)); handler_step; rewrite last_last;
          split; try discriminate; reflexivity.
    + destruct (next answers); handler_step.
      * destruct (next (tl answers)); handler_step.
        -- destruct (next (tl (tl answers))); handler_step.
           ++ rewrite last_last; split; discriminate.
           ++ destruct (next (tl (tl (tl answers)))); handler_step;
                rewrite last_last; split; try discriminate; reflexivity.
        -- destruct (next (tl (tl answers))); handler_step; rewrite last_last;
             split; try discriminate; reflexivity.
      * destruct (next (tl answers)); handler_step; rewrite last_last;
          split; try discriminate; reflexivity.
Qed.

Example both_messages_refused_escapes :
  fst (onText cfg0 5000 (owner "Lunch") (start [] [false; false])) = Throw
  /\ fst (onText cfg0 5000 (owner "Lunch") (start [] [false; true])) = Ok tt.
Proof. vm_compute; split; reflexivity. Qed.

(** ** One hour, to the millisecond *)

Lemma stored_at_expired_iff (ins now : Z) (a : JsValue) :
  0 <= ins ->
  expired now (stored_at ins a) = negb (now <=? ins + stdTTL * 1000)%Z.
Proof.
  intros Hins; unfold expired, stored_at, stdTTL; cbn [t].
  assert (E0 : (ins + 3600 * 1000 =? 0)%Z = false) by (apply Z.eqb_neq; lia).
  rewrite E0; cbn [negb andb].
  destruct (Z.ltb_spec (ins + 3600 * 1000) now);
    destruct (Z.leb_spec now (ins + 3600 * 1000)); try reflexivity; lia.
Qed.

(** X12. An amount stored at [ins] can be confirmed for exactly one hour.
    When its entry is the first of the cache and the calls succeed, a reply
    at [now] writes it to the ledger if [now] is at most [ins] plus 3600000
    ms, the last millisecond included, and writes nothing if [now] is
    later. *)
Theorem X12_confirmable_for_one_hour (cfg : Config) (ins now : Z)
    (ctx : Context) (w : World) (key : string) (a : JsValue) (rest : Cache) :
  0 <= ins ->
  authorized cfg ctx ->
  cache w = (key, stored_at ins a) :: rest ->
  next (script w) = true ->
  next (tl (script w)) = true ->
  ledger_writes (trace (run (onText cfg now ctx) w))
  = ledger_writes (trace w)
    ++ (if (now <=? ins + 3600000)%Z then [(message_text ctx, a)] else []).
Proof.
  intros Hins Hauth Hcache H1 H2.
  pose proof (stored_at_expired_iff ins now a Hins) as Hexp.
  change (stdTTL * 1000) with 3600000 in Hexp.
  destruct (now <=? ins + 3600000)%Z; cbn [negb] in Hexp.
  - rewrite (onText_ledger_success cfg now ctx Hauth w key _ rest Hcache
               Hexp H1 H2).
    cbn [trace]; rewrite ledger_writes_app; f_equal.
    unfold recovery; destruct (next (tl (tl (script w)))); reflexivity.
  - rewrite (onText_first_expired cfg now ctx Hauth w key _ rest Hcache Hexp).
    cbn [trace]; rewrite ledger_writes_app; f_equal.
    unfold recovery; destruct (next (script w)); reflexivity.
Qed.

(** X12 on the example data: [P1], stored at 1000, meets a reply at
    3601000, the last millisecond of its hour. *)
Lemma X12_witness :
  ledger_writes (trace (run (onText cfg0 3601000 (owner "Lunch"))
                          (start [P1; P2] [])))
  = ledger_writes []
    ++ (if (3601000 <=? 1000 + 3600000)%Z then [("Lunch", rupiah 10000)]
        else []).
Proof.
  apply (X12_confirmable_for_one_hour cfg0 1000 3601000 (owner "Lunch")
           (start [P1; P2] []) (fst P1) (rupiah 10000) [P2]);
    try reflexivity.
  lia.
Defined.

(** ** From the request to the ledger *)

(** X13. One amount from the request to the ledger.  The cache is empty and
    the collaborators accept every call.  The webhook accepts [x] at
    [now1]: the health endpoint then counts one cached transaction.  The
    owner replies within the hour: Notion is asked exactly once, for the
    text of the reply, the amount [x], the UTC day of the reply and the
    configured category; the confirmation names the same text and amount;
    the cache is empty again and the health endpoint counts none. *)
Theorem X13_request_to_ledger (cfg : Config) (now1 now2 : Z) (rnd : string)
    (x : double) (ctx : Context) (w : World) :
  is_zero x = false ->
  is_nan x = false ->
  cache w = [] ->
  all_accepted (script w) ->
  authorized cfg ctx ->
  now2 <= now1 + stdTTL * 1000 ->
  let id := generateTransactionId now1 rnd in
  let w1 := run (webhook cfg now1 rnd (JsNumber x)) w in
  let w2 := run (onText cfg now2 ctx) w1 in
  cachedTransactions (health now1 (cache w1)) = 1%nat
  /\ trace w2
     = trace w
       ++ [TelegramSend (MY_CHAT_ID cfg) (MsgNewExpense (JsNumber x)) true;
           Console (LogTransactionReceived id (JsNumber x));
           HttpResponse 200 true (Some id);
           TelegramSend (MY_CHAT_ID cfg) MsgSaving true;
           NotionCreate (message_text ctx) (JsNumber x) (today now2)
             (category cfg) true;
           TelegramSend (MY_CHAT_ID cfg)
             (MsgSaved (message_text ctx) (JsNumber x) now2) true;
           Console (LogSavedToNotion id)]
  /\ cache w2 = []
  /\ cachedTransactions (health now2 (cache w2)) = 0%nat.
Proof.
  intros Hz Hn Hempty Hacc Hauth Hnow2 id w1 w2.
  assert (E1 : w1 = {| cache := [(id, stored_at now1 (JsNumber x))];
                       script := tl (script w);
                       trace := trace w
                         ++ [TelegramSend (MY_CHAT_ID cfg)
                               (MsgNewExpense (JsNumber x)) true;
                             Console (LogTransactionReceived id (JsNumber x));
                             HttpResponse 200 true (Some id)] |}).
  { subst w1; rewrite (webhook_accepts cfg now1 rnd x w Hz Hn).
    rewrite (all_accepted_next _ Hacc), Hempty; reflexivity. }
  assert (Hacc1 : all_accepted (script w1))
    by (rewrite E1; apply all_accepted_tl; exact Hacc).
  assert (Hcache1 : cache w1 = [(id, stored_at now1 (JsNumber x))])
    by (rewrite E1; reflexivity).
  assert (E2 : w2 = {| cache := cache_del id (cache w1);
                       script := tl (tl (tl (script w1)));
                       trace := trace w1
                         ++ [TelegramSend (chat ctx) MsgSaving true;
                             NotionCreate (message_text ctx) (JsNumber x)
                               (today now2) (category cfg) true;
                             TelegramSend (chat ctx)
                               (MsgSaved (message_text ctx) (JsNumber x) now2)
                               true;
                             Console (LogSavedToNotion id)] |}).
  { subst w2.
    apply (onText_resolves cfg now2 ctx Hauth w1 id
             (stored_at now1 (JsNumber x)) [] Hcache1).
    - apply fresh_entry_live; exact Hnow2.
    - apply all_accepted_next; exact Hacc1.
    - apply all_accepted_next, all_accepted_tl; exact Hacc1.
    - apply all_accepted_next; do 2 apply all_accepted_tl; exact Hacc1. }
  assert (Hcache2 : cache w2 = []).
  { rewrite E2; cbn [cache]; rewrite Hcache1.
    unfold cache_del; cbn [filter fst]; rewrite String.eqb_refl; reflexivity. }
  conj_split.
  - rewrite Hcache1; reflexivity.
  - rewrite E2; cbn [trace]; rewrite E1; cbn [trace].
    unfold chat; rewrite Hauth, <- app_assoc; reflexivity.
  - exact Hcache2.
  - rewrite Hcache2; reflexivity.
Qed.

(** X13 on the example data: fifty thousand rupiah, confirmed as lunch ten
    minutes later. *)
Lemma X13_witness :
  let id := generateTransactionId 1000 "abc" in
  let w1 := run (webhook cfg0 1000 "abc" (rupiah 50000)) (start [] []) in
  let w2 := run (onText cfg0 601000 (owner "Lunch")) w1 in
  cachedTransactions (health 1000 (cache w1)) = 1%nat
  /\ trace w2
     = [] ++ [TelegramSend "42" (MsgNewExpense (rupiah 50000)) true;
              Console (LogTransactionReceived id (rupiah 50000));
              HttpResponse 200 true (Some id);
              TelegramSend "42" MsgSaving true;
              NotionCreate "Lunch" (rupiah 50000) (today 601000)
                (category cfg0) true;
              TelegramSend "42" (MsgSaved "Lunch" (rupiah 50000) 601000) true;
              Console (LogSavedToNotion id)]
  /\ cache w2 = []
  /\ cachedTransactions (health 601000 (cache w2)) = 0%nat.
Proof.
  apply (X13_request_to_ledger cfg0 1000 601000 "abc" (double_of_Z 50000)
           (owner "Lunch") (start [] []));
    try reflexivity.
  - constructor.
  - vm_compute; discriminate.
Defined.

(** ** The count of the health endpoint *)

Lemma cache_del_first_length (key : string) (d : Wrapped) (rest : Cache) :
  NoDup (cache_keys ((key, d) :: rest)) ->
  List.length (cache_keys (cache_del key ((key, d) :: rest)))
  = List.length (cache_keys rest).
Proof. intros H; rewrite (cache_del_first key d rest H); reflexivity. Qed.

(** X14. What [GET /health] reports as [cachedTransactions] follows the
    two handlers exactly.  A request to the webhook adds one when the
    amount passes the test and the identifier is new, and nothing when the
    amount is refused or the identifier is already a key.  A reply takes
    one away when it deletes the first key (an expired entry, or one
    written to the ledger), and nothing otherwise; expired entries are
    counted until then. *)
Theorem X14_health_follows_the_handlers (cfg : Config) (now at_ : Z)
    (rnd : string) (a : JsValue) (ctx : Context) (w : World) :
  NoDup (cache_keys (cache w)) ->
  cachedTransactions (health at_ (cache (run (webhook cfg now rnd a) w)))
  = (cachedTransactions (health at_ (cache w))
     + (if refused_by_webhook a then 0
        else if existsb (String.eqb (generateTransactionId now rnd))
                  (cache_keys (cache w))
             then 0 else 1))%nat
  /\ (cachedTransactions (health at_ (cache (run (onText cfg now ctx) w)))
      + (if reply_deletes cfg now ctx w then 1 else 0))%nat
     = cachedTransactions (health at_ (cache w)).
Proof.
  intros Hnodup; unfold health; cbn [cachedTransactions]; split.
  - destruct (refused_by_webhook a) eqn:E.
    + rewrite (webhook_rejects cfg now rnd a w (refused_by_webhook_true a E)).
      cbn [cache]; lia.
    + destruct (refused_by_webhook_false a E) as [x [-> [Hz Hn]]].
      rewrite (webhook_accepts cfg now rnd x w Hz Hn); cbn [cache].
      unfold cache_set; rewrite assign_keys.
      destruct (existsb (String.eqb (generateTransactionId now rnd))
                  (cache_keys (cache w)));
        [lia | rewrite length_app; reflexivity].
  - unfold reply_deletes.
    onText_paths cfg now ctx w; cbn [cache];
      try rewrite Hcache in Hnodup.
    + rewrite Hcache; cbn; lia.
    + rewrite Hcache, (cache_del_first_length key d rest Hnodup).
      unfold cache_keys; cbn; lia.
    + rewrite Hcache, (cache_del_first_length key d rest Hnodup).
      unfold cache_keys; cbn; lia.
    + rewrite Hcache; cbn; lia.
    + rewrite Hcache; cbn; lia.
    + destruct (cache w) as [| [k d] rest]; cbn; lia.
Qed.

(** X14 on the example data: a new amount arrives while [P1] and [P2] are
    cached, and the owner confirms [P1]. *)
Lemma X14_witness :
  cachedTransactions
    (health 9000 (cache (run (webhook cfg0 5000 "xyz" (rupiah 30000))
                           (start [P1; P2] []))))
  = (cachedTransactions (health 9000 [P1; P2])
     + (if refused_by_webhook (rupiah 30000) then 0
        else if existsb (String.eqb (generateTransactionId 5000 "xyz"))
                  (cache_keys [P1; P2])
             then 0 else 1))%nat
  /\ (cachedTransactions
        (health 9000 (cache (run (onText cfg0 5000 (owner "Lunch"))
                               (start [P1; P2] []))))
      + (if reply_deletes cfg0 5000 (owner "Lunch") (start [P1; P2] [])
         then 1 else 0))%nat
     = cachedTransactions (health 9000 [P1; P2]).
Proof.
  apply (X14_health_follows_the_handlers cfg0 5000 9000 "xyz" (rupiah 30000)
           (owner "Lunch") (start [P1; P2] [])).
  repeat constructor; simpl; intuition discriminate.
Defined.

(** ** What becomes of a forwarded amount *)

(** X15. A notification of the bank carries an amount that the window does
    not hold: the sensor records it and hands it to [sendToServer].  When
    the amount is not finite no request is made.  Otherwise the server
    answers 400 when it is zero, 200 when it is not and the announcement
    is sent, 500 when the announcement is refused.  A zero amount thus
    takes its place in the window and leaves no trace on the server: no
    cache entry, no message. *)
Theorem X15_fate_of_a_forwarded_amount (cfg : Config)
    (sbn : StatusBarNotification) (A : double) (currentTime now : Z)
    (rnd : string) (window : Window) (w : World) :
  carries sbn A ->
  anySameAmount A (removeOld currentTime window) = false ->
  let st := submit cfg (Some sbn) currentTime now rnd (window, w) in
  fst st = removeOld currentTime window ++ [(currentTime, A)]
  /\ http_responses (trace (snd st))
     = http_responses (trace w)
       ++ (if is_finite A
           then [if is_zero A then 400
                 else if next (script w) then 200 else 500]
           else [])
  /\ (is_finite A = false -> snd st = w)
  /\ (is_zero A = true ->
      cache (snd st) = cache w
      /\ telegram_calls (trace (snd st)) = telegram_calls (trace w)).
Proof.
  intros Hcarries Hnew st.
  assert (Hnan : is_nan A = false)
    by (destruct Hcarries as [_ H]; exact (extractAmount_not_nan _ _ H)).
  assert (E : st = (removeOld currentTime window ++ [(currentTime, A)],
                    match sendToServer A with
                    | Some body => run (webhook cfg now rnd body) w
                    | None => w
                    end)).
  { subst st; unfold submit; cbn [fst snd].
    rewrite (observe_new sbn A currentTime window Hcarries Hnew).
    rewrite fold_left_app.
    unfold arrival_logs; cbn [fold_left deliver]; reflexivity. }
  rewrite E; cbn [fst snd]; unfold sendToServer.
  destruct (is_finite A) eqn:Hfin.
  - destruct (is_zero A) eqn:Hzero.
    + assert (Hrej : truthy (JsNumber A) = false \/
                     typeof (JsNumber A) <> "number")
        by (left; cbn [truthy]; rewrite Hzero; reflexivity).
      rewrite (webhook_rejects cfg now rnd (JsNumber A) w Hrej).
      cbn [cache trace]; autorewrite with observations.
      rewrite http_responses_app; cbn; rewrite app_nil_r.
      conj_split; try reflexivity; [discriminate | intros _; split; reflexivity].
    + rewrite (webhook_accepts cfg now rnd A w Hzero Hnan); cbn [trace].
      rewrite http_responses_app.
      conj_split; try reflexivity; try discriminate.
      f_equal; destruct (next (script w)); reflexivity.
  - rewrite app_nil_r.
    conj_split; try reflexivity.
    intros Hzero; destruct A; discriminate.
Qed.

(** X15 on the example data: a notification of zero rupiah. *)
Lemma X15_witness :
  let st := submit cfg0 (Some payment_0) 1000 1200 "abc" ([], start [P1] []) in
  fst st = removeOld 1000 [] ++ [(1000, double_of_Z 0)]
  /\ http_responses (trace (snd st))
     = http_responses []
       ++ (if is_finite (double_of_Z 0)
           then [if is_zero (double_of_Z 0) then 400
                 else if next [] then 200 else 500]
           else [])
  /\ (is_finite (double_of_Z 0) = false -> snd st = start [P1] [])
  /\ (is_zero (double_of_Z 0) = true ->
      cache (snd st) = [P1]
      /\ telegram_calls (trace (snd st)) = telegram_calls []).
Proof.
  apply (X15_fate_of_a_forwarded_amount cfg0 payment_0 (double_of_Z 0)
           1000 1200 "abc" [] (start [P1] [])).
  - split; vm_compute; reflexivity.
  - vm_compute; reflexivity.
Defined.

(** * Further properties: numbers, identities, queues *)

(** ** Whole amounts are compared exactly *)

Lemma fexp_small (e : Z) : -1021 <= e <= 1024 -> fexp 53 1024 e = e - 53.
Proof. intros H; unfold fexp, emin; lia. Qed.

(** A mantissa of 53 bits needs no rounding. *)
Lemma binary_round_aux_exact (m : positive) (e : Z) :
  Z.pos (digits2_pos m) = 53 ->
  -1074 <= e <= 971 ->
  binary_round_aux 53 1024 false (Z.pos m) e loc_Exact = S754_finite false m e.
Proof.
  intros Hd He.
  assert (Hshift : shr_fexp 53 1024 (Z.pos m) e loc_Exact
                   = ({| shr_m := Z.pos m; shr_r := false; shr_s := false |},
                      e)).
  { unfold shr_fexp, Zdigits2; rewrite Hd.
    replace (fexp 53 1024 (53 + e) - e) with 0 by (unfold fexp, emin; lia).
    reflexivity. }
  unfold binary_round_aux.
  rewrite Hshift; cbn [shr_m loc_of_shr_record round_nearest_even].
  rewrite Hshift; cbn [shr_m].
  assert (Hle : (e <=? 1024 - 53)%Z = true) by (apply Z.leb_le; lia).
  rewrite Hle; reflexivity.
Qed.

Lemma digits2_iter_xO (p d : positive) :
  digits2_pos (Pos.iter xO p d) = (digits2_pos p + d)%positive.
Proof.
  induction d as [| d IH] using Pos.peano_ind.
  - cbn; lia.
  - rewrite Pos.iter_succ; cbn [digits2_pos]; rewrite IH; lia.
Qed.

Lemma iter_xO_value (p d : positive) :
  Z.pos (Pos.iter xO p d) = Z.pos p * 2 ^ Z.pos d.
Proof.
  induction d as [| d IH] using Pos.peano_ind.
  - cbn; lia.
  - rewrite Pos.iter_succ, Pos2Z.inj_xO, IH, Pos2Z.inj_succ, Z.pow_succ_r
      by lia.
    lia.
Qed.

Lemma digits2_size (p : positive) : digits2_pos p = Pos.size p.
Proof. induction p; cbn; congruence. Qed.

Lemma digits2_bound (p : positive) :
  Z.pos p < 2 ^ 53 -> 1 <= Z.pos (digits2_pos p) <= 53.
Proof.
  intros H; split; [lia |].
  rewrite digits2_size.
  pose proof (Pos.size_le p) as Hle.
  destruct (Z.le_gt_cases (Z.pos (Pos.size p)) 53) as [Hok | Hbig];
    [exact Hok |].
  exfalso.
  assert (H54 : 2 ^ 54 <= 2 ^ Z.pos (Pos.size p))
    by (apply Z.pow_le_mono_r; lia).
  assert (Hz : 2 ^ Z.pos (Pos.size p) <= Z.pos p~0)
    by (rewrite <- Pos2Z.inj_pow; apply Pos2Z.pos_le_pos; exact Hle).
  rewrite Pos2Z.inj_xO in Hz.
  change (2 ^ 54) with (2 * 2 ^ 53) in H54; lia.
Qed.

(** Below 2^53 the conversion shifts the integer to 53 bits and keeps every
    bit of it. *)
Lemma double_of_Z_small (p : positive) :
  Z.pos p < 2 ^ 53 ->
  exists m : positive,
    double_of_Z (Z.pos p) = S754_finite false m (Z.pos (digits2_pos p) - 53)
    /\ Z.pos m = Z.pos p * 2 ^ (53 - Z.pos (digits2_pos p)).
Proof.
  intros Hp.
  pose proof (digits2_bound p Hp) as Hd.
  unfold double_of_Z, binary_normalize, binary_round.
  rewrite Z.add_0_r, fexp_small by lia.
  unfold shl_align.
  destruct (Z.pos (digits2_pos p) - 53 - 0) as [| q | q] eqn:E; [| lia |].
  - assert (H53 : Z.pos (digits2_pos p) = 53) by lia.
    exists p; rewrite H53; split.
    + apply binary_round_aux_exact; [exact H53 | lia].
    + cbn; lia.
  - assert (Hq : Z.pos q = 53 - Z.pos (digits2_pos p)) by lia.
    exists (Pos.iter xO p q); split.
    + apply binary_round_aux_exact; [| lia].
      rewrite digits2_iter_xO, Pos2Z.inj_add; lia.
    + rewrite iter_xO_value, Hq; reflexivity.
Qed.

Lemma double_eqb_finite (m1 m2 : positive) (e1 e2 : Z) :
  double_eqb (S754_finite false m1 e1) (S754_finite false m2 e2) = true ->
  e1 = e2 /\ m1 = m2.
Proof.
  unfold double_eqb, SFeqb; cbn [SFcompare].
  destruct (Z.compare_spec e1 e2) as [He | He | He]; try discriminate.
  change (Pos.compare_cont Eq m1 m2) with (Pos.compare m1 m2).
  destruct (Pos.compare_spec m1 m2) as [Hm | Hm | Hm]; try discriminate.
  intros _; split; assumption.
Qed.

Lemma double_of_Z_inj (n1 n2 : Z) :
  0 <= n1 < 2 ^ 53 -> 0 <= n2 < 2 ^ 53 ->
  double_eqb (double_of_Z n1) (double_of_Z n2) = true -> n1 = n2.
Proof.
  intros H1 H2.
  destruct n1 as [| p1 | p1]; [| | exfalso; lia];
    (destruct n2 as [| p2 | p2]; [| | exfalso; lia]).
  - reflexivity.
  - destruct (double_of_Z_small p2) as [m2 [E2 _]]; [lia |].
    rewrite E2; discriminate.
  - destruct (double_of_Z_small p1) as [m1 [E1 _]]; [lia |].
    rewrite E1; discriminate.
  - destruct (double_of_Z_small p1) as [m1 [E1 V1]]; [lia |].
    destruct (double_of_Z_small p2) as [m2 [E2 V2]]; [lia |].
    rewrite E1, E2; intros Heq.
    apply double_eqb_finite in Heq; destruct Heq as [He Hm].
    subst m2.
    assert (Hd : Z.pos (digits2_pos p1) = Z.pos (digits2_pos p2)) by lia.
    rewrite Hd, V2 in V1.
    pose proof (digits2_bound p2 ltac:(lia)) as Hb.
    assert (Hpow : 0 < 2 ^ (53 - Z.pos (digits2_pos p2)))
      by (apply Z.pow_pos_nonneg; lia).
    nia.
Qed.

(** X16. Whole amounts below 2^53 are compared exactly.  The text gives a
    whole number, which the parse turns into a binary64 value, and the
    duplicate test compares binary64 values: in that range nothing is lost.
    An entry for [n1] makes a later amount [n2] a duplicate exactly when
    [n1 = n2]; a payment of 10001 is never taken for one of 10000. *)
Theorem X16_whole_amounts_compared_exactly (n1 n2 time : Z) :
  0 <= n1 < 2 ^ 53 ->
  0 <= n2 < 2 ^ 53 ->
  anySameAmount (double_of_Z n2) [(time, double_of_Z n1)] = true <-> n1 = n2.
Proof.
  intros H1 H2; unfold anySameAmount; cbn [existsb snd].
  rewrite orb_false_r; split.
  - apply double_of_Z_inj; assumption.
  - intros ->; apply double_eqb_refl, double_of_Z_not_nan.
Qed.

(** X16 on two amounts one rupiah apart. *)
Lemma X16_witness :
  anySameAmount (double_of_Z 10001) [(1000, double_of_Z 10000)] = true
  <-> 10000 = 10001.
Proof.
  apply (X16_whole_amounts_compared_exactly 10000 10001 1000); lia.
Defined.

(** ** One chat *)

(** X17. A configuration authorises at most one chat: two replies that both
    pass the test on the chat come from the same chat id.  The test
    compares the decimal text of the id with [MY_CHAT_ID], and different
    ids never print the same. *)
Theorem X17_one_authorized_chat (cfg : Config) (ctx1 ctx2 : Context) :
  authorized cfg ctx1 ->
  authorized cfg ctx2 ->
  chat_id ctx1 = chat_id ctx2.
Proof.
  unfold authorized; intros H1 H2.
  apply int_toString_inj; rewrite H1, H2; reflexivity.
Qed.

(** X17 on the example data. *)
Lemma X17_witness : chat_id (owner "Lunch") = chat_id (owner "Dinner").
Proof.
  exact (X17_one_authorized_chat cfg0 (owner "Lunch") (owner "Dinner")
           eq_refl eq_refl).
Defined.

(** ** Each reply takes one entry *)

(** X18. Replies of the configured chat handled one after the other, the
    sweep of node-cache not running in between, Telegram and Notion
    accepting every call.  Each reply takes exactly one entry from the
    front of the cache, live or not: a live entry is written to the ledger
    with the text of the reply, an expired one is dropped with the
    not-found answer and the text of that reply is lost.  After the replies
    the cache is what was behind the entries taken, and the ledger has
    received the live pairs of reply and entry, in order.  (A sweep between
    two replies removes the expired entries at once; see
    [sweep_between_replies] below.) *)
Theorem X18_each_reply_takes_one_entry (cfg : Config)
    (rs : list (Z * Context)) (w : World) :
  Forall (fun r => authorized cfg (snd r)) rs ->
  NoDup (cache_keys (cache w)) ->
  (List.length rs <= List.length (cache w))%nat ->
  all_accepted (script w) ->
  let w' := replies cfg rs w in
  cache w' = skipn (List.length rs) (cache w)
  /\ ledger_writes (trace w')
     = ledger_writes (trace w)
       ++ map resolution (filter meets_liveb (combine rs (cache w))).
Proof.
  revert w.
  induction rs as [| r rs IH]; intros w Hauth Hnodup Hlen Hacc w'.
  - subst w'; cbn; rewrite app_nil_r; split; reflexivity.
  - destruct (cache w) as [| [key d] rest] eqn:Hcache;
      [cbn [List.length] in Hlen; lia |].
    apply Forall_cons_iff in Hauth; destruct Hauth as [Hr Hauth].
    pose proof Hnodup as Hnodup_all.
    cbn [cache_keys map fst] in Hnodup.
    apply NoDup_cons_iff in Hnodup; destruct Hnodup as [_ Hnodup].
    pose proof (all_accepted_next _ Hacc) as N1.
    pose proof (all_accepted_next _ (all_accepted_tl _ Hacc)) as N2.
    pose proof (all_accepted_next _
                  (all_accepted_tl _ (all_accepted_tl _ Hacc))) as N3.
    subst w'; cbn [replies fold_left combine filter].
    unfold meets_liveb at 1; cbn [fst snd].
    destruct (expired (fst r) d) eqn:Hd; cbn [negb].
    + pose proof (onText_first_expired cfg (fst r) (snd r) Hr w key d rest
                    Hcache Hd) as E.
      rewrite N1, Hcache, (cache_del_first key d rest Hnodup_all) in E.
      rewrite E.
      match goal with
      | |- context [fold_left _ rs ?w1] => set (w1' := w1)
      end.
      destruct (IH w1' Hauth Hnodup) as [Hc Hw].
      { cbn [w1' cache]; cbn [List.length] in Hlen; lia. }
      { cbn [w1' script]; apply all_accepted_tl; exact Hacc. }
      unfold replies in Hc, Hw; split.
      * rewrite Hc; reflexivity.
      * rewrite Hw; cbn [w1' trace cache]; rewrite ledger_writes_app.
        cbn [ledger_writes flat_map app]; rewrite app_nil_r; reflexivity.
    + pose proof (onText_resolves cfg (fst r) (snd r) Hr w key d rest
                    Hcache Hd N1 N2 N3) as E.
      rewrite Hcache, (cache_del_first key d rest Hnodup_all) in E.
      rewrite E.
      match goal with
      | |- context [fold_left _ rs ?w1] => set (w1' := w1)
      end.
      destruct (IH w1' Hauth Hnodup) as [Hc Hw].
      { cbn [w1' cache]; cbn [List.length] in Hlen; lia. }
      { cbn [w1' script]; do 3 apply all_accepted_tl; exact Hacc. }
      unfold replies in Hc, Hw; split.
      * rewrite Hc; reflexivity.
      * rewrite Hw; cbn [w1' trace cache]; rewrite ledger_writes_app.
        cbn [map resolution fst snd ledger_writes flat_map app].
        rewrite <- app_assoc; reflexivity.
Qed.

(** X18 on the example data: [P1] has expired when the first reply comes,
    [P2] is live when the second comes. *)
Lemma X18_witness :
  let rs := [(3700000, owner "Lunch"); (3800000, owner "Dinner")] in
  let w' := replies cfg0 rs (start [P1; P2] []) in
  cache w' = skipn (List.length rs) [P1; P2]
  /\ ledger_writes (trace w')
     = ledger_writes []
       ++ map resolution (filter meets_liveb (combine rs [P1; P2])).
Proof.
  apply (X18_each_reply_takes_one_entry cfg0
           [(3700000, owner "Lunch"); (3800000, owner "Dinner")]
           (start [P1; P2] [])).
  - repeat constructor.
  - repeat constructor; simpl; intuition discriminate.
  - simpl; lia.
  - constructor.
Defined.

(** The sweep between two replies: with two expired entries before a live
    one, two replies back to back write nothing, and the same replies with
    a sweep in between write the live entry. *)
Example sweep_between_replies :
  let E1 := ("txn_1_a", stored_at 1 (rupiah 1)) in
  let E2 := ("txn_2_b", stored_at 2 (rupiah 2)) in
  let L := ("txn_3000000_c", stored_at 3000000 (rupiah 3)) in
  let w1 := run (onText cfg0 3700000 (owner "A")) (start [E1; E2; L] []) in
  let swept := {| cache := checkData 4300000 (cache w1);
                  script := script w1; trace := trace w1 |} in
  ledger_writes (trace (run (onText cfg0 4300000 (owner "B")) w1)) = []
  /\ ledger_writes (trace (run (onText cfg0 4300000 (owner "B")) swept))
     = [("B", rupiah 3)].
Proof. vm_compute; split; reflexivity. Qed.

Example expired_entry_costs_a_reply :
  ledger_writes
    (trace (replies cfg0
              [(3700000, owner "Lunch"); (3800000, owner "Dinner")]
              (start [P1; P2] [])))
  = [("Dinner", rupiah 20000)].
Proof. vm_compute; reflexivity. Qed.
